(** * tools.py: utility functions of the multitask training pipeline

    A shallow embedding of [src/tools.py] and the properties its specification
    states about it.

    Conventions of the embedding.
    - The module is Python 2 code ([json.dump] writes to a handle opened
      ['wb'], which only a byte-string [str] allows), so Python 2 semantics
      are followed where the versions differ.
    - A Python exception is a value of [exn]; a call returns [Ok v] or
      [Raise e] together with the world it leaves behind.
    - float64 numbers are Rocq's primitive binary64 floats.
    - Mutable objects (dicts, [RandomState] generators) live in a store and
      are passed by reference, as in Python.
    - The values of a mapping are [None], booleans, integers, floats,
      strings (ASCII text), lists of such values, and references to
      generators; the keys are strings.
    - A file is known by the document it holds: the text of a JSON file and
      the bytes of a pickle are not modelled, [json] and [pickle] are taken
      to read back the document they wrote.
    - numpy's and the operating system's own code ([RandomState], [os.walk],
      [np.dot], ...) is modelled by what it returns. *)

From Stdlib Require Import ZArith Floats Ascii String List Bool Reals Lra.
From stdpp Require Import gmap strings list.

#[local] Set Warnings "-register-all".

Local Open Scope string_scope.
Local Open Scope list_scope.
Local Open Scope Z_scope.

(** ** Exceptions and results *)

Inductive exn :=
  | KeyError (key : string)
  | TypeError
  | ValueError
  | IndexError
  | IOError
  | OSError
  | UnpicklingError
  | UnboundLocalError (name : string).

Inductive result (A : Type) :=
  | Ok (a : A)
  | Raise (e : exn).
Arguments Ok {A} a.
Arguments Raise {A} e.

(** ** Scalars

    [gen_ortho_matrix] only adds, subtracts, multiplies, divides, negates,
    takes square roots and signs.  Its loop body is written once over this
    interface and read at float64 (what the code runs on) and at the real
    numbers (the exact arithmetic its orthogonality argument is about). *)

Class Scalar (F : Type) := {
  s_zero : F;
  s_one : F;
  s_two : F;
  s_add : F -> F -> F;
  s_sub : F -> F -> F;
  s_mul : F -> F -> F;
  s_div : F -> F -> F;
  s_neg : F -> F;
  s_sqrt : F -> F;
  (** [np.sign] *)
  s_sign : F -> F
}.

(** [np.sign] on a float: 1 above zero, -1 below, 0 at either zero, the
    argument itself when it is a NaN. *)
Definition float_sign (f : float) : float :=
  if (0 <? f)%float then 1%float
  else if (f <? 0)%float then (- 1)%float
  else if (f =? 0)%float then 0%float
  else f.

#[global] Instance float_Scalar : Scalar float := {|
  s_zero := 0%float;
  s_one := 1%float;
  s_two := 2%float;
  s_add := PrimFloat.add;
  s_sub := PrimFloat.sub;
  s_mul := PrimFloat.mul;
  s_div := PrimFloat.div;
  s_neg := PrimFloat.opp;
  s_sqrt := PrimFloat.sqrt;
  s_sign := float_sign
|}.

Definition R_sign (x : R) : R :=
  if Rlt_dec 0 x then 1%R else if Rlt_dec x 0 then (- 1)%R else 0%R.

#[global] Instance R_Scalar : Scalar R := {|
  s_zero := 0%R;
  s_one := 1%R;
  s_two := 2%R;
  s_add := Rplus;
  s_sub := Rminus;
  s_mul := Rmult;
  s_div := Rdiv;
  s_neg := Ropp;
  s_sqrt := sqrt;
  s_sign := R_sign
|}.

(** ** The numpy operations of [gen_ortho_matrix]

    A 1-d array is a list, a 2-d array a list of rows. *)

Section Numpy.
Context {F : Type} `{Scalar F}.

Definition vector := list F.
Definition matrix := list (list F).

(** [np.eye(n)] *)
Definition np_eye (n : nat) : matrix :=
  map (fun i => map (fun j => if Nat.eqb i j then s_one else s_zero) (seq 0 n))
      (seq 0 n).

(** [x*y], elementwise *)
Definition vmul (x y : vector) : vector := zip_with s_mul x y.

(** [a.sum()]: the terms added up from zero, first to last, as numpy does
    for arrays of fewer than 8 entries.  It groups the additions of longer
    arrays differently; on floats the grouping can change the last bits of
    the sum, on exact numbers it cannot. *)
Definition np_sum (a : vector) : F := fold_left s_add a s_zero.

(** [np.outer(x, y)] *)
Definition np_outer (x y : vector) : matrix :=
  map (fun a => map (fun b => s_mul a b) y) x.

(** [c*A], [A/c] and [A - B], elementwise *)
Definition mscale (c : F) (A : matrix) : matrix := map (map (s_mul c)) A.
Definition mdiv (A : matrix) (c : F) : matrix := map (map (fun a => s_div a c)) A.
Definition msub (A B : matrix) : matrix := zip_with (zip_with s_sub) A B.

(** [A[i][j]], read with a default outside the array (only used inside) *)
Definition mget (A : matrix) (i j : nat) : F := nth j (nth i A []) s_zero.

(** [np.dot(A, B)] of an array with [k] columns and one with [k] rows:
    entry [(i, j)] is the sum over [l] of [A[i][l]*B[l][j]], taken here in
    the order of [l] (a BLAS may group the additions differently, with the
    same caveat as for [sum]). *)
Definition np_dot (A B : matrix) : matrix :=
  map (fun row =>
         map (fun j => np_sum (vmul row (map (fun brow => nth j brow s_zero) B)))
             (seq 0 (length (hd [] B))))
      A.

(** [mat[r:, r:] = B] for a block [B] of the shape of the slice: the rows
    from [r] on keep their first [r] entries and take a row of [B] after
    them. *)
Definition set_block (mat : matrix) (r : nat) (B : matrix) : matrix :=
  imap (fun i row => if Nat.ltb i r then row else take r row ++ nth (i - r) B [])
       mat.

(** [x[0] += c] *)
Definition iadd_first (x : vector) (c : F) : vector :=
  match x with
  | [] => []
  | x0 :: xs => s_add x0 c :: xs
  end.

(** The body of the loop of [gen_ortho_matrix] after the draw of [x]
    (lines 171-177), at step [n] of dimension [dim].  [x] has
    [dim - n + 1 >= 2] entries, so [x[0]] exists. *)
Definition householder_step (dim n : nat) (Hm : matrix) (x : vector) : matrix :=
  let D := s_sign (hd s_zero x) in
  let x := iadd_first x (s_mul D (s_sqrt (np_sum (vmul x x)))) in
  let Hx :=
    mscale (s_neg D)
           (msub (np_eye (dim - n + 1))
                 (mdiv (mscale s_two (np_outer x x)) (np_sum (vmul x x)))) in
  let mat := set_block (np_eye dim) (n - 1) Hx in
  np_dot Hm mat.

(** The matrix the loop builds from the vectors it draws, in order. *)
Fixpoint householder_fold (dim n : nat) (Hm : matrix) (draws : list vector) : matrix :=
  match draws with
  | [] => Hm
  | x :: rest => householder_fold dim (S n) (householder_step dim n Hm x) rest
  end.

Definition ortho_of_draws (dim : nat) (draws : list vector) : matrix :=
  householder_fold dim 1 (np_eye dim) draws.

(** [M . M^T] *)
Definition gram (M : matrix) : matrix :=
  map (fun ri => map (fun rj => np_sum (vmul ri rj)) M) M.
End Numpy.

Arguments vector F : clear implicits.
Arguments matrix F : clear implicits.

(** The float64 nearest to 1e-9, the tolerance the specification names. *)
Definition tol_1e9 : float := 0x1.12e0be826d695p-30%float.

(** [M . M^T] is the identity within [tol], entry by entry (float64). *)
Definition close_to (tol a b : float) : bool := (PrimFloat.abs (a - b) <=? tol)%float.

Definition orthogonal_within (tol : float) (M : matrix float) : bool :=
  forallb (fun row => Nat.eqb (length row) (length M)) M
  && forallb (fun rows =>
                forallb (fun ge => close_to tol (fst ge) (snd ge))
                        (combine (fst rows) (snd rows)))
             (combine (gram M) (np_eye (length M))).

(** ** Python values

    The values a hyperparameter or log mapping holds: JSON-like plain data,
    and references to generator objects.  Lists are immutable here (the code
    never updates one in place); generators are references into the store. *)

Abbreviation loc := positive.

Inductive pyval :=
  | VNone
  | VBool (b : bool)
  | VInt (z : Z)
  | VFloat (f : float)
  | VStr (s : string)
  | VList (l : list pyval)
  | VRng (r : loc).

(** The order of a float and an integer, compared exactly as Python does
    ([None] for a NaN). *)
Definition float_cmp_Z (f : float) (z : Z) : option comparison :=
  match Prim2SF f with
  | S754_nan => None
  | S754_zero _ => Some (0 ?= z)
  | S754_infinity s => Some (if s then Lt else Gt)
  | S754_finite s m e =>
      let sm := if s then Z.neg m else Z.pos m in
      Some (if 0 <=? e then (sm * 2 ^ e ?= z) else (sm ?= z * 2 ^ (- e)))
  end.

Definition is_Eq (c : option comparison) : bool :=
  match c with Some Eq => true | _ => false end.
Definition is_Lt (c : option comparison) : bool :=
  match c with Some Lt => true | _ => false end.
Definition is_Gt (c : option comparison) : bool :=
  match c with Some Gt => true | _ => false end.

(** [a == b] *)
Fixpoint py_eq (a b : pyval) : bool :=
  match a, b with
  | VNone, VNone => true
  | VBool x, VBool y => Z.eqb (Z.b2z x) (Z.b2z y)
  | VBool x, VInt y => Z.eqb (Z.b2z x) y
  | VInt x, VBool y => Z.eqb x (Z.b2z y)
  | VInt x, VInt y => Z.eqb x y
  | VFloat x, VFloat y => PrimFloat.eqb x y
  | VFloat x, VInt y => is_Eq (float_cmp_Z x y)
  | VInt x, VFloat y => is_Eq (float_cmp_Z y x)
  | VFloat x, VBool y => is_Eq (float_cmp_Z x (Z.b2z y))
  | VBool x, VFloat y => is_Eq (float_cmp_Z y (Z.b2z x))
  | VStr x, VStr y => String.eqb x y
  | VList x, VList y =>
      (fix go (x y : list pyval) : bool :=
         match x, y with
         | [], [] => true
         | u :: x', v :: y' => py_eq u v && go x' y'
         | _, _ => false
         end) x y
  | VRng x, VRng y => Pos.eqb x y
  | _, _ => false
  end.

(** Python 2 orders values of unlike types by a fixed rule: [None] first,
    then the numbers, then the other types by the name of their type
    ([list], [mtrand.RandomState], [str]). *)
Definition py2_type_rank (v : pyval) : Z :=
  match v with
  | VNone => 0
  | VBool _ | VInt _ | VFloat _ => 1
  | VList _ => 2
  | VRng _ => 3
  | VStr _ => 4
  end.

Fixpoint string_ltb (a b : string) : bool :=
  match a, b with
  | _, EmptyString => false
  | EmptyString, String _ _ => true
  | String x a', String y b' =>
      (Ascii.nat_of_ascii x <? Ascii.nat_of_ascii y)%nat
      || (Nat.eqb (Ascii.nat_of_ascii x) (Ascii.nat_of_ascii y) && string_ltb a' b')
  end.

(** [a < b] (Python 2: never raises on these values) *)
Fixpoint py_lt (a b : pyval) : bool :=
  match a, b with
  | VBool x, VBool y => Z.ltb (Z.b2z x) (Z.b2z y)
  | VBool x, VInt y => Z.ltb (Z.b2z x) y
  | VInt x, VBool y => Z.ltb x (Z.b2z y)
  | VInt x, VInt y => Z.ltb x y
  | VFloat x, VFloat y => PrimFloat.ltb x y
  | VFloat x, VInt y => is_Lt (float_cmp_Z x y)
  | VInt x, VFloat y => is_Gt (float_cmp_Z y x)
  | VFloat x, VBool y => is_Lt (float_cmp_Z x (Z.b2z y))
  | VBool x, VFloat y => is_Gt (float_cmp_Z y (Z.b2z x))
  | VStr x, VStr y => string_ltb x y
  | VList x, VList y =>
      (fix go (x y : list pyval) : bool :=
         match x, y with
         | _, [] => false
         | [], _ :: _ => true
         | u :: x', v :: y' => if py_eq u v then go x' y' else py_lt u v
         end) x y
  | VRng x, VRng y => Pos.ltb x y
  | _, _ => Z.ltb (py2_type_rank a) (py2_type_rank b)
  end.

(** ** JSON documents and what [json] makes of values *)

Inductive json :=
  | JNull
  | JBool (b : bool)
  | JInt (z : Z)
  | JFloat (f : float)
  | JStr (s : string)
  | JList (l : list json).

(** The document [json.dump] writes for a value; [None] where it raises
    [TypeError] (a generator is not serializable). *)
Fixpoint to_json (v : pyval) : option json :=
  match v with
  | VNone => Some JNull
  | VBool b => Some (JBool b)
  | VInt z => Some (JInt z)
  | VFloat f => Some (JFloat f)
  | VStr s => Some (JStr s)
  | VList l =>
      option_map JList
        ((fix go (l : list pyval) : option (list json) :=
            match l with
            | [] => Some []
            | v :: l' =>
                match to_json v, go l' with
                | Some j, Some js => Some (j :: js)
                | _, _ => None
                end
            end) l)
  | VRng _ => None
  end.

(** The value [json.load] builds from a document. *)
Fixpoint of_json (j : json) : pyval :=
  match j with
  | JNull => VNone
  | JBool b => VBool b
  | JInt z => VInt z
  | JFloat f => VFloat f
  | JStr s => VStr s
  | JList l => VList (map of_json l)
  end.

(** The object [json.dump] writes for a dict with string keys: the
    document of each value, when every value has one. *)
Definition dict_to_json (d : gmap string pyval) : option (gmap string json) :=
  if bool_decide (map_Forall (fun _ v => is_Some (to_json v)) d)
  then Some (omap to_json d)
  else None.

Definition dict_of_json (o : gmap string json) : gmap string pyval := of_json <$> o.

(** ** The file system

    A tree of directories and files.  A file holds a JSON document, a pickled
    mapping of plain data, or bytes that are neither.  Paths are strings,
    split at ['/'] and resolved from the root, which is also the working
    directory; ['..'] is resolved lexically and links are absent.  The
    empty path names nothing: [os.path.isfile] and [os.path.isdir] are
    false at it, [os.listdir], [os.makedirs] and [open] fail, and [os.walk]
    yields nothing. *)

Inductive content :=
  | CJsonObject (o : gmap string json)
  | CJsonOther (j : json)
  | CPickleDict (d : gmap string json)
  | COther.

Inductive node :=
  | File (c : content)
  | Dir (entries : list (string * node)).

Fixpoint split_path (p cur : string) : list string :=
  match p with
  | EmptyString => [cur]
  | String c p' =>
      if Ascii.eqb c "/" then cur :: split_path p' ""
      else split_path p' (cur +:+ String c "")
  end.

Definition path_components (p : string) : list string :=
  rev (fold_left (fun st c =>
                    if String.eqb c "" || String.eqb c "." then st
                    else if String.eqb c ".." then tail st
                    else c :: st)
                 (split_path p "") []).

Fixpoint lookup_entry (name : string) (es : list (string * node)) : option node :=
  match es with
  | [] => None
  | (n, ch) :: es' => if String.eqb n name then Some ch else lookup_entry name es'
  end.

Fixpoint set_entry (name : string) (ch : node) (es : list (string * node))
  : list (string * node) :=
  match es with
  | [] => [(name, ch)]
  | (n, old) :: es' =>
      if String.eqb n name then (n, ch) :: es' else (n, old) :: set_entry name ch es'
  end.

Fixpoint resolve (n : node) (cs : list string) : option node :=
  match cs with
  | [] => Some n
  | c :: cs' =>
      match n with
      | Dir es =>
          match lookup_entry c es with
          | Some ch => resolve ch cs'
          | None => None
          end
      | File _ => None
      end
  end.

(** What a path names in the tree; the empty path names nothing. *)
Definition fs_lookup (fs : node) (p : string) : option node :=
  if String.eqb p "" then None else resolve fs (path_components p).

(** [os.path.isfile(p)] *)
Definition is_file (fs : node) (p : string) : bool :=
  match fs_lookup fs p with
  | Some (File _) => true
  | _ => false
  end.

(** The tree after [open(path, 'wb')] and a write of [c]: the parent must be
    a directory and the path no directory. *)
Fixpoint write_at (n : node) (cs : list string) (c : content) : option node :=
  match cs, n with
  | [], _ => None
  | [name], Dir es =>
      match lookup_entry name es with
      | Some (Dir _) => None
      | _ => Some (Dir (set_entry name (File c) es))
      end
  | name :: cs', Dir es =>
      match lookup_entry name es with
      | Some ch =>
          match write_at ch cs' c with
          | Some ch' => Some (Dir (set_entry name ch' es))
          | None => None
          end
      | None => None
      end
  | _ :: _, File _ => None
  end.

Definition fs_write (fs : node) (p : string) (c : content) : option node :=
  write_at fs (path_components p) c.

(** [open(p, 'wb')] would succeed *)
Definition writable (fs : node) (p : string) : bool :=
  match fs_write fs p COther with
  | Some _ => true
  | None => false
  end.

Arguments fs_lookup : simpl never.
Arguments fs_write : simpl never.
Arguments is_file : simpl never.

(** [os.path.join(a, b)] (posix) *)
Definition ends_with_slash (a : string) : bool :=
  match rev (list_ascii_of_string a) with
  | c :: _ => Ascii.eqb c "/"
  | [] => false
  end.

Definition os_path_join (a b : string) : string :=
  if String.prefix "/" b then b
  else if String.eqb a "" || ends_with_slash a then a +:+ b
  else a +:+ "/" +:+ b.

Arguments os_path_join : simpl never.

(** [sub in s] on strings *)
Fixpoint str_in (sub s : string) : bool :=
  String.prefix sub s
  || match s with
     | EmptyString => false
     | String _ s' => str_in sub s'
     end.

(** [os.walk(top)], the directory paths it yields ([x[0]]), top down: [top],
    then the walk of each entry of [top] that is a directory, under the path
    [join(top, name)]. *)
Fixpoint walk_dirs (top : string) (n : node) : list string :=
  match n with
  | File _ => []
  | Dir es =>
      top :: (fix go (es : list (string * node)) : list string :=
                match es with
                | [] => []
                | (name, ch) :: es' =>
                    match ch with
                    | Dir _ => walk_dirs (os_path_join top name) ch ++ go es'
                    | File _ => go es'
                    end
                end) es
  end.

(** *** Directories: [os.path.isdir], [os.makedirs] *)

(** [os.path.isdir(p)] *)
Definition is_dir (fs : node) (p : string) : bool :=
  match fs_lookup fs p with
  | Some (Dir _) => true
  | _ => false
  end.

Arguments is_dir : simpl never.

(** The [errno] of an [OSError] of [os.makedirs] *)
Inductive errno :=
  | EEXIST
  | ENOENT
  | ENOTDIR.

(** The chain of new, empty directories [c1/c2/.../ck] *)
Fixpoint new_dirs (cs : list string) : node :=
  match cs with
  | [] => Dir []
  | c :: cs' => Dir [(c, new_dirs cs')]
  end.

(** The tree after [os.makedirs] of the path [cs], or the error it raises:
    the directories missing on the way are made; the path itself must not
    exist ([EEXIST]), and nothing on the way may be a file ([ENOTDIR]). *)
Fixpoint mkdirs_at (n : node) (cs : list string) : node + errno :=
  match cs with
  | [] => inr EEXIST
  | name :: cs' =>
      match n with
      | File _ => inr ENOTDIR
      | Dir es =>
          match lookup_entry name es with
          | None => inl (Dir (set_entry name (new_dirs cs') es))
          | Some ch =>
              match mkdirs_at ch cs' with
              | inl ch' => inl (Dir (set_entry name ch' es))
              | inr e => inr e
              end
          end
      end
  end.

(** [os.makedirs(p)] for a path without ['..'] components (before such a
    component [os.makedirs] makes the directories that a lexical reading of
    the path skips); the empty path names nothing ([ENOENT]). *)
Definition os_makedirs (fs : node) (p : string) : node + errno :=
  if String.eqb p "" then inr ENOENT else mkdirs_at fs (path_components p).

(** *** Well-formed trees

    The name of an entry is a single path component, and a directory has
    no two entries of one name. *)

Definition valid_name (name : string) : bool :=
  negb (String.eqb name "") && negb (String.eqb name ".")
  && negb (String.eqb name "..")
  && forallb (fun c => negb (Ascii.eqb c "/")) (list_ascii_of_string name).



(** ** Random generators

    What the module needs of [numpy.random]: the state a [RandomState] has
    after seeding, and the next standard normal sample of a state.
    [normal(size=(k,))] takes [k] samples in a row. *)

Class NumpyRandom := {
  rng_state : Type;
  seed_state : Z -> rng_state;
  gauss : rng_state -> float * rng_state
}.

Section Program.
Context `{NumpyRandom}.

Fixpoint normal (size : nat) (s : rng_state) : vector float * rng_state :=
  match size with
  | O => ([], s)
  | S k =>
      let '(x, s1) := gauss s in
      let '(xs, s2) := normal k s1 in
      (x :: xs, s2)
  end.

(** ** The world: the store of objects, the default generator of
    [np.random], the file system and standard output *)

Record world := {
  w_dicts : gmap loc (gmap string pyval);
  w_rngs : gmap loc rng_state;
  w_global_rng : rng_state;
  w_fs : node;
  w_out : list string
}.

Definition M (A : Type) : Type := world -> result A * world.

Definition ret {A} (a : A) : M A := fun w => (Ok a, w).

(** An exception ends the computation and keeps the world it was raised
    in. *)
Definition bind {A B} (m : M A) (f : A -> M B) : M B := fun w =>
  match m w with
  | (Ok a, w') => f a w'
  | (Raise e, w') => (Raise e, w')
  end.

Definition raise {A} (e : exn) : M A := fun w => (Raise e, w).

Notation "'let*' x := c1 'in' c2" := (bind c1 (fun x => c2))
  (at level 10, x pattern, c1 at level 200, c2 at level 200, only parsing).

(** A reference no object of the store has *)
Definition fresh_loc (w : world) : loc := fresh (dom (w_dicts w) ∪ dom (w_rngs w)).

Definition new_dict (d : gmap string pyval) : M loc := fun w =>
  let l := fresh_loc w in
  (Ok l, {| w_dicts := <[l := d]> (w_dicts w); w_rngs := w_rngs w;
            w_global_rng := w_global_rng w; w_fs := w_fs w; w_out := w_out w |}).

Definition read_dict (l : loc) : M (gmap string pyval) := fun w =>
  match w_dicts w !! l with
  | Some d => (Ok d, w)
  | None => (Raise TypeError, w)
  end.

Definition write_dict (l : loc) (d : gmap string pyval) : M unit := fun w =>
  (Ok tt, {| w_dicts := <[l := d]> (w_dicts w); w_rngs := w_rngs w;
             w_global_rng := w_global_rng w; w_fs := w_fs w; w_out := w_out w |}).

(** [d.copy()] *)
Definition dict_copy (l : loc) : M loc := let* d := read_dict l in new_dict d.

(** [d.pop(key)] *)
Definition dict_pop (l : loc) (key : string) : M pyval :=
  let* d := read_dict l in
  match d !! key with
  | Some v => let* _ := write_dict l (delete key d) in ret v
  | None => raise (KeyError key)
  end.

(** [d[key] = v] *)
Definition dict_setitem (l : loc) (key : string) (v : pyval) : M unit :=
  let* d := read_dict l in write_dict l (<[key := v]> d).

(** [o[key]] where [o] is a dict or [None] *)
Definition getitem (o : option loc) (key : string) : M pyval :=
  match o with
  | None => raise TypeError
  | Some l =>
      let* d := read_dict l in
      match d !! key with
      | Some v => ret v
      | None => raise (KeyError key)
      end
  end.

(** [d.items()] *)
Definition dict_items (l : loc) : M (list (string * pyval)) :=
  let* d := read_dict l in ret (map_to_list d).

(** [np.random.RandomState(seed)] for [seed] the value of an expression:
    the seed must be an integer from 0 to 2**32 - 1. *)
Definition RandomState (seed : pyval) : M loc :=
  match seed with
  | VInt z =>
      if (0 <=? z) && (z <? 2 ^ 32) then
        fun w =>
          let l := fresh_loc w in
          (Ok l, {| w_dicts := w_dicts w; w_rngs := <[l := seed_state z]> (w_rngs w);
                    w_global_rng := w_global_rng w; w_fs := w_fs w; w_out := w_out w |})
      else raise ValueError
  | _ => raise TypeError
  end.

(** [v + 1000] *)
Definition py_add_1000 (v : pyval) : M pyval :=
  match v with
  | VInt z => ret (VInt (z + 1000))
  | VBool b => ret (VInt (Z.b2z b + 1000))
  | VFloat f => ret (VFloat (f + 1000)%float)
  | _ => raise TypeError
  end.

(** [print(line)] *)
Definition print (line : string) : M unit := fun w =>
  (Ok tt, {| w_dicts := w_dicts w; w_rngs := w_rngs w;
             w_global_rng := w_global_rng w; w_fs := w_fs w; w_out := w_out w ++ [line] |}).

(** *** Files *)

Definition os_path_isfile (p : string) : M bool := fun w =>
  (Ok (is_file (w_fs w) p), w).

(** [os.listdir(p)]: the names of the entries of a directory; [OSError]
    when [p] names none (the empty path does not) *)
Definition os_listdir (p : string) : M (list string) := fun w =>
  match fs_lookup (w_fs w) p with
  | Some (Dir es) => (Ok (map fst es), w)
  | _ => (Raise OSError, w)
  end.

(** [os.walk(top)], its directory paths; nothing when [top] is no
    directory, as for the empty path ([os.listdir] fails there, and
    [os.walk] drops the error). *)
Definition os_walk (top : string) : M (list string) := fun w =>
  (Ok match fs_lookup (w_fs w) top with
      | Some n => walk_dirs top n
      | None => []
      end, w).

(** [open(p, 'rb')] and a read of the whole file *)
Definition read_file (p : string) : M content := fun w =>
  match fs_lookup (w_fs w) p with
  | Some (File c) => (Ok c, w)
  | _ => (Raise IOError, w)
  end.

(** [open(p, 'wb')] leaves an empty file; a later write replaces what the
    file holds. *)
Definition write_file (p : string) (c : content) : M unit := fun w =>
  match fs_write (w_fs w) p c with
  | Some fs' =>
      (Ok tt, {| w_dicts := w_dicts w; w_rngs := w_rngs w;
                 w_global_rng := w_global_rng w; w_fs := fs'; w_out := w_out w |})
  | None => (Raise IOError, w)
  end.

Definition open_wb (p : string) : M string := let* _ := write_file p COther in ret p.

(** [json.dump(d, f)]: when a value is not serializable the text written
    so far stays in the file, which is then no JSON document. *)
Definition json_dump (l : loc) (f : string) : M unit :=
  let* d := read_dict l in
  match dict_to_json d with
  | Some o => write_file f (CJsonObject o)
  | None => raise TypeError
  end.

(** [json.load(f)]: a fresh dict for an object, [None] here for any other
    document (every use subscripts the result with a string, a
    [TypeError] on a list, string, number or null). *)
Definition json_load (c : content) : M (option loc) :=
  match c with
  | CJsonObject o => let* l := new_dict (dict_of_json o) in ret (Some l)
  | CJsonOther _ => ret None
  | _ => raise ValueError
  end.

(** [pickle.load(f)] of a log file *)
Definition pickle_load (c : content) : M (option loc) :=
  match c with
  | CPickleDict d => let* l := new_dict (dict_of_json d) in ret (Some l)
  | _ => raise UnpicklingError
  end.

(** ** The functions of [tools.py] *)

(** [_contain_model_file(model_dir)] (lines 37-42) *)
Definition _contain_model_file (model_dir : string) : M bool :=
  let* names := os_listdir model_dir in
  ret (existsb (str_in "model.ckpt") names).

(** [valid_model_dirs(model_dir)] (lines 45-47) *)
Fixpoint filter_model_dirs (dirs : list string) : M (list string) :=
  match dirs with
  | [] => ret ([] : list string)
  | d :: rest =>
      let* b := _contain_model_file d in
      let* ds := filter_model_dirs rest in
      ret (if b then d :: ds else ds)
  end.

Definition valid_model_dirs (model_dir : string) : M (list string) :=
  let* dirs := os_walk model_dir in filter_model_dirs dirs.

(** [load_log(train_dir)] (lines 50-58) *)
Definition load_log (train_dir : string) : M (option loc) :=
  let fname := os_path_join train_dir "log.pkl" in
  let* isf := os_path_isfile fname in
  if negb isf then ret None
  else
    let* c := read_file fname in
    pickle_load c.

(** [load_hparams(save_dir)] (lines 69-81) *)
Definition load_hparams (save_dir : string) : M (option loc) :=
  let fname := os_path_join save_dir "hparams.json" in
  let* isf := os_path_isfile fname in
  if negb isf then ret None
  else
    let* c := read_file fname in
    let* hparams := json_load c in
    let* seed := getitem hparams "seed" in
    let* seed1000 := py_add_1000 seed in
    let* rng := RandomState seed1000 in
    match hparams with
    | Some l => let* _ := dict_setitem l "rng" (VRng rng) in ret (Some l)
    | None => raise TypeError
    end.

(** [save_hparams(hparams, save_dir)] (lines 84-89) *)
Definition save_hparams (hparams : loc) (save_dir : string) : M unit :=
  let* hparams_copy := dict_copy hparams in
  let* _ := dict_pop hparams_copy "rng" in
  let* f := open_wb (os_path_join save_dir "hparams.json") in
  json_dump hparams_copy f.

(** [all(hp[key] == val for key, val in hp_target.items())]: stops at the
    first pair that differs. *)
Fixpoint all_match (hp : option loc) (items : list (string * pyval)) : M bool :=
  match items with
  | [] => ret true
  | (key, val) :: rest =>
      let* v := getitem hp key in
      if py_eq v val then all_match hp rest else ret false
  end.

(** [find_all_models(root_dir, hp_target)] (lines 92-113) *)
Fixpoint find_all_models_loop (hp_target : loc) (dirs : list string)
         (model_dirs : list string) (hps : list (option loc))
  : M (list string * list (option loc)) :=
  match dirs with
  | [] => ret (model_dirs, hps)
  | d :: rest =>
      let* hp := load_hparams d in
      let* items := dict_items hp_target in
      let* ok := all_match hp items in
      if ok then find_all_models_loop hp_target rest (model_dirs ++ [d]) (hps ++ [hp])
      else find_all_models_loop hp_target rest model_dirs hps
  end.

Definition find_all_models (root_dir : string) (hp_target : loc)
  : M (list string * list (option loc)) :=
  let* dirs := valid_model_dirs root_dir in
  find_all_models_loop hp_target dirs [] [].

(** [seq[-1]] *)
Definition py_last (v : pyval) : M pyval :=
  match v with
  | VList l =>
      match last l with
      | Some x => ret x
      | None => raise IndexError
      end
  | VStr s =>
      match last (list_ascii_of_string s) with
      | Some c => ret (VStr (String c ""))
      | None => raise IndexError
      end
  | _ => raise TypeError
  end.

(** [find_model(root_dir, hp_target)] (lines 116-142) *)
Definition find_model (root_dir : string) (hp_target : loc)
  : M (option string * option loc) :=
  let* (model_dirs, hps) := find_all_models root_dir hp_target in
  match model_dirs, hps with
  | [], _ => let* _ := print "Model not found" in ret (None, None)
  | d :: _, [] => raise IndexError
  | d :: _, hp :: _ =>
      let* log := load_log d in
      let* perf_min := getitem log "perf_min" in
      let* perf := py_last perf_min in
      let* target_perf := getitem hp "target_perf" in
      let* _ := (if py_lt perf target_perf
                 then print "Warning: the network found did not reach target performance."
                 else ret tt) in
      ret (Some d, hp)
  end.

(** [gen_ortho_matrix(dim, rng=None)] (lines 159-178) *)

(** [np.random.normal(size=(k,))] *)
Definition np_random_normal (k : nat) : M (vector float) := fun w =>
  let '(x, s) := normal k (w_global_rng w) in
  (Ok x, {| w_dicts := w_dicts w; w_rngs := w_rngs w;
            w_global_rng := s; w_fs := w_fs w; w_out := w_out w |}).

(** [rng.normal(size=(k,))] *)
Definition rng_normal (rng : loc) (k : nat) : M (vector float) := fun w =>
  match w_rngs w !! rng with
  | Some s0 =>
      let '(x, s) := normal k s0 in
      (Ok x, {| w_dicts := w_dicts w; w_rngs := <[rng := s]> (w_rngs w);
                w_global_rng := w_global_rng w; w_fs := w_fs w; w_out := w_out w |})
  | None => (Raise TypeError, w)
  end.

Fixpoint gen_ortho_loop (dim : nat) (rng : option loc) (ns : list nat)
         (Hm : matrix float) : M (matrix float) :=
  match ns with
  | [] => ret Hm
  | n :: rest =>
      let* x := match rng with
                | None => np_random_normal (dim - n + 1)
                | Some r => rng_normal r (dim - n + 1)
                end in
      gen_ortho_loop dim rng rest (householder_step dim n Hm x)
  end.

(** [np.eye] refuses a negative dimension; [range(1, dim)] is
    [1, ..., dim - 1]. *)
Definition gen_ortho_matrix (dim : Z) (rng : option loc) : M (matrix float) :=
  if dim <? 0 then raise ValueError
  else
    let d := Z.to_nat dim in
    gen_ortho_loop d rng (seq 1 (d - 1)) (np_eye d).
(** [save_log(log)] (lines 61-66) *)

(** [os.path.join(v, name)] for the value [v] of an expression: a value
    that is no string has no [endswith] (the [AttributeError] of Python 2
    and the [TypeError] of Python 3 are both [TypeError] here). *)
Definition py_path_join (v : pyval) (name : string) : M string :=
  match v with
  | VStr s => ret (os_path_join s name)
  | _ => raise TypeError
  end.

(** [pickle.dump(d, f)].  A mapping that holds a generator is pickled as
    well, but the files of this model have no document for a pickled
    generator: such a file is kept as bytes that are no log. *)
Definition pickle_dump (l : loc) (f : string) : M unit :=
  let* d := read_dict l in
  match dict_to_json d with
  | Some o => write_file f (CPickleDict o)
  | None => write_file f COther
  end.

Definition save_log (log : loc) : M unit :=
  let* model_dir := getitem (Some log) "train_dir" in
  let* fname := py_path_join model_dir "log.pkl" in
  let* f := open_wb fname in
  pickle_dump log f.

(** [mkdir_p(path)] (lines 145-156): the [OSError] of [os.makedirs] is
    dropped when it is [EEXIST] and the path is a directory, and raised
    again otherwise. *)
Definition mkdir_p (path : string) : M unit := fun w =>
  match os_makedirs (w_fs w) path with
  | inl fs' =>
      (Ok tt, {| w_dicts := w_dicts w; w_rngs := w_rngs w;
                 w_global_rng := w_global_rng w; w_fs := fs'; w_out := w_out w |})
  | inr EEXIST => if is_dir (w_fs w) path then (Ok tt, w) else (Raise OSError, w)
  | inr _ => (Raise OSError, w)
  end.
End Program.

(** ** Feed batches

    A 3-d array: its shape and its entries.  An entry is read by its three
    indices; [np.zeros] and slice assignment build arrays from arrays. *)

Record ndarray3 := {
  shape0 : nat;
  shape1 : nat;
  shape2 : nat;
  item : nat -> nat -> nat -> float
}.

(** The value a float64 takes when it is stored in a float32 array: the
    nearest binary32 number, ties to even. *)
Definition to_float32 (f : float) : float :=
  match Prim2SF f with
  | S754_finite s m e =>
      SF2Prim (binary_normalize 24 128 (if s then Z.neg m else Z.pos m) e s)
  | _ => f
  end.

(** [np.zeros([a, b, c], dtype=np.float32)] *)
Definition np_zeros3 (a b c : nat) : ndarray3 :=
  {| shape0 := a; shape1 := b; shape2 := c; item := fun _ _ _ => 0%float |}.

(** The position a slice bound [i] denotes in an axis of length [len]:
    counted from the end when negative, clipped to the axis. *)
Definition slice_bound (i : Z) (len : nat) : nat :=
  if i <? 0 then Z.to_nat (Z.max (i + Z.of_nat len) 0)
  else Z.to_nat (Z.min i (Z.of_nat len)).

(** [np.argmax] of a 1-d float array: the first index of the largest entry,
    a NaN counting as largest.  The scan starts from the first entry as
    [mp], moves on to each later entry that is not [<= mp], and stops at a
    NaN. *)
Fixpoint argmax_from (mp : float) (best i : nat) (l : list float) : nat :=
  match l with
  | [] => best
  | v :: l' =>
      if negb (v <=? mp)%float then
        if PrimFloat.is_nan v then i else argmax_from v i (S i) l'
      else argmax_from mp best (S i) l'
  end.

Definition result_bind {A B} (r : result A) (f : A -> result B) : result B :=
  match r with
  | Ok a => f a
  | Raise e => Raise e
  end.

Notation "'let?' x := c1 'in' c2" := (result_bind c1 (fun x => c2))
  (at level 10, x pattern, c1 at level 200, c2 at level 200, only parsing).

Definition np_argmax (l : list float) : result nat :=
  match l with
  | [] => Raise ValueError
  | v :: l' => if PrimFloat.is_nan v then Ok 0%nat else Ok (argmax_from v 0 1 l')
  end.

(** [d[key]] on the contents of a dict *)
Definition dict_get (d : gmap string pyval) (key : string) : result pyval :=
  match d !! key with
  | Some v => Ok v
  | None => Raise (KeyError key)
  end.

(** A value used as an integer (a shape entry, a slice bound) *)
Definition as_int (v : pyval) : result Z :=
  match v with
  | VInt z => Ok z
  | VBool b => Ok (Z.b2z b)
  | _ => Raise TypeError
  end.

(** [np.argmax(x[0, i, rule_start:])] (line 25): the rule of sample [i] *)
Definition active_rule (x : ndarray3) (rule_start : Z) (i : nat) : result nat :=
  let lo := slice_bound rule_start (shape2 x) in
  np_argmax (map (fun j => item x 0 i (lo + j)%nat) (seq 0 (shape2 x - lo))).

Section FeedDict.
(** The arrays [trial.y] and [trial.c_mask] are handed on as they are. *)
Variables Y C : Type.

Record Trial := {
  trial_x : ndarray3;
  trial_y : Y;
  trial_c_mask : C
}.

(** The feed dict, by the placeholder [model.x], [model.y],
    [model.c_mask] of each entry. *)
Record FeedDict := {
  feed_x : ndarray3;
  feed_y : Y;
  feed_c_mask : C
}.

(** [x[:, i, a:b] = src[:, i, :r]] (lines 27-28): the slices must have one
    width, or the source width 1, which is then repeated. *)
Definition assign_block (x src : ndarray3) (i : nat) (a b r : Z) : result ndarray3 :=
  let lo := slice_bound a (shape2 x) in
  let hi := slice_bound b (shape2 x) in
  let lw := (hi - lo)%nat in
  let rw := slice_bound r (shape2 src) in
  if Nat.eqb rw lw || Nat.eqb rw 1 then
    Ok {| shape0 := shape0 x; shape1 := shape1 x; shape2 := shape2 x;
          item := fun t b' j =>
            if Nat.eqb b' i && Nat.leb lo j && Nat.ltb j (lo + lw)
            then to_float32 (item src t i (if Nat.eqb rw lw then j - lo else 0)%nat)
            else item x t b' j |}
  else Raise ValueError.

(** The loop of lines 24-28 over the samples [is] *)
Fixpoint multi_loop (tx : ndarray3) (rule_start : Z) (x : ndarray3) (samples : list nat)
  : result ndarray3 :=
  match samples with
  | [] => Ok x
  | i :: rest =>
      if Nat.eqb (shape0 tx) 0 then Raise IndexError
      else
        let? ind_rule := active_rule tx rule_start i in
        let i_start := Z.of_nat ind_rule * rule_start in
        let? x' := assign_block x tx i i_start (i_start + rule_start) rule_start in
        multi_loop tx rule_start x' rest
  end.

(** [gen_feed_dict(model, trial, hparams)] (lines 11-34) *)
Definition gen_feed_dict (trial : Trial) (hparams : gmap string pyval) : result FeedDict :=
  let? in_type := dict_get hparams "in_type" in
  if py_eq in_type (VStr "normal") then
    Ok {| feed_x := trial_x trial; feed_y := trial_y trial;
          feed_c_mask := trial_c_mask trial |}
  else if py_eq in_type (VStr "multi") then
    let n_time := shape0 (trial_x trial) in
    let batch_size := shape1 (trial_x trial) in
    let? rs := dict_get hparams "rule_start" in
    let? nr := dict_get hparams "n_rule" in
    let? rule_start := as_int rs in
    let? n_rule := as_int nr in
    if rule_start * n_rule <? 0 then Raise ValueError
    else
      let x := np_zeros3 n_time batch_size (Z.to_nat (rule_start * n_rule)) in
      let? x' := multi_loop (trial_x trial) rule_start x (seq 0 batch_size) in
      Ok {| feed_x := x'; feed_y := trial_y trial; feed_c_mask := trial_c_mask trial |}
  else Raise (UnboundLocalError "feed_dict").
End FeedDict.

Arguments trial_x {Y C} _.
Arguments trial_y {Y C} _.
Arguments trial_c_mask {Y C} _.
Arguments feed_x {Y C} _.
Arguments feed_y {Y C} _.
Arguments feed_c_mask {Y C} _.
Arguments gen_feed_dict {Y C} trial hparams.

(** ** Vocabulary of the properties *)

(** The JSON object the file [hparams.json] of directory [d] holds *)
Definition stored_hparams (fs : node) (d : string) : option (gmap string json) :=
  match fs_lookup fs (os_path_join d "hparams.json") with
  | Some (File (CJsonObject o)) => Some o
  | _ => None
  end.

(** The pickled mapping the file [log.pkl] of directory [d] holds *)
Definition stored_log (fs : node) (d : string) : option (gmap string json) :=
  match fs_lookup fs (os_path_join d "log.pkl") with
  | Some (File (CPickleDict p)) => Some p
  | _ => None
  end.

(** [hp] has every key of [target], with a value [==] to the target's *)
Definition agrees_on (hp target : gmap string pyval) : bool :=
  forallb (fun kv => match hp !! fst kv with
                     | Some v => py_eq v (snd kv)
                     | None => false
                     end)
          (map_to_list target).

(** A directory's stored hyperparameters agree with the target *)
Definition stored_agrees (fs : node) (target : gmap string pyval) (d : string) : bool :=
  match stored_hparams fs d with
  | Some o => agrees_on (dict_of_json o) target
  | None => false
  end.

(** What the directories named in a result were loaded as: each returned
    mapping holds the stored fields and a generator. *)
Definition loaded_from (fs : node) (dicts : gmap loc (gmap string pyval))
           (d : string) (hp : option loc) : Prop :=
  exists l o r, hp = Some l /\ stored_hparams fs d = Some o
                /\ dicts !! l = Some (<["rng" := VRng r]> (dict_of_json o)).

(** A value without a NaN in it: [v == v] holds of such values, and of no
    float NaN. *)
Fixpoint nan_free (v : pyval) : bool :=
  match v with
  | VFloat f => negb (PrimFloat.is_nan f)
  | VList l =>
      (fix go (l : list pyval) : bool :=
         match l with
         | [] => true
         | u :: l' => nan_free u && go l'
         end) l
  | _ => true
  end.

(** A directory whose [hparams.json] loads and has every key of the target *)
Definition loadable_for (fs : node) (t : gmap string pyval) (d : string) : Prop :=
  exists o s, stored_hparams fs d = Some o /\ o !! "seed" = Some (JInt s)
              /\ 0 <= s + 1000 < 2 ^ 32
              /\ forall k, is_Some (t !! k) -> is_Some (o !! k).

(** The entry [(t, i, j)] the 'multi' encoding gives a sample whose rule
    is [a]: the input of the sample in the block of width [R] at [a*R],
    stored as float32, and zero elsewhere *)
Definition multi_item (tx : ndarray3) (R : nat) (a : nat -> nat) (t i j : nat) : float :=
  if Nat.leb (a i * R) j && Nat.ltb j (a i * R + R)
  then to_float32 (item tx t i (j - a i * R))
  else 0%float.

(** Computations that write no file *)
Definition keeps_fs `{NumpyRandom} {A} (m : M A) : Prop :=
  forall w, w_fs (snd (m w)) = w_fs w.

(** The samples up to [k] are encoded, the others still zero. *)
Definition encoded_up_to (tx : ndarray3) (R Cn : nat) (a : nat -> nat) (k : nat)
           (x : ndarray3) : Prop :=
  shape0 x = shape0 tx /\ shape1 x = shape1 tx /\ shape2 x = (R * Cn)%nat
  /\ forall t i j, item x t i j = if Nat.ltb i k then multi_item tx R a t i j else 0%float.

(** A list or a string with at least one element *)
Definition json_nonempty_seq (j : json) : bool :=
  match j with
  | JList (_ :: _) => true
  | JStr (String _ _) => true
  | _ => false
  end.

(** The state of the generator a call of [gen_ortho_matrix] draws from: the
    default generator when [rng] is [None] *)
Definition gen_state `{NumpyRandom} (rng : option loc) (w : world) : option rng_state :=
  match rng with
  | None => Some (w_global_rng w)
  | Some r => w_rngs w !! r
  end.

(** The vectors [normal] gives for the steps [ns] of dimension [dim], from
    state [s], and the state after them *)
Fixpoint draw_seq `{NumpyRandom} (dim : nat) (ns : list nat) (s : rng_state)
  : list (vector float) * rng_state :=
  match ns with
  | [] => ([], s)
  | n :: rest =>
      let '(x, s1) := normal (dim - n + 1) s in
      let '(xs, s2) := draw_seq dim rest s1 in
      (x :: xs, s2)
  end.

(** *** Exact arithmetic *)

(** Finite sums of reals: [f 0 + ... + f (n - 1)] *)
Fixpoint rsum (f : nat -> R) (n : nat) : R :=
  match n with
  | O => 0%R
  | S k => (rsum f k + f k)%R
  end.

(** The entries of an identity matrix *)
Definition kron (i j : nat) : R := if Nat.eqb i j then 1%R else 0%R.

(** A list of [r] rows of [c] entries *)
Definition has_shape (r c : nat) (M : matrix R) : Prop :=
  length M = r /\ Forall (fun row => length row = c) M.

(** [M] is [n] by [n] and [M . M^T] is the identity: the rows have unit
    length and are orthogonal to each other. *)
Definition orthonormal (n : nat) (M : matrix R) : Prop :=
  has_shape n n M
  /\ forall i j, (i < n)%nat -> (j < n)%nat ->
                 rsum (fun k => (mget M i k * mget M j k)%R) n = kron i j.

(** The block of line 174 for a sign [c], a vector [v] of length [k] and
    [s] the sum of its squares: [c*(np.eye(k) - 2.*np.outer(v, v)/s)] *)
Definition reflect (c : R) (k : nat) (v : vector R) (s : R) : matrix R :=
  mscale c (msub (np_eye k) (mdiv (mscale s_two (np_outer v v)) s)).

(** The vectors fit the steps from [n] on: each has [dim - n + 1] entries
    and a first entry that is not zero. *)
Fixpoint draws_fit (dim n : nat) (draws : list (vector R)) : Prop :=
  match draws with
  | [] => True
  | x :: rest =>
      (1 <= n < dim)%nat /\ length x = (dim - n + 1)%nat /\ hd 0%R x <> 0%R
      /\ draws_fit dim (S n) rest
  end.

(** *** Paths and trees *)

(** The components of a path before its last one, and the last one (the
    text after the last ['/']), as [split_path] finds them *)
Fixpoint split_path_init (p cur : string) : list string :=
  match p with
  | EmptyString => []
  | String c p' =>
      if Ascii.eqb c "/" then cur :: split_path_init p' ""
      else split_path_init p' (cur +:+ String c "")
  end.

Fixpoint split_path_last (p cur : string) : string :=
  match p with
  | EmptyString => cur
  | String c p' =>
      if Ascii.eqb c "/" then split_path_last p' ""
      else split_path_last p' (cur +:+ String c "")
  end.

(** The step of [path_components] at one component *)
Definition norm_step (st : list string) (c : string) : list string :=
  if String.eqb c "" || String.eqb c "." then st
  else if String.eqb c ".." then tail st
  else c :: st.

(** A path without a ['..'] component *)
Definition plain_path (p : string) : bool :=
  forallb (fun c => negb (String.eqb c "..")) (split_path p "").

(** A file lies on the path [cs] from [n]: at [n] itself, or at a node the
    path goes through or ends in. *)
Fixpoint file_on_path (n : node) (cs : list string) : bool :=
  match n with
  | File _ => true
  | Dir es =>
      match cs with
      | [] => false
      | c :: cs' =>
          match lookup_entry c es with
          | Some ch => file_on_path ch cs'
          | None => false
          end
      end
  end.


(** Two nodes of one kind: directories, or files of one content *)
Definition same_kind (m m' : node) : Prop :=
  match m, m' with
  | File c, File c' => c = c'
  | Dir _, Dir _ => True
  | _, _ => False
  end.

(** Computations that leave the file [q] with the content [c] it has *)
Definition keeps_file `{NumpyRandom} {A} (q : string) (c : content) (m : M A) : Prop :=
  forall w, fs_lookup (w_fs w) q = Some (File c) ->
            fs_lookup (w_fs (snd (m w))) q = Some (File c).


(** The world [w'] has every object of [w] as it was, and maybe new ones;
    the files, the output and the default generator are those of [w]. *)
Definition extends `{NumpyRandom} (w w' : world) : Prop :=
  w_dicts w ⊆ w_dicts w' /\ w_rngs w ⊆ w_rngs w'
  /\ w_global_rng w' = w_global_rng w /\ w_fs w' = w_fs w /\ w_out w' = w_out w.

(** What [find_all_models] returns with a directory [d] it keeps: a mapping
    of the store that holds the fields stored in [d/hparams.json] and a
    generator, and agrees with the target [t] *)
Definition loaded_agreeing (fs : node) (dicts : gmap loc (gmap string pyval))
           (t : gmap string pyval) (d : string) (hp : option loc) : Prop :=
  exists l o r, hp = Some l /\ stored_hparams fs d = Some o
                /\ dicts !! l = Some (<["rng" := VRng r]> (dict_of_json o))
                /\ agrees_on (<["rng" := VRng r]> (dict_of_json o)) t = true.

(** What [load_hparams] returned for the directory [d]: [None] when it has
    no file [hparams.json], and else a mapping of the store with the stored
    fields and a generator *)
Definition loaded_or_None (fs : node) (dicts : gmap loc (gmap string pyval))
           (d : string) (hp : option loc) : Prop :=
  match hp with
  | None => is_file fs (os_path_join d "hparams.json") = false
  | Some l => exists o r, stored_hparams fs d = Some o
                          /\ dicts !! l = Some (<["rng" := VRng r]> (dict_of_json o))
  end.

(** The vectors fit the steps from [n >= 1] on: the one of step [m] has
    [dim - m + 1] entries. *)
Fixpoint draws_sized (dim n : nat) (draws : list (vector float)) : Prop :=
  match draws with
  | [] => True
  | x :: rest => (1 <= n)%nat /\ length x = (dim - n + 1)%nat /\ draws_sized dim (S n) rest
  end.

(** The number of samples the steps [n, ..., n + k - 1] take *)
Fixpoint samples_of (dim n k : nat) : nat :=
  match k with
  | O => O
  | S k' => ((dim - n + 1) + samples_of dim (S n) k')%nat
  end.

(** Between [w] and [w'] nothing happened but draws from the generator
    [rng] (the default generator for [None]). *)
Definition only_draws `{NumpyRandom} (rng : option loc) (w w' : world) : Prop :=
  w_dicts w' = w_dicts w /\ w_fs w' = w_fs w /\ w_out w' = w_out w
  /\ match rng with
     | None => w_rngs w' = w_rngs w
     | Some r => w_global_rng w' = w_global_rng w
                 /\ forall r', r' <> r -> w_rngs w' !! r' = w_rngs w !! r'
     end.

(** ** Examples *)

(** A generator for examples: its state is the list of the samples it
    will give, in order (zeros once the list is used up); seeding with [z]
    gives the one-sample list [z]. *)
Definition scripted_random : NumpyRandom := {|
  rng_state := list float;
  seed_state := fun z => [PrimFloat.of_uint63 (Uint63.of_Z z)];
  gauss := fun s => (hd 0%float s, tail s)
|}.

Definition scripted_world (fs : node) (dicts : gmap loc (gmap string pyval))
           (rngs : gmap loc (@rng_state scripted_random)) : @world scripted_random :=
  {| w_dicts := dicts; w_rngs := rngs; w_global_rng := ([] : @rng_state scripted_random);
     w_fs := fs; w_out := [] |}.

(** A tree with three model directories, [runs/a] (without a log), [runs/c]
    (whose log reaches the target performance) and [runs/d] (whose log does
    not), and a directory [runs/b] without a checkpoint *)
Definition example_tree : node :=
  Dir [("runs",
        Dir [("a", Dir [("model.ckpt-100.index", File COther);
                        ("hparams.json",
                         File (CJsonObject {[ "seed" := JInt 3; "n_rnn" := JInt 256 ]}))]);
             ("b", Dir [("notes.txt", File COther)]);
             ("c", Dir [("model.ckpt-200.index", File COther);
                        ("hparams.json",
                         File (CJsonObject {[ "seed" := JInt 4; "n_rnn" := JInt 256;
                                              "target_perf" := JFloat 0.5 ]}));
                        ("log.pkl",
                         File (CPickleDict
                                 {[ "train_dir" := JStr "runs/c";
                                    "perf_min" := JList [JFloat 0.25; JFloat 0.75] ]}))]);
             ("d", Dir [("model.ckpt-50.index", File COther);
                        ("hparams.json",
                         File (CJsonObject {[ "seed" := JInt 6; "target_perf" := JFloat 0.5 ]}));
                        ("log.pkl",
                         File (CPickleDict {[ "perf_min" := JList [JFloat 0.25] ]}))])])].

(** A hyperparameter mapping *)
Definition example_hp : gmap string pyval :=
  {[ "rng" := VRng 2; "seed" := VInt 5; "alpha" := VFloat 0.5;
     "rule_trains" := VList [VStr "fdgo"; VStr "delaygo"] ]}.

(** A world whose only object is a target mapping, at reference 1 *)
Definition target_world (t : gmap string pyval) : @world scripted_random :=
  scripted_world example_tree {[ 1%positive := t ]} ∅.

(** A world with the mapping [example_hp] (at reference 1) and its
    generator (at reference 2), over the example tree *)
Definition example_world : @world scripted_random :=
  scripted_world example_tree {[ 1%positive := example_hp ]} {[ 2%positive := [0; 1]%float ]}.

(** A trial of two time steps and two samples, of width four: two input
    components and a one-hot rule indicator of width two *)
Definition example_trial : Trial unit unit :=
  {| trial_x := {| shape0 := 2; shape1 := 2; shape2 := 4;
                   item := fun t i j =>
                     nth j (nth i (nth t [[[0.5; 0.25; 0; 1]; [1.5; 2; 1; 0]];
                                          [[3; 4; 0; 1]; [5; 6; 1; 0]]]%float [])
                                  [])
                         0%float |};
     trial_y := tt; trial_c_mask := tt |}.

(** A trial of zeros *)
Definition zeros_trial : Trial unit unit :=
  {| trial_x := np_zeros3 2 1 3; trial_y := tt; trial_c_mask := tt |}.

Definition example_multi_hp : gmap string pyval :=
  {[ "in_type" := VStr "multi"; "rule_start" := VInt 2; "n_rule" := VInt 2 ]}.

(** A log of plain data for the directory [runs/b], and a world whose only
    object it is, at reference 1 *)
Definition example_log : gmap string pyval :=
  {[ "train_dir" := VStr "runs/b"; "perf_min" := VList [VFloat 0.5; VFloat 0.75] ]}.

Definition log_world : @world scripted_random :=
  scripted_world example_tree {[ 1%positive := example_log ]} ∅.

(** * Properties *)

(** ** Sanity checks of the model on small inputs *)

Example resolve_example :
  resolve example_tree (path_components "runs/./a/../a/hparams.json")
  = Some (File (CJsonObject {[ "seed" := JInt 3; "n_rnn" := JInt 256 ]})).
Proof. reflexivity. Qed.

Example walk_example :
  walk_dirs "runs" (Dir [("a", Dir []); ("f", File COther); ("b", Dir [("c", Dir [])])])
  = ["runs"; "runs/a"; "runs/b"; "runs/b/c"].
Proof. reflexivity. Qed.

(** The empty path names nothing. *)
Example empty_path_examples :
  is_file example_tree "" = false /\ is_dir example_tree "" = false
  /\ fst (os_listdir "" example_world) = Raise OSError
  /\ fst (valid_model_dirs "" example_world) = Ok []
  /\ fst (valid_model_dirs "." example_world) = Ok ["./runs/a"; "./runs/c"; "./runs/d"]
  /\ fst (mkdir_p "" example_world) = Raise OSError.
Proof. vm_compute. repeat split. Qed.

Example join_examples :
  os_path_join "runs/a" "log.pkl" = "runs/a/log.pkl"
  /\ os_path_join "runs/a/" "log.pkl" = "runs/a/log.pkl"
  /\ os_path_join "" "log.pkl" = "log.pkl".
Proof. repeat split. Qed.

Example dot_identity : np_dot (np_eye 2) [[1; 2]; [3; 4]]%float = [[1; 2]; [3; 4]]%float.
Proof. reflexivity. Qed.

Example set_block_example :
  set_block (np_eye 3) 1 [[5; 6]; [7; 8]]%float = [[1; 0; 0]; [0; 5; 6]; [0; 7; 8]]%float.
Proof. reflexivity. Qed.

Example argmax_examples :
  np_argmax [0; 1; 1]%float = Ok 1%nat
  /\ np_argmax [2; nan; 5]%float = Ok 1%nat
  /\ np_argmax [] = Raise ValueError.
Proof. repeat split. Qed.

Example float32_examples :
  to_float32 1%float = 1%float /\ to_float32 0.5%float = 0.5%float
  /\ to_float32 0x1.0000001p0%float = 1%float.
Proof. repeat split. Qed.

Example py_eq_examples :
  py_eq (VInt 1) (VFloat 1) = true /\ py_eq (VBool true) (VInt 1) = true
  /\ py_eq (VFloat nan) (VFloat nan) = false /\ py_eq (VStr "multi") (VStr "multi") = true
  /\ py_eq (VList [VInt 1; VStr "a"]) (VList [VInt 1; VStr "a"]) = true.
Proof. repeat split. Qed.

(** A model directory without [hparams.json]: [load_hparams] gives [None],
    which line 109 subscripts unless the target is empty. *)
Example find_all_models_without_hparams :
  let fs := Dir [("m", Dir [("model.ckpt", File COther)])] in
  fst (find_all_models "m" 1%positive
         (scripted_world fs {[ 1%positive := {[ "seed" := VInt 3 ]} ]} ∅))
  = Raise TypeError
  /\ fst (find_all_models "m" 1%positive (scripted_world fs {[ 1%positive := ∅ ]} ∅))
     = Ok (["m"], [None]).
Proof. vm_compute. split; reflexivity. Qed.

(** [save_hparams] raises [KeyError] without an ['rng'] field, [TypeError]
    for a second generator, [IOError] when the directory is missing. *)
Example save_hparams_errors :
  fst (save_hparams 1%positive "runs/b"
         (scripted_world example_tree {[ 1%positive := {[ "seed" := VInt 3 ]} ]} ∅))
  = Raise (KeyError "rng")
  /\ fst (save_hparams 1%positive "runs/b"
            (scripted_world example_tree
               {[ 1%positive := {[ "rng" := VRng 2; "rng2" := VRng 2 ]} ]} ∅))
     = Raise TypeError
  /\ fst (save_hparams 1%positive "runs/nowhere" example_world) = Raise IOError.
Proof. vm_compute. repeat split; reflexivity. Qed.

(** ** JSON documents give back the values they were written from *)

Lemma of_json_to_json : forall v j, to_json v = Some j -> of_json j = v.
Proof.
  fix IH 1.
  intros [ | b | z | f | s | l | r] j Hj; simpl in Hj;
    try (inversion Hj; subst; reflexivity); try discriminate.
  match type of Hj with option_map _ ?g = _ => destruct g as [js|] eqn:E end;
    simpl in Hj; inversion Hj; subst; clear Hj.
  simpl. f_equal. revert js E.
  induction l as [|v l IHl]; intros js E.
  - inversion E. reflexivity.
  - destruct (to_json v) as [jv|] eqn:Ev; [|discriminate].
    match type of E with match ?g with _ => _ end = _ => destruct g as [js'|] eqn:El end;
      inversion E; subst.
    simpl. f_equal; [apply IH; exact Ev | apply IHl; reflexivity].
Qed.

Lemma dict_to_json_Some (d : gmap string pyval) (o : gmap string json) :
  dict_to_json d = Some o -> dict_of_json o = d.
Proof.
  unfold dict_to_json, dict_of_json. case_bool_decide as Hall; [|discriminate].
  intros [= <-]. apply map_eq. intros k.
  rewrite lookup_fmap, lookup_omap.
  destruct (d !! k) as [v|] eqn:Hk; simpl; [|reflexivity].
  destruct (Hall k v Hk) as [j Hj]. rewrite Hj. simpl.
  f_equal. apply of_json_to_json, Hj.
Qed.

Lemma dict_to_json_lookup (d : gmap string pyval) (o : gmap string json) k :
  dict_to_json d = Some o -> o !! k = d !! k ≫= to_json.
Proof.
  unfold dict_to_json. case_bool_decide; [|discriminate].
  intros [= <-]. apply lookup_omap.
Qed.

(** ** Files: what was written is what is read *)

Lemma append_nil_l (b : string) : "" +:+ b = b.
Proof. reflexivity. Qed.

Lemma append_cons (c : ascii) (a b : string) : String c a +:+ b = String c (a +:+ b).
Proof. reflexivity. Qed.

Lemma append_nonempty (a b : string) : b <> "" -> a +:+ b <> "".
Proof.
  intros Hb. destruct a as [|c a]; [rewrite append_nil_l; exact Hb|].
  rewrite append_cons. discriminate.
Qed.

(** A join with a name is never the empty path. *)
Lemma os_path_join_nonempty (a b : string) : b <> "" -> os_path_join a b <> "".
Proof.
  intros Hb. unfold os_path_join.
  destruct (String.prefix "/" b); [exact Hb|].
  destruct (String.eqb a "" || ends_with_slash a); repeat apply append_nonempty; exact Hb.
Qed.

Lemma fs_lookup_resolve (fs : node) (p : string) :
  p <> "" -> fs_lookup fs p = resolve fs (path_components p).
Proof.
  intros Hp. unfold fs_lookup. destruct (String.eqb_spec p ""); [contradiction | reflexivity].
Qed.

Lemma fs_lookup_Some (fs : node) (p : string) (n : node) :
  fs_lookup fs p = Some n -> p <> "" /\ resolve fs (path_components p) = Some n.
Proof.
  unfold fs_lookup. destruct (String.eqb_spec p ""); [discriminate | auto].
Qed.

Lemma fs_lookup_join (fs : node) (dir name : string) :
  name <> "" ->
  fs_lookup fs (os_path_join dir name) = resolve fs (path_components (os_path_join dir name)).
Proof. intros Hn. apply fs_lookup_resolve, os_path_join_nonempty, Hn. Qed.

Lemma lookup_set_entry name ch es : lookup_entry name (set_entry name ch es) = Some ch.
Proof.
  induction es as [|[n old] es IH]; simpl.
  - rewrite String.eqb_refl. reflexivity.
  - destruct (String.eqb n name) eqn:E; simpl; rewrite E; [reflexivity | exact IH].
Qed.

Lemma write_at_deeper name name' cs es c :
  write_at (Dir es) (name :: name' :: cs) c
  = match lookup_entry name es with
    | Some ch =>
        match write_at ch (name' :: cs) c with
        | Some ch' => Some (Dir (set_entry name ch' es))
        | None => None
        end
    | None => None
    end.
Proof. reflexivity. Qed.

Lemma resolve_write_at : forall cs n c n',
  write_at n cs c = Some n' -> resolve n' cs = Some (File c).
Proof.
  induction cs as [|name cs IH]; intros n c n' Hw; [discriminate|].
  destruct n as [c0|es]; [destruct cs; discriminate|].
  destruct cs as [|name' cs'].
  - simpl in Hw. simpl.
    destruct (lookup_entry name es) as [[?|?]|]; inversion Hw; subst;
      simpl; rewrite lookup_set_entry; reflexivity.
  - rewrite write_at_deeper in Hw.
    destruct (lookup_entry name es) as [ch|]; [|discriminate].
    destruct (write_at ch (name' :: cs') c) as [ch'|] eqn:Hch; [|discriminate].
    inversion Hw; subst. cbn [resolve]. rewrite lookup_set_entry.
    apply (IH ch c ch' Hch).
Qed.

Lemma write_at_again : forall cs n c n' c',
  write_at n cs c = Some n' -> exists n'', write_at n' cs c' = Some n''.
Proof.
  induction cs as [|name cs IH]; intros n c n' c' Hw; [discriminate|].
  destruct n as [c0|es]; [destruct cs; discriminate|].
  destruct cs as [|name' cs'].
  - simpl in Hw.
    destruct (lookup_entry name es) as [[?|?]|]; inversion Hw; subst; simpl;
      rewrite lookup_set_entry; eauto.
  - rewrite write_at_deeper in Hw.
    destruct (lookup_entry name es) as [ch|]; [|discriminate].
    destruct (write_at ch (name' :: cs') c) as [ch'|] eqn:Hch; [|discriminate].
    inversion Hw; subst.
    destruct (IH ch c ch' c' Hch) as [ch'' Hch''].
    exists (Dir (set_entry name ch'' (set_entry name ch' es))).
    rewrite write_at_deeper, lookup_set_entry, Hch''. reflexivity.
Qed.

(** ** Running a computation step by step *)

Lemma bind_ok `{NumpyRandom} {A B} (m : M A) (f : A -> M B) (w w1 : world) (a : A) :
  m w = (Ok a, w1) -> bind m f w = f a w1.
Proof. intros Hm. unfold bind. rewrite Hm. reflexivity. Qed.

Lemma bind_raise `{NumpyRandom} {A B} (m : M A) (f : A -> M B) (w w1 : world) (e : exn) :
  m w = (Raise e, w1) -> bind m f w = (Raise e, w1).
Proof. intros Hm. unfold bind. rewrite Hm. reflexivity. Qed.

(** ** Loading from a directory without the file *)

(** C7: when [log.pkl] is no file of the directory, [load_log] returns
    [None]; when [hparams.json] is no file of it, [load_hparams] returns
    [None].  Neither raises, and neither changes the world. *)
Theorem load_missing_file_returns_None `{NumpyRandom} (dir : string) (w : world) :
  (is_file (w_fs w) (os_path_join dir "log.pkl") = false ->
   load_log dir w = (Ok None, w))
  /\ (is_file (w_fs w) (os_path_join dir "hparams.json") = false ->
      load_hparams dir w = (Ok None, w)).
Proof.
  split; intros Hno.
  - unfold load_log, bind, os_path_isfile. rewrite Hno. reflexivity.
  - unfold load_hparams, bind, os_path_isfile. rewrite Hno. reflexivity.
Qed.

Lemma load_missing_file_witness :
  let w := scripted_world example_tree ∅ ∅ in
  load_log "runs/b" w = (Ok None, w) /\ load_hparams "runs/b" w = (Ok None, w).
Proof.
  destruct (load_missing_file_returns_None (H := scripted_random) "runs/b"
              (scripted_world example_tree ∅ ∅)) as [Hlog Hhp].
  split; [apply Hlog | apply Hhp]; reflexivity.
Defined.

(** ** [gen_feed_dict]: the encoding modes *)

(** C9: when [hparams['in_type']] equals neither ['normal'] nor ['multi'],
    [gen_feed_dict] raises [UnboundLocalError] for [feed_dict]; and whenever
    it returns a feed dict, [in_type] is there and equals one of the two. *)
Theorem gen_feed_dict_unknown_in_type {Y C : Type} (trial : Trial Y C)
        (hparams : gmap string pyval) :
  (forall v, hparams !! "in_type" = Some v ->
             py_eq v (VStr "normal") = false ->
             py_eq v (VStr "multi") = false ->
             gen_feed_dict trial hparams = Raise (UnboundLocalError "feed_dict"))
  /\ (forall fd, gen_feed_dict trial hparams = Ok fd ->
                 exists v, hparams !! "in_type" = Some v
                           /\ (py_eq v (VStr "normal") = true
                               \/ py_eq v (VStr "multi") = true)).
Proof.
  split.
  - intros v Hv Hn Hm. unfold gen_feed_dict, dict_get. rewrite Hv. simpl.
    rewrite Hn, Hm. reflexivity.
  - intros fd. unfold gen_feed_dict, dict_get.
    destruct (hparams !! "in_type") as [v|]; simpl; [|discriminate].
    destruct (py_eq v (VStr "normal")) eqn:Hn; [eauto|].
    destruct (py_eq v (VStr "multi")) eqn:Hm; [eauto|discriminate].
Qed.

Lemma gen_feed_dict_unknown_witness :
  gen_feed_dict zeros_trial {[ "in_type" := VStr "onehot" ]}
  = Raise (UnboundLocalError "feed_dict").
Proof.
  apply (proj1 (gen_feed_dict_unknown_in_type zeros_trial {[ "in_type" := VStr "onehot" ]})
               (VStr "onehot"));
    reflexivity.
Defined.

(** ** [save_hparams] leaves the caller's mapping alone *)

Lemma fresh_loc_not_dict `{NumpyRandom} (w : world) : w_dicts w !! fresh_loc w = None.
Proof.
  apply not_elem_of_dom. intros Hin.
  apply (is_fresh (dom (w_dicts w) ∪ dom (w_rngs w))).
  apply elem_of_union_l, Hin.
Qed.

Lemma fresh_loc_not_rng `{NumpyRandom} (w : world) : w_rngs w !! fresh_loc w = None.
Proof.
  apply not_elem_of_dom. intros Hin.
  apply (is_fresh (dom (w_dicts w) ∪ dom (w_rngs w))).
  apply elem_of_union_r, Hin.
Qed.

(** C10: for a mapping [hp] of the store that has an ['rng'] field, the
    store holds the same mapping under [hp] after [save_hparams(hp, dir)],
    whether the call returns or raises: the field is popped from a copy. *)
Theorem save_hparams_keeps_argument `{NumpyRandom} (hp : loc) (dir : string)
        (w : world) (d : gmap string pyval) (v : pyval) :
  w_dicts w !! hp = Some d ->
  d !! "rng" = Some v ->
  w_dicts (snd (save_hparams hp dir w)) !! hp = Some d
  /\ w_rngs (snd (save_hparams hp dir w)) = w_rngs w.
Proof.
  intros Hd Hrng.
  assert (Hne : fresh_loc w <> hp).
  { intros E. pose proof (fresh_loc_not_dict w) as Hf. rewrite E, Hd in Hf. discriminate. }
  unfold save_hparams, dict_copy, dict_pop, open_wb, json_dump, bind, read_dict,
    new_dict, write_dict, write_file, ret, raise.
  rewrite Hd. cbn.
  rewrite lookup_insert_eq, Hrng. cbn.
  match goal with |- context [fs_write ?a ?b ?c] =>
    destruct (fs_write a b c) as [fs1|] end; cbn.
  - rewrite lookup_insert_eq.
    destruct (dict_to_json (delete "rng" d)) as [o|]; cbn.
    + match goal with |- context [fs_write ?a ?b ?c] =>
        destruct (fs_write a b c) end; cbn;
        rewrite !lookup_insert_ne by exact Hne; auto.
    + rewrite !lookup_insert_ne by exact Hne; auto.
  - rewrite !lookup_insert_ne by exact Hne; auto.
Qed.

Lemma save_hparams_keeps_argument_witness :
  w_dicts (snd (save_hparams 1%positive "runs/b" example_world)) !! 1%positive
  = Some example_hp
  /\ w_rngs (snd (save_hparams 1%positive "runs/b" example_world)) = w_rngs example_world.
Proof.
  apply (save_hparams_keeps_argument (H := scripted_random) 1%positive "runs/b"
           example_world example_hp (VRng 2)); reflexivity.
Defined.

(** ** [gen_ortho_matrix] *)

(** C5: [gen_ortho_matrix(1, rng)] returns [[1.0]] and leaves the world as
    it was: the loop has no step, and no generator is asked for a sample. *)
Theorem gen_ortho_matrix_dim1 `{NumpyRandom} (rng : option loc) (w : world) :
  gen_ortho_matrix 1 rng w = (Ok [[1%float]], w).
Proof. reflexivity. Qed.

(** A draw leaves the generator in the state [normal] gives. *)
Lemma draw_gen_state `{NumpyRandom} (rng : option loc) (k : nat) (w : world) (s : rng_state) :
  gen_state rng w = Some s ->
  let draw := match rng with
              | None => np_random_normal k
              | Some r => rng_normal r k
              end in
  fst (draw w) = Ok (fst (normal k s))
  /\ gen_state rng (snd (draw w)) = Some (snd (normal k s)).
Proof.
  intros Hs. destruct rng as [r|]; simpl in *.
  - unfold rng_normal. rewrite Hs. destruct (normal k s) as [x s']. simpl.
    split; [reflexivity | apply lookup_insert_eq].
  - inversion Hs; subst. unfold np_random_normal.
    destruct (normal k (w_global_rng w)) as [x s']. split; reflexivity.
Qed.

(** The loop computes the fold of its body over the vectors it draws. *)
Lemma gen_ortho_loop_draws `{NumpyRandom} (dim : nat) (rng : option loc) :
  forall (k n : nat) (Hm : matrix float) (w : world) (s : rng_state),
    gen_state rng w = Some s ->
    fst (gen_ortho_loop dim rng (seq n k) Hm w)
    = Ok (householder_fold dim n Hm (fst (draw_seq dim (seq n k) s)))
    /\ gen_state rng (snd (gen_ortho_loop dim rng (seq n k) Hm w))
       = Some (snd (draw_seq dim (seq n k) s)).
Proof.
  induction k as [|k IH]; intros n Hm w s Hs.
  - split; [reflexivity | exact Hs].
  - cbn [seq gen_ortho_loop draw_seq]. unfold bind.
    destruct (draw_gen_state rng (dim - n + 1) w s Hs) as [Hx Hs'].
    cbv zeta in Hx, Hs'.
    destruct (match rng with
              | Some r => rng_normal r (dim - n + 1)
              | None => np_random_normal (dim - n + 1)
              end w) as [rx w1].
    simpl in Hx, Hs'. subst rx.
    destruct (normal (dim - n + 1) s) as [x s1]. simpl in Hs'. simpl fst.
    destruct (IH (S n) (householder_step dim n Hm x) w1 s1 Hs') as [IH1 IH2].
    destruct (draw_seq dim (seq (S n) k) s1) as [xs s2]. simpl in *.
    split; assumption.
Qed.

(** C6: two calls of [gen_ortho_matrix] with the same [dim], whose
    generators (the default one or a supplied one) are in the same state,
    return the same matrix and leave their generators in the same state;
    the matrix is [ortho_of_draws] of the dimension and the vectors drawn. *)
Theorem gen_ortho_matrix_deterministic `{NumpyRandom} (dim : Z)
        (rng1 rng2 : option loc) (w1 w2 : world) (s : rng_state) :
  gen_state rng1 w1 = Some s ->
  gen_state rng2 w2 = Some s ->
  fst (gen_ortho_matrix dim rng1 w1) = fst (gen_ortho_matrix dim rng2 w2)
  /\ gen_state rng1 (snd (gen_ortho_matrix dim rng1 w1))
     = gen_state rng2 (snd (gen_ortho_matrix dim rng2 w2))
  /\ (0 <= dim ->
      fst (gen_ortho_matrix dim rng1 w1)
      = Ok (ortho_of_draws (Z.to_nat dim)
              (fst (draw_seq (Z.to_nat dim) (seq 1 (Z.to_nat dim - 1)) s)))).
Proof.
  intros H1 H2. unfold gen_ortho_matrix.
  destruct (dim <? 0) eqn:Hneg.
  - simpl. rewrite H1, H2. repeat split. intros Hge. apply Z.ltb_lt in Hneg. lia.
  - destruct (gen_ortho_loop_draws (Z.to_nat dim) rng1 (Z.to_nat dim - 1) 1
                (np_eye (Z.to_nat dim)) w1 s H1) as [Ha1 Hb1].
    destruct (gen_ortho_loop_draws (Z.to_nat dim) rng2 (Z.to_nat dim - 1) 1
                (np_eye (Z.to_nat dim)) w2 s H2) as [Ha2 Hb2].
    rewrite Ha1, Ha2, Hb1, Hb2. repeat split.
Qed.

Lemma gen_ortho_matrix_deterministic_witness :
  fst (gen_ortho_matrix 3 (Some 1%positive)
         (scripted_world (Dir []) ∅ {[ 1%positive := [1; 2; 2; -3; 4]%float ]}))
  = fst (gen_ortho_matrix 3 (Some 7%positive)
           (scripted_world example_tree ∅ {[ 7%positive := [1; 2; 2; -3; 4]%float ]})).
Proof.
  refine (proj1 (gen_ortho_matrix_deterministic (H := scripted_random) 3
                   (Some 1%positive) (Some 7%positive)
                   (scripted_world (Dir []) ∅ {[ 1%positive := [1; 2; 2; -3; 4]%float ]})
                   (scripted_world example_tree ∅ {[ 7%positive := [1; 2; 2; -3; 4]%float ]})
                   [1; 2; 2; -3; 4]%float _ _)); reflexivity.
Defined.

(** C1, at a draw whose first component is zero: [np.sign] gives [D = 0],
    the reflection block [-D*(...)] is the zero block, and the matrix
    returned for [dim = 2] is the zero matrix, whose product with its
    transpose is not the identity within 1e-9. *)
Theorem gen_ortho_matrix_zero_first_component :
  fst (gen_ortho_matrix 2 (Some 1%positive)
         (scripted_world (Dir []) ∅ {[ 1%positive := [0; 1]%float ]}))
  = Ok [[0; 0]; [0; 0]]%float
  /\ orthogonal_within tol_1e9 [[0; 0]; [0; 0]]%float = false
  /\ orthogonal_within tol_1e9 (ortho_of_draws 2 [[3; 4]]%float) = true.
Proof. vm_compute. repeat split. Qed.

(** ** Orthogonality of the Householder construction, in exact arithmetic *)

Section ExactArithmetic.
Local Open Scope R_scope.

Lemma rsum_ext (f g : nat -> R) (n : nat) :
  (forall k, (k < n)%nat -> f k = g k) -> rsum f n = rsum g n.
Proof.
  induction n as [|n IH]; intros Hfg; [reflexivity|].
  cbn. rewrite IH by (intros k Hk; apply Hfg; lia).
  rewrite (Hfg n) by lia. reflexivity.
Qed.

Lemma rsum_plus (f g : nat -> R) (n : nat) :
  rsum (fun k => f k + g k) n = rsum f n + rsum g n.
Proof. induction n as [|n IH]; cbn; [ring | rewrite IH; ring]. Qed.

Lemma rsum_scal (c : R) (f : nat -> R) (n : nat) :
  rsum (fun k => c * f k) n = c * rsum f n.
Proof. induction n as [|n IH]; cbn; [ring | rewrite IH; ring]. Qed.

Lemma rsum_scal' (c : R) (f : nat -> R) (n : nat) :
  rsum (fun k => f k * c) n = rsum f n * c.
Proof. induction n as [|n IH]; cbn; [ring | rewrite IH; ring]. Qed.

Lemma rsum_mul (f g : nat -> R) (n m : nat) :
  rsum f n * rsum g m = rsum (fun l => rsum (fun k => f l * g k) m) n.
Proof.
  rewrite <- rsum_scal'. apply rsum_ext. intros l Hl. symmetry. apply rsum_scal.
Qed.

Lemma rsum_zero (n : nat) : rsum (fun _ => 0) n = 0.
Proof. induction n as [|n IH]; cbn; [reflexivity | rewrite IH; ring]. Qed.

Lemma rsum_swap (f : nat -> nat -> R) (n m : nat) :
  rsum (fun i => rsum (fun j => f i j) m) n = rsum (fun j => rsum (fun i => f i j) n) m.
Proof.
  induction n as [|n IH]; cbn.
  - symmetry. apply rsum_zero.
  - rewrite IH, <- rsum_plus. reflexivity.
Qed.

Lemma rsum_split (f : nat -> R) (a b : nat) :
  rsum f (a + b) = rsum f a + rsum (fun k => f (a + k)%nat) b.
Proof.
  induction b as [|b IH]; cbn.
  - rewrite Nat.add_0_r. ring.
  - rewrite Nat.add_succ_r. cbn. rewrite IH. ring.
Qed.

Lemma rsum_delta (i : nat) (f : nat -> R) (n : nat) :
  rsum (fun k => kron i k * f k) n = if Nat.ltb i n then f i else 0.
Proof.
  unfold kron. induction n as [|n IH]; [reflexivity|].
  cbn [rsum]. rewrite IH.
  destruct (Nat.eqb i n) eqn:E.
  - apply Nat.eqb_eq in E. subst n.
    rewrite Nat.ltb_irrefl.
    replace (Nat.ltb i (S i)) with true by (symmetry; apply Nat.ltb_lt; lia). ring.
  - apply Nat.eqb_neq in E. destruct (Nat.ltb i n) eqn:L.
    + replace (Nat.ltb i (S n)) with true
        by (symmetry; apply Nat.ltb_lt; apply Nat.ltb_lt in L; lia). ring.
    + replace (Nat.ltb i (S n)) with false
        by (symmetry; apply Nat.ltb_ge; apply Nat.ltb_ge in L; lia). ring.
Qed.

Lemma kron_sym (i j : nat) : kron i j = kron j i.
Proof. unfold kron. rewrite Nat.eqb_sym. reflexivity. Qed.

(** *** Lists as functions of the index *)

Lemma np_sum_app (l : list R) (x : R) : np_sum (l ++ [x]) = np_sum l + x.
Proof. unfold np_sum. rewrite fold_left_app. reflexivity. Qed.

Lemma np_sum_rsum (l : list R) : np_sum l = rsum (fun k => nth k l 0) (length l).
Proof.
  induction l as [|x l IH] using rev_ind; [reflexivity|].
  rewrite np_sum_app, length_app, Nat.add_1_r. cbn [rsum].
  rewrite app_nth2, Nat.sub_diag by lia. cbn [nth].
  rewrite IH. f_equal. apply rsum_ext. intros k Hk. rewrite app_nth1 by lia. reflexivity.
Qed.

Lemma nth_vmul (u v : list R) (k : nat) :
  (k < length u)%nat -> (k < length v)%nat ->
  nth k (vmul u v) 0 = nth k u 0 * nth k v 0.
Proof.
  unfold vmul. revert v k.
  induction u as [|a u IH]; intros [|b v] [|k] Hu Hv; cbn in *; try lia.
  - reflexivity.
  - apply IH; lia.
Qed.

Lemma length_vmul (u v : list R) : length (vmul u v) = Nat.min (length u) (length v).
Proof.
  unfold vmul. revert v. induction u as [|a u IH]; intros [|b v]; cbn; try reflexivity.
  rewrite IH. reflexivity.
Qed.

(** The inner product of two rows of one length *)
Lemma inner_rsum (u v : list R) (n : nat) :
  length u = n -> length v = n ->
  np_sum (vmul u v) = rsum (fun k => nth k u 0 * nth k v 0) n.
Proof.
  intros Hu Hv. rewrite np_sum_rsum, length_vmul, Hu, Hv, Nat.min_id.
  apply rsum_ext. intros k Hk. apply nth_vmul; lia.
Qed.

Lemma nth_map_seq {A} (f : nat -> A) (n i : nat) (d : A) :
  (i < n)%nat -> nth i (map f (seq 0 n)) d = f i.
Proof.
  intros Hi. rewrite (nth_indep _ d (f 0%nat)) by (rewrite length_map, length_seq; exact Hi).
  rewrite (map_nth f (seq 0 n) 0%nat i), seq_nth by exact Hi. reflexivity.
Qed.

Lemma nth_map_in {A B} (f : A -> B) (l : list A) (i : nat) (d : B) (d' : A) :
  (i < length l)%nat -> nth i (map f l) d = f (nth i l d').
Proof.
  intros Hi. rewrite (nth_indep _ d (f d')) by (rewrite length_map; exact Hi).
  apply map_nth.
Qed.

Lemma nth_imap {A B} (f : nat -> A -> B) (l : list A) (i : nat) (d : B) (d' : A) :
  (i < length l)%nat -> nth i (imap f l) d = f i (nth i l d').
Proof.
  intros Hi. rewrite nth_lookup, list_lookup_imap.
  destruct (nth_lookup_or_length l i d') as [Hl|Hl]; [|lia].
  rewrite Hl. reflexivity.
Qed.

(** *** Matrices by their entries *)

Lemma has_shape_row (r c : nat) (M : matrix R) (i : nat) :
  has_shape r c M -> (i < r)%nat -> length (nth i M []) = c.
Proof.
  intros [Hr Hc] Hi. rewrite List.Forall_forall in Hc. apply Hc, nth_In. lia.
Qed.

Lemma matrix_ext (r c : nat) (A B : matrix R) :
  has_shape r c A -> has_shape r c B ->
  (forall i j, (i < r)%nat -> (j < c)%nat -> mget A i j = mget B i j) ->
  A = B.
Proof.
  intros HA HB Heq.
  apply (nth_ext A B [] []); [destruct HA, HB; congruence|].
  intros i Hi. destruct HA as [HAr HAc] eqn:EA. rewrite HAr in Hi.
  pose proof (has_shape_row r c A i HA Hi) as HAi.
  pose proof (has_shape_row r c B i HB Hi) as HBi.
  apply (nth_ext _ _ 0 0); [congruence|].
  intros j Hj. apply Heq; [exact Hi | lia].
Qed.

Lemma has_shape_map_seq (r c : nat) (f : nat -> nat -> R) :
  has_shape r c (map (fun i => map (fun j => f i j) (seq 0 c)) (seq 0 r)).
Proof.
  split.
  - rewrite length_map, length_seq. reflexivity.
  - apply List.Forall_forall. intros row Hin. apply in_map_iff in Hin as (i & <- & _).
    rewrite length_map, length_seq. reflexivity.
Qed.

Lemma mget_map_seq (r c : nat) (f : nat -> nat -> R) (i j : nat) :
  (i < r)%nat -> (j < c)%nat ->
  mget (map (fun i => map (fun j => f i j) (seq 0 c)) (seq 0 r)) i j = f i j.
Proof.
  intros Hi Hj. unfold mget. rewrite (nth_map_seq _ r i []) by exact Hi.
  apply nth_map_seq. exact Hj.
Qed.

Lemma has_shape_eye (n : nat) : has_shape n n (np_eye n).
Proof. apply (has_shape_map_seq n n (fun i j => if Nat.eqb i j then 1 else 0)). Qed.

Lemma mget_eye (n i j : nat) :
  (i < n)%nat -> (j < n)%nat -> mget (np_eye n) i j = kron i j.
Proof. apply (mget_map_seq n n (fun i j => if Nat.eqb i j then 1 else 0)). Qed.

Lemma has_shape_map (r c : nat) (f : R -> R) (M : matrix R) :
  has_shape r c M -> has_shape r c (map (map f) M).
Proof.
  intros [Hr Hc]. split; [rewrite length_map; exact Hr|].
  apply List.Forall_forall. intros row Hin. apply in_map_iff in Hin as (row' & <- & Hin).
  rewrite length_map. rewrite List.Forall_forall in Hc. apply Hc, Hin.
Qed.

Lemma mget_map (r c : nat) (f : R -> R) (M : matrix R) (i j : nat) :
  has_shape r c M -> (i < r)%nat -> (j < c)%nat ->
  mget (map (map f) M) i j = f (mget M i j).
Proof.
  intros HM Hi Hj. unfold mget.
  rewrite (nth_map_in _ M i [] []) by (destruct HM; lia).
  apply nth_map_in. rewrite (has_shape_row r c M i HM Hi). exact Hj.
Qed.

Lemma has_shape_msub (r c : nat) (A B : matrix R) :
  has_shape r c A -> has_shape r c B -> has_shape r c (msub A B).
Proof.
  intros [HAr HAc] [HBr HBc]. unfold msub. split.
  - rewrite length_zip_with. lia.
  - apply List.Forall_forall. intros row Hin.
    apply list_elem_of_In, elem_of_lookup_zip_with in Hin as (i & a & b & -> & Ha & Hb).
    rewrite length_zip_with.
    rewrite List.Forall_forall in HAc, HBc.
    rewrite (HAc a), (HBc b); [lia | |];
      apply list_elem_of_In, list_elem_of_lookup; eauto.
Qed.

Lemma mget_msub (r c : nat) (A B : matrix R) (i j : nat) :
  has_shape r c A -> has_shape r c B -> (i < r)%nat -> (j < c)%nat ->
  mget (msub A B) i j = mget A i j - mget B i j.
Proof.
  intros HA HB Hi Hj. unfold mget, msub.
  pose proof (has_shape_row r c A i HA Hi) as HAi.
  pose proof (has_shape_row r c B i HB Hi) as HBi.
  destruct (nth_lookup_or_length A i []) as [Ha|Ha]; [|destruct HA; lia].
  destruct (nth_lookup_or_length B i []) as [Hb|Hb]; [|destruct HB; lia].
  rewrite (nth_lookup_Some _ i [] (zip_with s_sub (nth i A []) (nth i B [])))
    by (rewrite lookup_zip_with, Ha, Hb; reflexivity).
  destruct (nth_lookup_or_length (nth i A []) j 0) as [Ha'|Ha']; [|lia].
  destruct (nth_lookup_or_length (nth i B []) j 0) as [Hb'|Hb']; [|lia].
  apply nth_lookup_Some. rewrite lookup_zip_with, Ha', Hb'. reflexivity.
Qed.

Lemma has_shape_outer (u v : list R) : has_shape (length u) (length v) (np_outer u v).
Proof.
  split; [apply length_map|].
  apply List.Forall_forall. intros row Hin. apply in_map_iff in Hin as (a & <- & _).
  apply length_map.
Qed.

Lemma mget_outer (u v : list R) (i j : nat) :
  (i < length u)%nat -> (j < length v)%nat ->
  mget (np_outer u v) i j = nth i u 0 * nth j v 0.
Proof.
  intros Hi Hj. unfold mget, np_outer.
  rewrite (nth_map_in _ u i [] 0) by exact Hi.
  apply (nth_map_in (fun b => nth i u 0 * b)). exact Hj.
Qed.

Lemma has_shape_gram (r c : nat) (M : matrix R) : has_shape r c M -> has_shape r r (gram M).
Proof.
  intros [Hr Hc]. unfold gram. split; [rewrite length_map; exact Hr|].
  apply List.Forall_forall. intros row Hin. apply in_map_iff in Hin as (ri & <- & _).
  rewrite length_map. exact Hr.
Qed.

Lemma mget_gram (r c : nat) (M : matrix R) (i j : nat) :
  has_shape r c M -> (i < r)%nat -> (j < r)%nat ->
  mget (gram M) i j = rsum (fun k => mget M i k * mget M j k) c.
Proof.
  intros HM Hi Hj. unfold mget at 1. unfold gram.
  rewrite (nth_map_in _ M i [] []) by (destruct HM; lia).
  rewrite (nth_map_in _ M j 0 []) by (destruct HM; lia).
  apply inner_rsum; apply (has_shape_row r c M); assumption.
Qed.

Lemma has_shape_dot (r k c : nat) (A B : matrix R) :
  has_shape r k A -> has_shape k c B -> (0 < k)%nat -> has_shape r c (np_dot A B).
Proof.
  intros [HAr HAc] HB Hk. unfold np_dot. split; [rewrite length_map; exact HAr|].
  apply List.Forall_forall. intros row Hin. apply in_map_iff in Hin as (ri & <- & _).
  rewrite length_map, length_seq.
  replace (hd [] B) with (nth 0 B []) by (destruct B; reflexivity).
  apply (has_shape_row k c B 0 HB Hk).
Qed.

Lemma mget_dot (r k c : nat) (A B : matrix R) (i j : nat) :
  has_shape r k A -> has_shape k c B -> (0 < k)%nat -> (i < r)%nat -> (j < c)%nat ->
  mget (np_dot A B) i j = rsum (fun l => mget A i l * mget B l j) k.
Proof.
  intros HA HB Hk Hi Hj. unfold mget at 1. unfold np_dot.
  rewrite (nth_map_in _ A i [] []) by (destruct HA; lia).
  replace (hd [] B) with (nth 0 B []) by (destruct B; reflexivity).
  rewrite (has_shape_row k c B 0 HB Hk).
  rewrite nth_map_seq by exact Hj.
  rewrite (inner_rsum _ _ k).
  - apply rsum_ext. intros l Hl. f_equal. unfold mget.
    apply (nth_map_in (fun brow => nth j brow 0)). destruct HB; lia.
  - apply (has_shape_row r k A i HA Hi).
  - rewrite length_map. destruct HB; assumption.
Qed.

(** *** Rows of unit length, orthogonal to each other *)

Lemma orthonormal_eye (n : nat) : orthonormal n (np_eye n).
Proof.
  split; [apply has_shape_eye|]. intros i j Hi Hj.
  rewrite (rsum_ext _ (fun k => kron i k * kron j k))
    by (intros k Hk; rewrite !mget_eye by assumption; reflexivity).
  rewrite rsum_delta.
  replace (Nat.ltb i n) with true by (symmetry; apply Nat.ltb_lt; exact Hi).
  apply kron_sym.
Qed.

(** The product of two matrices with orthonormal rows has orthonormal
    rows. *)
Lemma orthonormal_dot (n : nat) (A B : matrix R) :
  (0 < n)%nat -> orthonormal n A -> orthonormal n B -> orthonormal n (np_dot A B).
Proof.
  intros Hn [HA HAo] [HB HBo]. split; [apply (has_shape_dot n n n); assumption|].
  intros i j Hi Hj.
  rewrite (rsum_ext _ (fun k => rsum (fun l => rsum (fun m =>
             (mget A i l * mget A j m) * (mget B l k * mget B m k)) n) n)).
  2:{ intros k Hk. rewrite !(mget_dot n n n) by assumption.
      rewrite rsum_mul. apply rsum_ext. intros l Hl.
      apply rsum_ext. intros m Hm. ring. }
  rewrite rsum_swap.
  rewrite (rsum_ext _ (fun l => rsum (fun m => (mget A i l * mget A j m) * kron l m) n)).
  2:{ intros l Hl. rewrite rsum_swap. apply rsum_ext. intros m Hm.
      rewrite rsum_scal, (HBo l m) by assumption. reflexivity. }
  rewrite (rsum_ext _ (fun l => mget A i l * mget A j l)).
  2:{ intros l Hl.
      rewrite (rsum_ext _ (fun m => kron l m * (mget A i l * mget A j m)))
        by (intros m Hm; ring).
      rewrite rsum_delta.
      replace (Nat.ltb l n) with true by (symmetry; apply Nat.ltb_lt; exact Hl).
      reflexivity. }
  apply HAo; assumption.
Qed.

(** *** The reflection block *)

Lemma has_shape_reflect (c s : R) (v : list R) :
  has_shape (length v) (length v) (reflect c (length v) v s).
Proof.
  unfold reflect, mscale, mdiv.
  apply has_shape_map, has_shape_msub; [apply has_shape_eye|].
  apply has_shape_map, has_shape_map, has_shape_outer.
Qed.

Lemma mget_reflect (c s : R) (v : list R) (i j : nat) :
  (i < length v)%nat -> (j < length v)%nat ->
  mget (reflect c (length v) v s) i j = c * (kron i j - 2 * (nth i v 0 * nth j v 0) / s).
Proof.
  intros Hi Hj. unfold reflect, mscale, mdiv.
  rewrite (mget_map (length v) (length v)); try assumption.
  2:{ apply has_shape_msub; [apply has_shape_eye|].
      apply has_shape_map, has_shape_map, has_shape_outer. }
  rewrite (mget_msub (length v) (length v)); try assumption;
    [|apply has_shape_eye | apply has_shape_map, has_shape_map, has_shape_outer].
  rewrite mget_eye by assumption.
  rewrite (mget_map (length v) (length v)); try assumption;
    [|apply has_shape_map, has_shape_outer].
  rewrite (mget_map (length v) (length v)); try assumption; [|apply has_shape_outer].
  rewrite mget_outer by assumption. reflexivity.
Qed.

(** A Householder reflection, with either sign, has orthonormal rows. *)
Lemma orthonormal_reflect (c : R) (v : list R) :
  c * c = 1 -> np_sum (vmul v v) <> 0 ->
  orthonormal (length v) (reflect c (length v) v (np_sum (vmul v v))).
Proof.
  intros Hc Hs. split; [apply has_shape_reflect|]. intros i j Hi Hj.
  assert (Hsum : rsum (fun k => nth k v 0 * nth k v 0) (length v) = np_sum (vmul v v))
    by (symmetry; apply inner_rsum; reflexivity).
  set (s := np_sum (vmul v v)) in *.
  rewrite (rsum_ext _ (fun k =>
             (kron i k * kron j k + (- 2 * nth j v 0 / s) * (kron i k * nth k v 0))
             + ((- 2 * nth i v 0 / s) * (kron j k * nth k v 0)
                + (4 * nth i v 0 * nth j v 0 / (s * s)) * (nth k v 0 * nth k v 0)))).
  2:{ intros k Hk. rewrite !mget_reflect by assumption.
      transitivity ((c * c) * ((kron i k - 2 * (nth i v 0 * nth k v 0) / s)
                               * (kron j k - 2 * (nth j v 0 * nth k v 0) / s)));
        [ring|].
      rewrite Hc. field. exact Hs. }
  rewrite !rsum_plus, !rsum_scal, !rsum_delta, Hsum.
  replace (Nat.ltb i (length v)) with true by (symmetry; apply Nat.ltb_lt; exact Hi).
  replace (Nat.ltb j (length v)) with true by (symmetry; apply Nat.ltb_lt; exact Hj).
  rewrite (kron_sym j i). field. exact Hs.
Qed.

(** *** The reflection inside the identity *)

Lemma has_shape_intro (r c : nat) (M : matrix R) :
  length M = r -> (forall i, (i < r)%nat -> length (nth i M []) = c) -> has_shape r c M.
Proof.
  intros Hr Hrows. split; [exact Hr|].
  apply List.Forall_forall. intros row Hin.
  apply (In_nth _ _ []) in Hin as (i & Hi & <-). apply Hrows. lia.
Qed.

Lemma has_shape_set_block (r m : nat) (B : matrix R) :
  has_shape m m B -> has_shape (r + m) (r + m) (set_block (np_eye (r + m)) r B).
Proof.
  intros HB. pose proof (has_shape_eye (r + m)) as HI.
  unfold set_block. apply has_shape_intro.
  - rewrite length_imap. destruct HI; assumption.
  - intros i Hi. rewrite (nth_imap _ _ i [] []) by (destruct HI; lia).
    pose proof (has_shape_row _ _ _ i HI Hi) as Hrow.
    destruct (Nat.ltb i r) eqn:E; [exact Hrow|].
    apply Nat.ltb_ge in E.
    rewrite length_app, length_take, Hrow, (has_shape_row m m B (i - r) HB) by lia. lia.
Qed.

Lemma mget_set_block (r m : nat) (B : matrix R) (i j : nat) :
  has_shape m m B -> (i < r + m)%nat -> (j < r + m)%nat ->
  mget (set_block (np_eye (r + m)) r B) i j
  = if Nat.ltb i r || Nat.ltb j r then kron i j else mget B (i - r) (j - r).
Proof.
  intros HB Hi Hj. pose proof (has_shape_eye (r + m)) as HI.
  pose proof (has_shape_row _ _ _ i HI Hi) as Hrow.
  unfold mget at 1. unfold set_block.
  rewrite (nth_imap _ _ i [] []) by (destruct HI; lia).
  destruct (Nat.ltb i r) eqn:Ei; cbn [orb].
  - apply mget_eye; assumption.
  - assert (Hlen : length (take r (nth i (np_eye (r + m)) [])) = r)
      by (rewrite length_take, Hrow; lia).
    destruct (Nat.ltb j r) eqn:Ej.
    + apply Nat.ltb_lt in Ej. rewrite app_nth1 by lia.
      rewrite nth_firstn. replace (Nat.ltb j r) with true by (symmetry; apply Nat.ltb_lt; lia).
      apply mget_eye; assumption.
    + apply Nat.ltb_ge in Ej. rewrite app_nth2 by lia. rewrite Hlen. reflexivity.
Qed.

Lemma kron_ne (i j : nat) : i <> j -> kron i j = 0.
Proof. intros Hne. unfold kron. apply Nat.eqb_neq in Hne. rewrite Hne. reflexivity. Qed.

Lemma kron_shift (r i j : nat) : (r <= i)%nat -> (r <= j)%nat -> kron (i - r) (j - r) = kron i j.
Proof.
  intros Hi Hj. unfold kron.
  destruct (Nat.eqb i j) eqn:E.
  - apply Nat.eqb_eq in E. subst j. rewrite Nat.eqb_refl. reflexivity.
  - apply Nat.eqb_neq in E.
    replace (Nat.eqb (i - r) (j - r)) with false by (symmetry; apply Nat.eqb_neq; lia).
    reflexivity.
Qed.

Lemma orthonormal_set_block (r m : nat) (B : matrix R) :
  orthonormal m B -> orthonormal (r + m) (set_block (np_eye (r + m)) r B).
Proof.
  intros [HB HBo]. split; [apply has_shape_set_block; exact HB|]. intros i j Hi Hj.
  set (mat := set_block (np_eye (r + m)) r B).
  destruct (Nat.ltb i r) eqn:Ei.
  - (* row [i] is a row of the identity *)
    rewrite (rsum_ext _ (fun k => kron i k * mget mat j k)).
    2:{ intros k Hk. unfold mat at 1. rewrite mget_set_block, Ei by assumption.
        reflexivity. }
    rewrite rsum_delta.
    replace (Nat.ltb i (r + m)) with true by (symmetry; apply Nat.ltb_lt; exact Hi).
    unfold mat. rewrite mget_set_block, Ei, orb_true_r by assumption. apply kron_sym.
  - destruct (Nat.ltb j r) eqn:Ej.
    + rewrite (rsum_ext _ (fun k => kron j k * mget mat i k)).
      2:{ intros k Hk. unfold mat at 2. rewrite mget_set_block, Ej by assumption.
          cbn [orb]. ring. }
      rewrite rsum_delta.
      replace (Nat.ltb j (r + m)) with true by (symmetry; apply Nat.ltb_lt; exact Hj).
      unfold mat. rewrite mget_set_block, Ej, orb_true_r by assumption. reflexivity.
    + apply Nat.ltb_ge in Ei, Ej. rewrite rsum_split.
      rewrite (rsum_ext _ (fun _ => 0)), rsum_zero.
      2:{ intros k Hk. unfold mat. rewrite (mget_set_block r m B i k) by (try assumption; lia).
          replace (Nat.ltb k r) with true by (symmetry; apply Nat.ltb_lt; lia).
          rewrite orb_true_r, kron_ne by lia. ring. }
      rewrite (rsum_ext _ (fun k => mget B (i - r) k * mget B (j - r) k)).
      2:{ intros k Hk. unfold mat. rewrite !mget_set_block by (try assumption; lia).
          replace (Nat.ltb i r) with false by (symmetry; apply Nat.ltb_ge; lia).
          replace (Nat.ltb j r) with false by (symmetry; apply Nat.ltb_ge; lia).
          replace (Nat.ltb (r + k) r) with false by (symmetry; apply Nat.ltb_ge; lia).
          cbn [orb]. replace (r + k - r)%nat with k by lia. reflexivity. }
      rewrite HBo by lia. rewrite kron_shift by assumption. ring.
Qed.

(** *** One step of the loop, and the loop *)

Lemma fold_left_Rplus (l : list R) (a : R) : fold_left Rplus l a = a + fold_left Rplus l 0.
Proof.
  revert a. induction l as [|x l IH]; intros a; cbn; [ring|].
  rewrite (IH (a + x)), (IH (0 + x)). ring.
Qed.

Lemma np_sum_cons (a : R) (l : list R) : np_sum (a :: l) = a + np_sum l.
Proof.
  unfold np_sum. cbn. rewrite fold_left_Rplus. rewrite Rplus_0_l. reflexivity.
Qed.

Lemma sum_squares_nonneg (l : list R) : 0 <= np_sum (vmul l l).
Proof.
  induction l as [|a l IH]; [apply Rle_refl|].
  change (vmul (a :: l) (a :: l)) with (a * a :: vmul l l).
  rewrite np_sum_cons. nra.
Qed.

Lemma R_sign_square (x : R) : x <> 0 -> - R_sign x * - R_sign x = 1.
Proof.
  intros Hx. unfold R_sign.
  destruct (Rlt_dec 0 x); [ring|]. destruct (Rlt_dec x 0); [ring|]. lra.
Qed.

(** The vector of line 172 has a nonzero sum of squares when [x[0]] is not
    zero: its first entry moves away from zero. *)
Lemma perturbed_sum_nonzero (x0 : R) (xs : list R) :
  x0 <> 0 ->
  let x' := iadd_first (x0 :: xs)
                       (R_sign x0 * sqrt (np_sum (vmul (x0 :: xs) (x0 :: xs)))) in
  np_sum (vmul x' x') <> 0.
Proof.
  intros Hx0. cbn [iadd_first].
  set (S0 := np_sum (vmul (x0 :: xs) (x0 :: xs))).
  pose proof (sqrt_pos S0) as Hsq.
  pose proof (sum_squares_nonneg xs) as Hrest.
  cbn [s_add R_Scalar].
  set (y := x0 + R_sign x0 * sqrt S0).
  change (vmul (y :: xs) (y :: xs)) with (y * y :: vmul xs xs).
  rewrite np_sum_cons.
  assert (Hy : y <> 0).
  { unfold y, R_sign. destruct (Rlt_dec 0 x0); [nra|]. destruct (Rlt_dec x0 0); nra. }
  assert (0 < y * y) by nra. lra.
Qed.

Lemma orthonormal_step (dim n : nat) (Hm : matrix R) (x : vector R) :
  orthonormal dim Hm ->
  (1 <= n < dim)%nat -> length x = (dim - n + 1)%nat -> hd 0 x <> 0 ->
  orthonormal dim (householder_step dim n Hm x).
Proof.
  intros HH Hn Hlen Hx0.
  destruct x as [|x0 xs]; [cbn in Hlen; lia|]. cbn [hd] in Hx0.
  pose proof (perturbed_sum_nonzero x0 xs Hx0) as Hs. cbv zeta in Hs.
  set (x' := iadd_first (x0 :: xs)
               (R_sign x0 * sqrt (np_sum (vmul (x0 :: xs) (x0 :: xs))))) in *.
  assert (Hlen' : length x' = (dim - n + 1)%nat) by exact Hlen.
  change (householder_step dim n Hm (x0 :: xs))
    with (np_dot Hm (set_block (np_eye dim) (n - 1)
                       (reflect (- R_sign x0) (dim - n + 1) x' (np_sum (vmul x' x'))))).
  apply orthonormal_dot; [lia | exact HH |].
  replace dim with ((n - 1) + (dim - n + 1))%nat at 1 2 by lia.
  apply orthonormal_set_block. rewrite <- Hlen'.
  apply orthonormal_reflect; [apply R_sign_square; exact Hx0 | exact Hs].
Qed.

Lemma orthonormal_fold (dim : nat) :
  forall (draws : list (vector R)) (n : nat) (Hm : matrix R),
    orthonormal dim Hm -> draws_fit dim n draws ->
    orthonormal dim (householder_fold dim n Hm draws).
Proof.
  induction draws as [|x rest IH]; intros n Hm HH Hfit; [exact HH|].
  destruct Hfit as (Hn & Hlen & Hx0 & Hrest). cbn [householder_fold].
  apply IH; [|exact Hrest]. apply orthonormal_step; assumption.
Qed.

(** X1 (the exact-arithmetic reading of C1): over the real numbers, when
    the vector drawn at step [n] has [dim - n + 1] entries and a first
    entry that is not zero, the matrix [M] the loop builds satisfies
    [M . M^T = I] exactly. *)
Theorem householder_orthogonal_exact (dim : nat) (draws : list (vector R)) :
  draws_fit dim 1 draws ->
  gram (ortho_of_draws dim draws) = np_eye dim.
Proof.
  intros Hfit.
  destruct (orthonormal_fold dim draws 1 (np_eye dim) (orthonormal_eye dim) Hfit)
    as [Hshape Hortho].
  fold (ortho_of_draws dim draws) in Hshape, Hortho.
  apply (matrix_ext dim dim);
    [apply (has_shape_gram dim dim); exact Hshape | apply has_shape_eye |].
  intros i j Hi Hj.
  rewrite (mget_gram dim dim), mget_eye by assumption. apply Hortho; assumption.
Qed.

End ExactArithmetic.

Lemma householder_orthogonal_exact_witness :
  gram (ortho_of_draws 2 [[3; 4]]%R) = np_eye 2.
Proof.
  apply (householder_orthogonal_exact 2 [[3; 4]]%R).
  cbn. repeat split; try lia. lra.
Defined.

(** ** Saving and loading hyperparameters *)

(** A value without NaN is [==] to itself. *)
Lemma py_eq_refl : forall v, nan_free v = true -> py_eq v v = true.
Proof.
  fix IH 1. intros [ |b|z|f|s|l|r] Hv; cbn [py_eq].
  - reflexivity.
  - apply Z.eqb_refl.
  - apply Z.eqb_refl.
  - cbn [nan_free] in Hv. unfold PrimFloat.is_nan in Hv.
    rewrite negb_involutive in Hv. exact Hv.
  - apply String.eqb_refl.
  - cbn [nan_free] in Hv. induction l as [|u l IHl]; [reflexivity|].
    apply andb_true_iff in Hv as [Hu Hl].
    apply andb_true_iff. split; [apply IH, Hu | apply IHl, Hl].
  - apply Pos.eqb_refl.
Qed.

(** What [load_hparams] does in a directory whose [hparams.json] holds an
    object with an integer seed in range: a fresh dict with the stored
    fields and a fresh generator under ['rng']. *)
Lemma load_hparams_stored `{NumpyRandom} (dir : string) (w : world)
      (o : gmap string json) (s : Z) :
  stored_hparams (w_fs w) dir = Some o ->
  o !! "seed" = Some (JInt s) ->
  0 <= s + 1000 < 2 ^ 32 ->
  exists l r w',
    load_hparams dir w = (Ok (Some l), w')
    /\ w_dicts w !! l = None
    /\ w_rngs w !! r = None
    /\ w_dicts w' = <[l := <["rng" := VRng r]> (dict_of_json o)]> (w_dicts w)
    /\ w_rngs w' = <[r := seed_state (s + 1000)]> (w_rngs w)
    /\ w_global_rng w' = w_global_rng w /\ w_fs w' = w_fs w /\ w_out w' = w_out w.
Proof.
  intros Hst Hseed Hrange.
  unfold stored_hparams in Hst.
  destruct (fs_lookup (w_fs w) (os_path_join dir "hparams.json")) as [[c|]|] eqn:Hl;
    try discriminate.
  destruct c; try discriminate. inversion Hst; subst; clear Hst.
  set (l := fresh_loc w).
  set (w1 := {| w_dicts := <[l := dict_of_json o]> (w_dicts w); w_rngs := w_rngs w;
                w_global_rng := w_global_rng w; w_fs := w_fs w; w_out := w_out w |}).
  exists l, (fresh_loc w1).
  eexists. split.
  - unfold load_hparams, bind, os_path_isfile, is_file, read_file. cbv zeta.
    rewrite Hl. cbn. rewrite Hl. cbn.
    unfold new_dict, getitem, bind, read_dict, ret. cbn. fold l.
    rewrite lookup_insert_eq.
    unfold dict_of_json at 1. rewrite lookup_fmap, Hseed. cbn.
    unfold RandomState.
    replace ((0 <=? s + 1000) && (s + 1000 <? 2 ^ 32)) with true
      by (symmetry; apply andb_true_iff; split; [apply Z.leb_le | apply Z.ltb_lt]; lia).
    cbn. unfold dict_setitem, bind, read_dict, write_dict, ret. cbn.
    rewrite lookup_insert_eq. cbn. reflexivity.
  - cbn. repeat split.
    + apply fresh_loc_not_dict.
    + apply (fresh_loc_not_rng w1).
    + fold l. apply insert_insert_eq.
Qed.

(** C3, as the code has it: for a mapping [hp] with a generator under
    ['rng'], an integer ['seed'] such that [seed + 1000] is a valid numpy
    seed (from 0 to 2**32 - 1), its other values plain data ([None],
    booleans, integers, floats, ASCII strings and lists of these; no
    generator), and a directory in which [hparams.json] can be written,
    [save_hparams] then [load_hparams] return a new mapping with the fields
    of [hp] but for ['rng'], whose ['rng'] is a new generator in the state
    of seed [seed + 1000].  Every field but ['rng'] holds the value it had,
    which is [==] to the one of [hp] unless a NaN is in it. *)
Theorem save_load_roundtrip `{NumpyRandom} (hp : loc) (dir : string) (w : world)
        (d : gmap string pyval) (g : loc) (s : Z) :
  w_dicts w !! hp = Some d ->
  d !! "rng" = Some (VRng g) ->
  d !! "seed" = Some (VInt s) ->
  0 <= s + 1000 < 2 ^ 32 ->
  is_Some (dict_to_json (delete "rng" d)) ->
  writable (w_fs w) (os_path_join dir "hparams.json") = true ->
  exists w1 l r w2 loaded,
    save_hparams hp dir w = (Ok tt, w1)
    /\ load_hparams dir w1 = (Ok (Some l), w2)
    /\ w_dicts w2 !! l = Some loaded
    /\ (forall k, k <> "rng" -> loaded !! k = d !! k)
    /\ (forall k v, k <> "rng" -> d !! k = Some v -> nan_free v = true ->
                    exists v', loaded !! k = Some v' /\ py_eq v' v = true)
    /\ loaded !! "rng" = Some (VRng r)
    /\ w_rngs w2 !! r = Some (seed_state (s + 1000))
    /\ w_rngs w1 !! r = None
    /\ w_dicts w1 !! l = None.
Proof.
  intros Hd Hrng Hseed Hrange [o Ho] Hwr.
  unfold writable in Hwr.
  destruct (fs_write (w_fs w) (os_path_join dir "hparams.json") COther) as [fs1|] eqn:Hw1;
    [clear Hwr|discriminate].
  destruct (write_at_again _ _ _ _ (CJsonObject o) Hw1) as [fs2 Hw2].
  pose proof (resolve_write_at _ _ _ _ Hw2) as Hread.
  (* the save *)
  assert (Hsave : exists w1, save_hparams hp dir w = (Ok tt, w1)
                             /\ w_fs w1 = fs2 /\ w_rngs w1 = w_rngs w).
  { eexists. split.
    - unfold save_hparams, dict_copy, dict_pop, open_wb, json_dump, bind, read_dict,
        new_dict, write_dict, write_file, ret, raise.
      rewrite Hd. cbn. rewrite lookup_insert_eq, Hrng. cbn. rewrite Hw1. cbn.
      rewrite lookup_insert_eq, Ho. cbn. unfold fs_write. rewrite Hw2. reflexivity.
    - split; reflexivity. }
  destruct Hsave as (w1 & Hsave & Hfs1 & Hrngs1).
  (* the load *)
  assert (Hstored : stored_hparams (w_fs w1) dir = Some o).
  { unfold stored_hparams. rewrite fs_lookup_join by discriminate.
    rewrite Hfs1, Hread. reflexivity. }
  assert (Hoseed : o !! "seed" = Some (JInt s)).
  { rewrite (dict_to_json_lookup _ _ "seed" Ho), lookup_delete_ne by discriminate.
    rewrite Hseed. reflexivity. }
  destruct (load_hparams_stored dir w1 o s Hstored Hoseed Hrange)
    as (l & r & w2 & Hload & Hl & Hr & Hdicts & Hrngs & _).
  exists w1, l, r, w2, (<["rng" := VRng r]> (dict_of_json o)).
  rewrite (dict_to_json_Some _ _ Ho) in Hdicts |- *.
  assert (Hsame : forall k, k <> "rng" ->
                    <["rng" := VRng r]> (delete "rng" d) !! k = d !! k).
  { intros k Hk. rewrite lookup_insert_ne by congruence. apply lookup_delete_ne.
    congruence. }
  repeat split; try assumption.
  - rewrite Hdicts. apply lookup_insert_eq.
  - intros k v Hk Hv Hnan. exists v. rewrite (Hsame k Hk). split; [exact Hv|].
    apply py_eq_refl, Hnan.
  - apply lookup_insert_eq.
  - rewrite Hrngs. apply lookup_insert_eq.
Qed.

Lemma save_load_roundtrip_witness :
  exists w1 l r w2 loaded,
    save_hparams 1%positive "runs/b" example_world = (Ok tt, w1)
    /\ load_hparams "runs/b" w1 = (Ok (Some l), w2)
    /\ w_dicts w2 !! l = Some loaded
    /\ (forall k, k <> "rng" -> loaded !! k = example_hp !! k)
    /\ (forall k v, k <> "rng" -> example_hp !! k = Some v -> nan_free v = true ->
                    exists v', loaded !! k = Some v' /\ py_eq v' v = true)
    /\ loaded !! "rng" = Some (VRng r)
    /\ w_rngs w2 !! r = Some (seed_state (5 + 1000))
    /\ w_rngs w1 !! r = None
    /\ w_dicts w1 !! l = None.
Proof.
  apply (save_load_roundtrip (H := scripted_random) 1%positive "runs/b" example_world
           example_hp 2%positive 5).
  - reflexivity.
  - reflexivity.
  - reflexivity.
  - lia.
  - eexists. vm_compute. reflexivity.
  - reflexivity.
Defined.

(** C3 as stated fails for a seed near the top of numpy's range: the
    mapping has a generator and the integer seed 2**32 - 1, the save
    succeeds, and the load raises [ValueError] at
    [RandomState(seed + 1000)]. *)
Lemma save_load_large_seed_counterexample :
  let hp : gmap string pyval := {[ "rng" := VRng 2; "seed" := VInt 4294967295 ]} in
  let w := scripted_world example_tree {[ 1%positive := hp ]}
                          {[ 2%positive := [4294967295]%float ]} in
  fst (save_hparams 1%positive "runs/b" w) = Ok tt
  /\ fst (load_hparams "runs/b" (snd (save_hparams 1%positive "runs/b" w)))
     = Raise ValueError.
Proof. vm_compute. split; reflexivity. Qed.

(** ** Finding models *)

Lemma filter_model_dirs_world `{NumpyRandom} (dirs : list string) (w : world) :
  snd (filter_model_dirs dirs w) = w.
Proof.
  induction dirs as [|d rest IH]; [reflexivity|].
  cbn [filter_model_dirs]. unfold bind, _contain_model_file, bind, os_listdir.
  destruct (fs_lookup (w_fs w) d) as [[c|es]|]; cbn; try reflexivity.
  destruct (filter_model_dirs rest w) as [[ds|e] w'] eqn:E; cbn in *; exact IH.
Qed.

Lemma valid_model_dirs_world `{NumpyRandom} (root : string) (w : world) :
  snd (valid_model_dirs root w) = w.
Proof. unfold valid_model_dirs, bind, os_walk. cbn. apply filter_model_dirs_world. Qed.

(** On a mapping that has every key asked for, the comparison of line 109
    returns, and says whether every pair agrees. *)
Lemma all_match_present `{NumpyRandom} (l : loc) (hpd : gmap string pyval) (w : world) :
  w_dicts w !! l = Some hpd ->
  forall items : list (string * pyval),
    (forall kv, In kv items -> is_Some (hpd !! fst kv)) ->
    all_match (Some l) items w
    = (Ok (forallb (fun kv => match hpd !! fst kv with
                              | Some v => py_eq v (snd kv)
                              | None => false
                              end) items), w).
Proof.
  intros Hl. induction items as [|[key val] rest IH]; intros Hall; [reflexivity|].
  cbn [all_match forallb fst snd]. unfold bind, getitem, bind, read_dict. rewrite Hl.
  destruct (Hall (key, val) (or_introl eq_refl)) as [v Hv]. cbn in Hv. rewrite Hv. cbn.
  destruct (py_eq v val); [|reflexivity].
  apply IH. intros kv Hin. apply Hall. right. exact Hin.
Qed.

Lemma forallb_ext_In {A} (f g : A -> bool) (l : list A) :
  (forall x, In x l -> f x = g x) -> forallb f l = forallb g l.
Proof.
  induction l as [|a l IH]; intros Hfg; [reflexivity|].
  cbn. rewrite (Hfg a (or_introl eq_refl)), IH; [reflexivity|].
  intros x Hx. apply Hfg. right. exact Hx.
Qed.

Lemma agrees_on_insert_rng (hpd t : gmap string pyval) (v : pyval) :
  t !! "rng" = None -> agrees_on (<["rng" := v]> hpd) t = agrees_on hpd t.
Proof.
  intros Ht. unfold agrees_on. apply forallb_ext_In.
  intros [k u] Hin. cbn.
  assert (k <> "rng").
  { intros ->. apply list_elem_of_In, elem_of_map_to_list in Hin. congruence. }
  rewrite lookup_insert_ne by congruence. reflexivity.
Qed.

Lemma find_all_models_loop_agree `{NumpyRandom} (fs : node) (hp_target : loc)
      (t : gmap string pyval) :
  t !! "rng" = None ->
  forall (dirs acc_d : list string) (acc_h : list (option loc)) (w : world),
    w_fs w = fs ->
    w_dicts w !! hp_target = Some t ->
    (forall d, In d dirs -> loadable_for fs t d) ->
    Forall2 (loaded_from fs (w_dicts w)) acc_d acc_h ->
    exists hps w',
      find_all_models_loop hp_target dirs acc_d acc_h w
      = (Ok (acc_d ++ List.filter (stored_agrees fs t) dirs, hps), w')
      /\ Forall2 (loaded_from fs (w_dicts w'))
                 (acc_d ++ List.filter (stored_agrees fs t) dirs) hps.
Proof.
  intros Hrng. induction dirs as [|d rest IH]; intros acc_d acc_h w Hfs Ht Hdirs Hacc.
  - exists acc_h, w. cbn. rewrite app_nil_r. split; [reflexivity | exact Hacc].
  - destruct (Hdirs d (or_introl eq_refl)) as (o & s & Hst & Hseed & Hrange & Hkeys).
    rewrite <- Hfs in Hst.
    destruct (load_hparams_stored d w o s Hst Hseed Hrange)
      as (l & r & w1 & Hload & Hl & Hr & Hdicts & _ & _ & Hfs1 & _).
    rewrite Hfs in Hst.
    assert (Hne : l <> hp_target) by (intros ->; congruence).
    assert (Ht1 : w_dicts w1 !! hp_target = Some t).
    { rewrite Hdicts, lookup_insert_ne by exact Hne. exact Ht. }
    assert (Hl1 : w_dicts w1 !! l = Some (<["rng" := VRng r]> (dict_of_json o))).
    { rewrite Hdicts. apply lookup_insert_eq. }
    assert (Hacc1 : Forall2 (loaded_from fs (w_dicts w1)) acc_d acc_h).
    { eapply Forall2_impl; [exact Hacc|].
      intros d0 hp0 (l0 & o0 & r0 & -> & Hst0 & Hl0).
      exists l0, o0, r0. repeat split; try assumption.
      rewrite Hdicts, lookup_insert_ne; [exact Hl0 | congruence]. }
    assert (Hstep : find_all_models_loop hp_target (d :: rest) acc_d acc_h w
                    = (if agrees_on (dict_of_json o) t
                       then find_all_models_loop hp_target rest (acc_d ++ [d])
                                                 (acc_h ++ [Some l])
                       else find_all_models_loop hp_target rest acc_d acc_h) w1).
    { cbn [find_all_models_loop].
      rewrite (bind_ok _ _ _ _ _ Hload).
      unfold dict_items.
      erewrite (bind_ok (bind _ _)); [|unfold bind, read_dict; rewrite Ht1; reflexivity].
      erewrite bind_ok; [|apply (all_match_present l _ w1 Hl1)].
      - fold (agrees_on (<["rng" := VRng r]> (dict_of_json o)) t).
        rewrite (agrees_on_insert_rng _ _ _ Hrng). reflexivity.
      - intros [k v] Hin. cbn.
        apply list_elem_of_In, elem_of_map_to_list in Hin.
        assert (k <> "rng") by congruence.
        rewrite lookup_insert_ne by congruence.
        unfold dict_of_json. rewrite lookup_fmap.
        destruct (Hkeys k (ex_intro _ v Hin)) as [j Hj]. rewrite Hj. eauto. }
    rewrite Hstep. cbn [List.filter].
    replace (stored_agrees fs t d) with (agrees_on (dict_of_json o) t)
      by (unfold stored_agrees; rewrite Hst; reflexivity).
    assert (Hrest : forall d0, In d0 rest -> loadable_for fs t d0)
      by (intros d0 Hin; apply Hdirs; right; exact Hin).
    destruct (agrees_on (dict_of_json o) t).
    + destruct (IH (acc_d ++ [d]) (acc_h ++ [Some l]) w1) as (hps & w' & Hrun & Hall);
        try assumption; [congruence | |].
      * apply Forall2_app; [exact Hacc1|].
        constructor; [|constructor]. exists l, o, r. auto.
      * exists hps, w'. rewrite <- app_assoc in Hrun, Hall. cbn in Hrun, Hall. auto.
    + apply (IH acc_d acc_h w1); try assumption. congruence.
Qed.

(** C2, as the code has it: a directory is returned when its stored
    hyperparameters have every key of the target with an equal ([==]) value;
    keys the target does not name are not compared.  For a target without
    an ['rng'] key and a tree whose model directories all hold a loadable
    [hparams.json] with every key of the target, [find_all_models] returns
    exactly the model directories that agree with the target, in the order
    of the walk, each with the mapping loaded from it. *)
Theorem find_all_models_agreeing `{NumpyRandom} (root : string) (hp_target : loc)
        (w : world) (t : gmap string pyval) (dirs : list string) :
  w_dicts w !! hp_target = Some t ->
  t !! "rng" = None ->
  fst (valid_model_dirs root w) = Ok dirs ->
  (forall d, In d dirs -> loadable_for (w_fs w) t d) ->
  exists hps w',
    find_all_models root hp_target w
    = (Ok (List.filter (stored_agrees (w_fs w) t) dirs, hps), w')
    /\ Forall2 (loaded_from (w_fs w) (w_dicts w'))
               (List.filter (stored_agrees (w_fs w) t) dirs) hps.
Proof.
  intros Ht Hrng Hdirs Hload.
  unfold find_all_models, bind.
  pose proof (valid_model_dirs_world root w) as Hw.
  destruct (valid_model_dirs root w) as [r w0]. cbn in Hdirs, Hw. subst r w0.
  apply (find_all_models_loop_agree (w_fs w) hp_target t Hrng dirs [] [] w);
    auto.
Qed.

Lemma find_all_models_agreeing_witness :
  exists hps w',
    find_all_models "runs" 1%positive (target_world {[ "seed" := VInt 3 ]})
    = (Ok (List.filter (stored_agrees example_tree {[ "seed" := VInt 3 ]})
                       ["runs/a"; "runs/c"; "runs/d"], hps), w')
    /\ Forall2 (loaded_from example_tree (w_dicts w'))
               (List.filter (stored_agrees example_tree {[ "seed" := VInt 3 ]})
                            ["runs/a"; "runs/c"; "runs/d"]) hps.
Proof.
  apply (find_all_models_agreeing (H := scripted_random) "runs" 1%positive
           (target_world {[ "seed" := VInt 3 ]}) {[ "seed" := VInt 3 ]}
           ["runs/a"; "runs/c"; "runs/d"]).
  - reflexivity.
  - reflexivity.
  - reflexivity.
  - intros d [<-|[<-|[<-|[]]]].
    + exists {[ "seed" := JInt 3; "n_rnn" := JInt 256 ]}, 3.
      repeat split; try reflexivity; try lia.
      intros k [v Hk]. apply lookup_singleton_Some in Hk as [<- _]. eexists. reflexivity.
    + exists {[ "seed" := JInt 4; "n_rnn" := JInt 256; "target_perf" := JFloat 0.5 ]}, 4.
      repeat split; try reflexivity; try lia.
      intros k [v Hk]. apply lookup_singleton_Some in Hk as [<- _]. eexists. reflexivity.
    + exists {[ "seed" := JInt 6; "target_perf" := JFloat 0.5 ]}, 6.
      repeat split; try reflexivity; try lia.
      intros k [v Hk]. apply lookup_singleton_Some in Hk as [<- _]. eexists. reflexivity.
Defined.

(** C2 as stated fails: [runs/a] is returned for the target [{seed: 3}]
    although its stored mapping has the field [n_rnn], which the target
    lacks. *)
Lemma find_all_models_superset_counterexample :
  fst (find_all_models "runs" 1%positive (target_world {[ "seed" := VInt 3 ]}))
  = Ok (["runs/a"], [Some 2%positive])
  /\ stored_hparams example_tree "runs/a"
     = Some {[ "seed" := JInt 3; "n_rnn" := JInt 256 ]}
  /\ dict_of_json {[ "seed" := JInt 3; "n_rnn" := JInt 256 ]} !! "n_rnn" = Some (VInt 256)
  /\ ({[ "seed" := VInt 3 ]} : gmap string pyval) !! "n_rnn" = None.
Proof. vm_compute. repeat split. Qed.

(** ** Finding one model *)

Lemma keeps_fs_bind `{NumpyRandom} {A B} (m : M A) (f : A -> M B) :
  keeps_fs m -> (forall a, keeps_fs (f a)) -> keeps_fs (bind m f).
Proof.
  intros Hm Hf w. unfold bind. specialize (Hm w).
  destruct (m w) as [[a|e] w1]; cbn in *; [|exact Hm].
  rewrite (Hf a w1). exact Hm.
Qed.

Lemma keeps_fs_ret `{NumpyRandom} {A} (a : A) : keeps_fs (ret a).
Proof. intros w. reflexivity. Qed.

Lemma keeps_fs_raise `{NumpyRandom} {A} (e : exn) : keeps_fs (raise (A := A) e).
Proof. intros w. reflexivity. Qed.

Lemma keeps_fs_read_dict `{NumpyRandom} (l : loc) : keeps_fs (read_dict l).
Proof. intros w. unfold read_dict. destruct (w_dicts w !! l); reflexivity. Qed.

Lemma keeps_fs_getitem `{NumpyRandom} (o : option loc) (key : string) :
  keeps_fs (getitem o key).
Proof.
  destruct o as [l|]; [|apply keeps_fs_raise].
  apply keeps_fs_bind; [apply keeps_fs_read_dict|].
  intros dd. destruct (dd !! key); [apply keeps_fs_ret | apply keeps_fs_raise].
Qed.

Lemma keeps_fs_read_file `{NumpyRandom} (p : string) : keeps_fs (read_file p).
Proof.
  intros w. unfold read_file.
  destruct (fs_lookup (w_fs w) p) as [[c|es]|]; reflexivity.
Qed.

Lemma keeps_fs_json_load `{NumpyRandom} (c : content) : keeps_fs (json_load c).
Proof.
  destruct c; try apply keeps_fs_raise; [|apply keeps_fs_ret].
  apply keeps_fs_bind; [intros w; reflexivity | intros l; apply keeps_fs_ret].
Qed.

Lemma keeps_fs_RandomState `{NumpyRandom} (seed : pyval) : keeps_fs (RandomState seed).
Proof.
  destruct seed; try apply keeps_fs_raise.
  unfold RandomState. destruct ((0 <=? z) && (z <? 2 ^ 32));
    [intros w; reflexivity | apply keeps_fs_raise].
Qed.

Lemma keeps_fs_py_add_1000 `{NumpyRandom} (v : pyval) : keeps_fs (py_add_1000 v).
Proof. destruct v; first [apply keeps_fs_ret | apply keeps_fs_raise]. Qed.

Lemma keeps_fs_dict_setitem `{NumpyRandom} (l : loc) (key : string) (v : pyval) :
  keeps_fs (dict_setitem l key v).
Proof.
  apply keeps_fs_bind; [apply keeps_fs_read_dict | intros dd w; reflexivity].
Qed.

(** Loading hyperparameters and comparing them writes no file. *)
Lemma load_hparams_fs `{NumpyRandom} (d : string) (w : world) :
  w_fs (snd (load_hparams d w)) = w_fs w.
Proof.
  revert w. change (keeps_fs (load_hparams d)). unfold load_hparams.
  apply keeps_fs_bind; [intros w; reflexivity|].
  intros isf. destruct (negb isf); [apply keeps_fs_ret|].
  apply keeps_fs_bind; [apply keeps_fs_read_file|]. intros c.
  apply keeps_fs_bind; [apply keeps_fs_json_load|]. intros hparams.
  apply keeps_fs_bind; [apply keeps_fs_getitem|]. intros seed.
  apply keeps_fs_bind; [apply keeps_fs_py_add_1000|]. intros seed1000.
  apply keeps_fs_bind; [apply keeps_fs_RandomState|]. intros rng.
  destruct hparams as [l|]; [|apply keeps_fs_raise].
  apply keeps_fs_bind; [apply keeps_fs_dict_setitem | intros _; apply keeps_fs_ret].
Qed.

Lemma all_match_world `{NumpyRandom} (hp : option loc) (items : list (string * pyval))
      (w : world) :
  snd (all_match hp items w) = w.
Proof.
  induction items as [|[key val] rest IH]; [reflexivity|].
  cbn [all_match]. unfold bind, getitem, bind, read_dict, ret, raise.
  destruct hp as [l|]; cbn; [|reflexivity].
  destruct (w_dicts w !! l) as [dd|]; cbn; [|reflexivity].
  destruct (dd !! key) as [v|]; cbn; [|reflexivity].
  destruct (py_eq v val); [exact IH | reflexivity].
Qed.

Lemma find_all_models_loop_fs `{NumpyRandom} (hp_target : loc) :
  forall (dirs acc_d : list string) (acc_h : list (option loc)) (w : world),
    w_fs (snd (find_all_models_loop hp_target dirs acc_d acc_h w)) = w_fs w.
Proof.
  induction dirs as [|d rest IH]; intros acc_d acc_h w; [reflexivity|].
  cbn [find_all_models_loop]. unfold bind at 1.
  pose proof (load_hparams_fs d w) as Hfs.
  destruct (load_hparams d w) as [[hp|e] w1]; cbn in Hfs; [|exact Hfs].
  unfold dict_items, bind, read_dict, ret.
  destruct (w_dicts w1 !! hp_target) as [t|]; cbn; [|exact Hfs].
  pose proof (all_match_world hp (map_to_list t) w1) as Hw.
  destruct (all_match hp (map_to_list t) w1) as [[b|e] w2]; cbn in Hw; subst w2;
    [|exact Hfs].
  destruct b; rewrite IH; exact Hfs.
Qed.

Lemma find_all_models_fs `{NumpyRandom} (root : string) (hp_target : loc) (w : world) :
  w_fs (snd (find_all_models root hp_target w)) = w_fs w.
Proof.
  unfold find_all_models, bind.
  pose proof (valid_model_dirs_world root w) as Hw.
  destruct (valid_model_dirs root w) as [[dirs|e] w0]; cbn in Hw; subst w0;
    [apply find_all_models_loop_fs | reflexivity].
Qed.

Lemma load_log_missing `{NumpyRandom} (d : string) (w : world) :
  is_file (w_fs w) (os_path_join d "log.pkl") = false -> load_log d w = (Ok None, w).
Proof. intros Hno. unfold load_log, bind, os_path_isfile. rewrite Hno. reflexivity. Qed.

(** When [load_log] returns a mapping, the file holds a pickled mapping and
    the result is a fresh dict with its fields. *)
Lemma load_log_Some `{NumpyRandom} (d : string) (w w' : world) (l : loc) :
  load_log d w = (Ok (Some l), w') ->
  exists p, stored_log (w_fs w) d = Some p /\ w_dicts w' !! l = Some (dict_of_json p).
Proof.
  unfold load_log, stored_log, bind, os_path_isfile, read_file, pickle_load, bind,
    new_dict, ret, raise.
  cbv zeta. destruct (is_file (w_fs w) (os_path_join d "log.pkl")); cbn; [|discriminate].
  destruct (fs_lookup (w_fs w) (os_path_join d "log.pkl")) as [[c|es]|]; cbn;
    try discriminate.
  destruct c; cbn; try discriminate.
  intros [= <- <-]. eexists. split; [reflexivity|]. cbn. apply lookup_insert_eq.
Qed.

Lemma py_last_Ok `{NumpyRandom} (j : json) (w w' : world) (v : pyval) :
  py_last (of_json j) w = (Ok v, w') -> json_nonempty_seq j = true.
Proof.
  destruct j as [ | | | | s | l]; cbn; try discriminate.
  - destruct s; [discriminate | reflexivity].
  - destruct l; [discriminate | reflexivity].
Qed.

(** C8: when the first directory [find_all_models] returns has no file
    [log.pkl], [find_model] raises [TypeError] ([load_log] returned [None],
    which is subscripted); and when [find_model] returns, that directory's
    [log.pkl] holds a mapping with a non-empty sequence under
    ['perf_min']. *)
Theorem find_model_needs_log `{NumpyRandom} (root : string) (hp_target : loc) (w : world)
        (d : string) (ds : list string) (hp : option loc) (hps : list (option loc)) :
  fst (find_all_models root hp_target w) = Ok (d :: ds, hp :: hps) ->
  (is_file (w_fs w) (os_path_join d "log.pkl") = false ->
   fst (find_model root hp_target w) = Raise TypeError)
  /\ (forall res, fst (find_model root hp_target w) = Ok res ->
                  exists p j, stored_log (w_fs w) d = Some p
                              /\ p !! "perf_min" = Some j
                              /\ json_nonempty_seq j = true).
Proof.
  intros Hall.
  pose proof (find_all_models_fs root hp_target w) as Hfs.
  destruct (find_all_models root hp_target w) as [r w1] eqn:Hfam.
  cbn in Hall, Hfs. subst r.
  unfold find_model. rewrite (bind_ok _ _ _ _ _ Hfam). cbv beta iota.
  rewrite <- Hfs. split.
  - intros Hno. rewrite (bind_ok _ _ _ _ _ (load_log_missing d w1 Hno)). reflexivity.
  - intros res. unfold bind at 1.
    destruct (load_log d w1) as [[[l|]|e] w2] eqn:Hlog; try discriminate.
    destruct (load_log_Some d w1 w2 l Hlog) as (p & Hp & Hl).
    unfold bind at 1. unfold getitem at 1. unfold bind at 1. unfold read_dict.
    rewrite Hl. unfold dict_of_json at 1. rewrite lookup_fmap.
    destruct (p !! "perf_min") as [j|] eqn:Hj; cbn; [|discriminate].
    unfold bind at 1.
    destruct (py_last (of_json j) w2) as [[v|e] w3] eqn:Hlast; [|discriminate].
    intros _. exists p, j. repeat split; try assumption.
    apply (py_last_Ok j w2 w3 v Hlast).
Qed.

Lemma find_model_needs_log_witness :
  fst (find_model "runs" 1%positive (target_world {[ "seed" := VInt 3 ]}))
  = Raise TypeError.
Proof.
  refine (proj1 (find_model_needs_log (H := scripted_random) "runs" 1%positive
                   (target_world {[ "seed" := VInt 3 ]})
                   "runs/a" [] (Some 2%positive) [] _) _); reflexivity.
Defined.

Example find_model_with_log :
  fst (find_model "runs" 1%positive (target_world {[ "seed" := VInt 4 ]}))
  = Ok (Some "runs/c", Some 4%positive)
  /\ w_out (snd (find_model "runs" 1%positive (target_world {[ "seed" := VInt 4 ]}))) = [].
Proof. vm_compute. split; reflexivity. Qed.

Example find_model_below_target :
  fst (find_model "runs" 1%positive (target_world {[ "seed" := VInt 6 ]}))
  = Ok (Some "runs/d", Some 6%positive)
  /\ w_out (snd (find_model "runs" 1%positive (target_world {[ "seed" := VInt 6 ]})))
     = ["Warning: the network found did not reach target performance."].
Proof. vm_compute. split; reflexivity. Qed.

Example find_model_not_found :
  fst (find_model "runs" 1%positive (target_world {[ "seed" := VInt 7 ]}))
  = Ok (None, None)
  /\ w_out (snd (find_model "runs" 1%positive (target_world {[ "seed" := VInt 7 ]})))
     = ["Model not found"].
Proof. vm_compute. split; reflexivity. Qed.

(** ** [gen_feed_dict], 'multi' encoding *)

Lemma slice_bound_nat (n len : nat) : slice_bound (Z.of_nat n) len = Nat.min n len.
Proof.
  unfold slice_bound.
  destruct (Z.of_nat n <? 0) eqn:E; [apply Z.ltb_lt in E; lia|]. lia.
Qed.

Lemma active_rule_suffix (x : ndarray3) (R i a : nat) :
  active_rule x (Z.of_nat R) i = Ok a -> (R < shape2 x)%nat.
Proof.
  unfold active_rule. rewrite slice_bound_nat.
  destruct (shape2 x - Nat.min R (shape2 x))%nat eqn:E; [discriminate|]. lia.
Qed.

Lemma multi_loop_encodes (tx : ndarray3) (R Cn : nat) (a : nat -> nat) :
  (1 <= shape0 tx)%nat ->
  (forall i, (i < shape1 tx)%nat ->
             active_rule tx (Z.of_nat R) i = Ok (a i) /\ (a i < Cn)%nat) ->
  forall (n k : nat) (x : ndarray3),
    (k + n <= shape1 tx)%nat ->
    encoded_up_to tx R Cn a k x ->
    exists x', multi_loop tx (Z.of_nat R) x (seq k n) = Ok x'
               /\ encoded_up_to tx R Cn a (k + n) x'.
Proof.
  intros HT Hrule. induction n as [|n IH]; intros k x Hk Hinv.
  - exists x. rewrite Nat.add_0_r. split; [reflexivity | exact Hinv].
  - destruct (Hrule k ltac:(lia)) as [Ha Hlt].
    pose proof (active_rule_suffix tx R k (a k) Ha) as HW.
    destruct Hinv as (H0 & H1 & H2 & Hitem).
    cbn [seq multi_loop].
    destruct (Nat.eqb (shape0 tx) 0) eqn:E0; [apply Nat.eqb_eq in E0; lia|].
    rewrite Ha. cbn [result_bind]. unfold assign_block.
    replace (Z.of_nat (a k) * Z.of_nat R) with (Z.of_nat (a k * R)) by lia.
    replace (Z.of_nat (a k * R) + Z.of_nat R) with (Z.of_nat (a k * R + R)) by lia.
    rewrite !slice_bound_nat, H2.
    assert (Hfit : (a k * R + R <= R * Cn)%nat) by nia.
    replace (Nat.min (a k * R) (R * Cn)) with (a k * R)%nat by lia.
    replace (Nat.min (a k * R + R) (R * Cn)) with (a k * R + R)%nat by lia.
    replace (Nat.min R (shape2 tx)) with R by lia.
    replace (a k * R + R - a k * R)%nat with R by lia.
    rewrite Nat.eqb_refl. cbn [orb result_bind].
    replace (k + S n)%nat with (S k + n)%nat by lia.
    apply IH; [lia|].
    repeat split; try assumption. cbn [item].
    intros t i j. rewrite Hitem. unfold multi_item.
    destruct (Nat.eqb i k) eqn:Eik.
    + apply Nat.eqb_eq in Eik. subst i.
      replace (Nat.ltb k k) with false by (symmetry; apply Nat.ltb_ge; lia).
      replace (Nat.ltb k (S k)) with true by (symmetry; apply Nat.ltb_lt; lia).
      cbn [andb]. destruct (Nat.leb (a k * R) j && Nat.ltb j (a k * R + R)); reflexivity.
    + apply Nat.eqb_neq in Eik. cbn [andb].
      destruct (Nat.ltb i k) eqn:Elt.
      * replace (Nat.ltb i (S k)) with true
          by (symmetry; apply Nat.ltb_lt; apply Nat.ltb_lt in Elt; lia).
        reflexivity.
      * replace (Nat.ltb i (S k)) with false
          by (symmetry; apply Nat.ltb_ge; apply Nat.ltb_ge in Elt; lia).
        reflexivity.
Qed.

(** C4, as the code has it: for [in_type = 'multi'], block size [R] and
    rule count [Cn], a trial with at least one time step in which every
    sample has a rule indicator (the entries from [R] on, at time 0) whose
    argmax [a i] is below [Cn], [gen_feed_dict] returns an input of shape
    [T, B, R*Cn] whose entry [(t, i, j)] is the float32 value of the
    sample's input [x[t, i, j - a i * R]] for [j] in the block of width
    [R] at [a i * R], and zero elsewhere; [y] and [c_mask] are the
    trial's. *)
Theorem gen_feed_dict_multi {Y C : Type} (trial : Trial Y C) (hparams : gmap string pyval)
        (R Cn : nat) (a : nat -> nat) :
  hparams !! "in_type" = Some (VStr "multi") ->
  hparams !! "rule_start" = Some (VInt (Z.of_nat R)) ->
  hparams !! "n_rule" = Some (VInt (Z.of_nat Cn)) ->
  (1 <= shape0 (trial_x trial))%nat ->
  (forall i, (i < shape1 (trial_x trial))%nat ->
             active_rule (trial_x trial) (Z.of_nat R) i = Ok (a i) /\ (a i < Cn)%nat) ->
  exists fd,
    gen_feed_dict trial hparams = Ok fd
    /\ shape0 (feed_x fd) = shape0 (trial_x trial)
    /\ shape1 (feed_x fd) = shape1 (trial_x trial)
    /\ shape2 (feed_x fd) = (R * Cn)%nat
    /\ (forall t i j,
          (t < shape0 (trial_x trial))%nat -> (i < shape1 (trial_x trial))%nat ->
          (j < R * Cn)%nat ->
          item (feed_x fd) t i j = multi_item (trial_x trial) R a t i j)
    /\ feed_y fd = trial_y trial
    /\ feed_c_mask fd = trial_c_mask trial.
Proof.
  intros Hin HR HC HT Hrule.
  unfold gen_feed_dict, dict_get. rewrite Hin. cbn [result_bind].
  replace (py_eq (VStr "multi") (VStr "normal")) with false by reflexivity.
  replace (py_eq (VStr "multi") (VStr "multi")) with true by reflexivity.
  rewrite HR, HC. cbn [result_bind as_int].
  destruct (Z.of_nat R * Z.of_nat Cn <? 0) eqn:E; [apply Z.ltb_lt in E; lia|].
  replace (Z.to_nat (Z.of_nat R * Z.of_nat Cn)) with (R * Cn)%nat by lia.
  destruct (multi_loop_encodes (trial_x trial) R Cn a HT Hrule
              (shape1 (trial_x trial)) 0
              (np_zeros3 (shape0 (trial_x trial)) (shape1 (trial_x trial)) (R * Cn)))
    as (x' & Hloop & H0 & H1 & H2 & Hitem).
  - lia.
  - repeat split. 
  - rewrite Hloop. cbn [result_bind]. eexists. split; [reflexivity|]. cbn.
    repeat split; try assumption.
    intros t i j _ Hi _. rewrite Hitem.
    replace (Nat.ltb i (0 + shape1 (trial_x trial))) with true
      by (symmetry; apply Nat.ltb_lt; lia).
    reflexivity.
Qed.

Lemma gen_feed_dict_multi_witness :
  exists fd,
    gen_feed_dict example_trial example_multi_hp = Ok fd
    /\ shape0 (feed_x fd) = 2%nat
    /\ shape1 (feed_x fd) = 2%nat
    /\ shape2 (feed_x fd) = (2 * 2)%nat
    /\ (forall t i j,
          (t < 2)%nat -> (i < 2)%nat -> (j < 2 * 2)%nat ->
          item (feed_x fd) t i j
          = multi_item (trial_x example_trial) 2 (fun i => 1 - i)%nat t i j)
    /\ feed_y fd = tt
    /\ feed_c_mask fd = tt.
Proof.
  apply (gen_feed_dict_multi example_trial example_multi_hp 2 2 (fun i => 1 - i)%nat).
  - reflexivity.
  - reflexivity.
  - reflexivity.
  - simpl. lia.
  - intros [|[|i]] Hi.
    + split; [reflexivity | simpl; lia].
    + split; [reflexivity | simpl; lia].
    + simpl in Hi. lia.
Defined.

Example gen_feed_dict_multi_entries :
  match gen_feed_dict example_trial example_multi_hp with
  | Ok fd => map (fun j => item (feed_x fd) 1 0 j) (seq 0 4)
  | Raise _ => []
  end = [0; 0; 3; 4]%float.
Proof. reflexivity. Qed.

(** C4 as stated fails for a trial whose rule indicator is wider than
    [n_rule]: with [R = 2] and [n_rule = 1], the sample [5, 6, 0, 1] has
    its argmax at 1, the block at offset 2 lies outside the output of
    width 2, and the slice assignment raises [ValueError]. *)
Lemma gen_feed_dict_wide_indicator_counterexample :
  gen_feed_dict
    {| trial_x := {| shape0 := 1; shape1 := 1; shape2 := 4;
                     item := fun _ _ j => nth j [5; 6; 0; 1]%float 0%float |};
       trial_y := tt; trial_c_mask := tt |}
    {[ "in_type" := VStr "multi"; "rule_start" := VInt 2; "n_rule" := VInt 1 ]}
  = Raise ValueError.
Proof. reflexivity. Qed.

(** * Further properties of the module *)

(** ** Paths *)

Lemma path_components_fold (p : string) :
  path_components p = rev (fold_left norm_step (split_path p "") []).
Proof. reflexivity. Qed.


(** ** Paths: the components of a joined path *)

Lemma append_nil_r (a : string) : a +:+ "" = a.
Proof. induction a as [|c a IH]; [reflexivity | rewrite append_cons, IH; reflexivity]. Qed.

Lemma split_path_app (a b cur : string) :
  split_path (a +:+ b) cur = split_path_init a cur ++ split_path b (split_path_last a cur).
Proof.
  revert cur. induction a as [|c a IH]; intros cur; [reflexivity|].
  rewrite append_cons. cbn [split_path split_path_init split_path_last app].
  destruct (Ascii.eqb c "/"); cbn [app]; rewrite IH; reflexivity.
Qed.

Lemma split_path_no_slash (b cur : string) :
  forallb (fun c => negb (Ascii.eqb c "/")) (list_ascii_of_string b) = true ->
  split_path b cur = [cur +:+ b].
Proof.
  revert cur. induction b as [|c b IH]; intros cur Hb; cbn [split_path].
  - rewrite append_nil_r. reflexivity.
  - cbn in Hb. apply andb_true_iff in Hb as [Hc Hb].
    apply negb_true_iff in Hc. rewrite Hc, IH by exact Hb.
    f_equal. clear. induction cur as [|x cur IHc]; [reflexivity|].
    rewrite !append_cons, IHc. reflexivity.
Qed.

Lemma split_path_init_last (a cur : string) :
  split_path a cur = split_path_init a cur ++ [split_path_last a cur].
Proof.
  revert cur. induction a as [|c a IH]; intros cur;
    cbn [split_path split_path_init split_path_last app]; [reflexivity|].
  destruct (Ascii.eqb c "/"); cbn [app]; rewrite IH; reflexivity.
Qed.

Lemma ends_with_slash_cons (c : ascii) (a : string) :
  ends_with_slash (String c a)
  = match a with
    | EmptyString => Ascii.eqb c "/"
    | String _ _ => ends_with_slash a
    end.
Proof.
  unfold ends_with_slash. cbn [list_ascii_of_string]. 
  destruct a as [|c' a']; [reflexivity|].
  cbn [list_ascii_of_string]. 
  change (rev (c :: c' :: list_ascii_of_string a'))
    with (rev (c' :: list_ascii_of_string a') ++ [c]).
  destruct (rev (c' :: list_ascii_of_string a')) as [|x r] eqn:E; [|reflexivity].
  apply (f_equal (@length ascii)) in E. rewrite length_rev in E. discriminate.
Qed.

Lemma split_path_last_slash (a cur : string) :
  ends_with_slash a = true -> split_path_last a cur = "".
Proof.
  revert cur. induction a as [|c a IH]; intros cur Ha; [discriminate|].
  rewrite ends_with_slash_cons in Ha. cbn.
  destruct a as [|c' a'].
  - rewrite Ha. reflexivity.
  - destruct (Ascii.eqb c "/"); apply IH; exact Ha.
Qed.

Lemma valid_name_nonempty (name : string) : valid_name name = true -> name <> "".
Proof. intros Hv ->. discriminate. Qed.

Lemma valid_name_no_prefix_slash (name : string) :
  valid_name name = true -> String.prefix "/" name = false.
Proof.
  unfold valid_name. intros Hv.
  apply andb_true_iff in Hv as [Hv Hs]. 
  destruct name as [|c name]; [reflexivity|].
  cbn in Hs. apply andb_true_iff in Hs as [Hc _]. apply negb_true_iff in Hc.
  cbn [String.prefix].
  destruct (ascii_dec "/" c) as [e|Hne]; [|reflexivity].
  subst c. rewrite Ascii.eqb_refl in Hc. discriminate.
Qed.

Lemma norm_step_valid (name : string) (st : list string) :
  valid_name name = true -> norm_step st name = name :: st.
Proof.
  unfold valid_name, norm_step. intros Hv.
  apply andb_true_iff in Hv as [Hv _]. apply andb_true_iff in Hv as [Hv H2].
  apply andb_true_iff in Hv as [H0 H1].
  apply negb_true_iff in H0, H1, H2. rewrite H0, H1, H2. reflexivity.
Qed.

(** Joining a valid name to a path adds one component. *)
Lemma path_components_join (top name : string) :
  valid_name name = true ->
  path_components (os_path_join top name) = path_components top ++ [name].
Proof.
  intros Hv.
  assert (Hns : forallb (fun c => negb (Ascii.eqb c "/")) (list_ascii_of_string name) = true)
    by (unfold valid_name in Hv; apply andb_true_iff in Hv as [_ Hs]; exact Hs).
  unfold os_path_join. rewrite (valid_name_no_prefix_slash name Hv).
  rewrite !path_components_fold.
  destruct (String.eqb top "" || ends_with_slash top) eqn:E.
  - assert (Hlast : split_path_last top "" = "").
    { apply orb_true_iff in E as [E|E].
      - apply String.eqb_eq in E. subst top. reflexivity.
      - apply split_path_last_slash, E. }
    rewrite split_path_app, (split_path_init_last top ""), Hlast.
    rewrite (split_path_no_slash name "" Hns), append_nil_l.
    rewrite !fold_left_app. cbn [fold_left].
    rewrite (norm_step_valid name _ Hv). reflexivity.
  - rewrite split_path_app, append_cons, append_nil_l. cbn [split_path].
    replace (Ascii.eqb "/" "/") with true by reflexivity.
    rewrite (split_path_no_slash name "" Hns), append_nil_l.
    rewrite (split_path_init_last top "").
    rewrite !fold_left_app. cbn [fold_left].
    rewrite (norm_step_valid name _ Hv). reflexivity.
Qed.

(** ** Directories *)

Lemma lookup_set_entry_ne name name' ch es :
  name' <> name -> lookup_entry name' (set_entry name ch es) = lookup_entry name' es.
Proof.
  intros Hne. induction es as [|[n old] es IH]; simpl.
  - destruct (String.eqb name name') eqn:E; [|reflexivity].
    apply String.eqb_eq in E. congruence.
  - destruct (String.eqb n name) eqn:E; simpl.
    + apply String.eqb_eq in E. subst n.
      destruct (String.eqb name name') eqn:E'; [|reflexivity].
      apply String.eqb_eq in E'. congruence.
    + destruct (String.eqb n name'); [reflexivity | exact IH].
Qed.

Lemma resolve_app : forall cs n cs',
  resolve n (cs ++ cs')
  = match resolve n cs with
    | Some m => resolve m cs'
    | None => None
    end.
Proof.
  induction cs as [|c cs IH]; intros n cs'; [reflexivity|].
  cbn [app resolve]. destruct n as [c0|es]; [reflexivity|].
  destruct (lookup_entry c es) as [ch|]; [apply IH | reflexivity].
Qed.

Lemma resolve_new_dirs (cs : list string) : resolve (new_dirs cs) cs = Some (Dir []).
Proof.
  induction cs as [|c cs IH]; [reflexivity|].
  cbn. rewrite String.eqb_refl. exact IH.
Qed.

(** A path that resolves has a file on it exactly when it ends in one. *)
Lemma file_on_path_resolve : forall cs n m,
  resolve n cs = Some m ->
  file_on_path n cs = match m with File _ => true | Dir _ => false end.
Proof.
  induction cs as [|c cs IH]; intros n m Hr.
  - inversion Hr; subst. destruct m; reflexivity.
  - destruct n as [c0|es]; [discriminate|]. cbn in Hr |- *.
    destruct (lookup_entry c es) as [ch|]; [apply IH, Hr | discriminate].
Qed.

(** What [os.makedirs] does, by what the path names before the call *)
Lemma mkdirs_at_cases : forall cs n,
  match mkdirs_at n cs with
  | inl n' =>
      resolve n cs = None /\ file_on_path n cs = false /\ resolve n' cs = Some (Dir [])
  | inr EEXIST => is_Some (resolve n cs)
  | inr ENOTDIR => resolve n cs = None /\ file_on_path n cs = true
  | inr ENOENT => False
  end.
Proof.
  induction cs as [|c cs IH]; intros n.
  - cbn. eauto.
  - destruct n as [c0|es]; cbn [mkdirs_at resolve file_on_path]; [split; reflexivity|].
    destruct (lookup_entry c es) as [ch|] eqn:Hl.
    + specialize (IH ch). destruct (mkdirs_at ch cs) as [ch'|[]]; try exact IH.
      destruct IH as (H1 & H2 & H3). repeat split; try assumption.
      cbn. rewrite lookup_set_entry. exact H3.
    + repeat split. cbn. rewrite lookup_set_entry. apply resolve_new_dirs.
Qed.

(** [os.makedirs] keeps what was there: a path that named a file names a
    file of the same content, a path that named a directory names a
    directory. *)
Lemma mkdirs_at_keeps : forall cs n n',
  mkdirs_at n cs = inl n' ->
  forall cs' m, resolve n cs' = Some m ->
                exists m', resolve n' cs' = Some m' /\ same_kind m m'.
Proof.
  induction cs as [|c cs IH]; intros n n' Hmk cs' m Hr; [discriminate|].
  destruct n as [c0|es]; [discriminate|]. cbn in Hmk.
  destruct cs' as [|c' cs'].
  - inversion Hr; subst m.
    destruct (lookup_entry c es) as [ch|]; [destruct (mkdirs_at ch cs)|];
      inversion Hmk; subst; eexists; split; reflexivity || exact I.
  - cbn in Hr. destruct (lookup_entry c' es) as [ch'|] eqn:Hl'; [|discriminate].
    destruct (String.eqb_spec c' c) as [->|Hne].
    + rewrite Hl' in Hmk.
      destruct (mkdirs_at ch' cs) as [ch2|] eqn:Hch; inversion Hmk; subst.
      cbn. rewrite lookup_set_entry. apply (IH ch' ch2 Hch cs' m Hr).
    + assert (Hsame : forall x, lookup_entry c' (set_entry c x es) = Some ch')
        by (intros x; rewrite lookup_set_entry_ne by exact Hne; exact Hl').
      exists m. split; [|destruct m; cbn; auto].
      destruct (lookup_entry c es) as [ch|]; [destruct (mkdirs_at ch cs)|];
        inversion Hmk; subst; cbn; rewrite Hsame; exact Hr.
Qed.

Lemma is_dir_nonempty (fs : node) (p : string) : is_dir fs p = true -> p <> "".
Proof. unfold is_dir, fs_lookup. intros Hd ->. discriminate. Qed.

Lemma is_dir_resolve (fs : node) (p : string) :
  p <> "" ->
  is_dir fs p = true <-> exists es, resolve fs (path_components p) = Some (Dir es).
Proof.
  intros Hp. unfold is_dir. rewrite (fs_lookup_resolve fs p Hp). split.
  - destruct (resolve fs (path_components p)) as [[c|es]|]; try discriminate. eauto.
  - intros [es ->]. reflexivity.
Qed.

(** *** [mkdir_p] *)

(** X2: the outcome of [mkdir_p(path)], for a path without ['..']
    components.  It returns when the path is not empty and no file lies on
    it, the path then names a directory, and nothing but the file system has
    changed; it raises [OSError], and changes nothing, when the path is
    empty or a file lies on it. *)
Theorem mkdir_p_outcome `{NumpyRandom} (path : string) (w : world) :
  plain_path path = true ->
  (path <> "" -> file_on_path (w_fs w) (path_components path) = false ->
   exists w', mkdir_p path w = (Ok tt, w')
              /\ is_dir (w_fs w') path = true
              /\ w_dicts w' = w_dicts w /\ w_rngs w' = w_rngs w
              /\ w_global_rng w' = w_global_rng w /\ w_out w' = w_out w)
  /\ (path = "" \/ file_on_path (w_fs w) (path_components path) = true ->
      mkdir_p path w = (Raise OSError, w)).
Proof.
  intros _. unfold mkdir_p, os_makedirs. split.
  - intros Hne Hfree.
    destruct (String.eqb_spec path "") as [->|_]; [congruence|].
    pose proof (mkdirs_at_cases (path_components path) (w_fs w)) as Hc.
    destruct (mkdirs_at (w_fs w) (path_components path)) as [fs'|[]].
    + destruct Hc as (_ & _ & Hdir). eexists. split; [reflexivity|]. cbn.
      repeat split. apply (is_dir_resolve _ _ Hne). eauto.
    + destruct Hc as [m Hm].
      rewrite (file_on_path_resolve _ _ _ Hm) in Hfree.
      destruct m as [c|es]; [discriminate|].
      assert (Hd : is_dir (w_fs w) path = true)
        by (apply (is_dir_resolve _ _ Hne); eauto).
      rewrite Hd. exists w. repeat split. exact Hd.
    + destruct Hc.
    + destruct Hc as [_ Hc]. congruence.
  - intros [->|Hfile]; [reflexivity|].
    destruct (String.eqb_spec path "") as [->|Hne]; [reflexivity|].
    pose proof (mkdirs_at_cases (path_components path) (w_fs w)) as Hc.
    destruct (mkdirs_at (w_fs w) (path_components path)) as [fs'|[]].
    + destruct Hc as (_ & Hc & _). congruence.
    + destruct Hc as [m Hm].
      rewrite (file_on_path_resolve _ _ _ Hm) in Hfile.
      destruct m as [c|es]; [|discriminate].
      unfold is_dir. rewrite (fs_lookup_resolve _ _ Hne), Hm. reflexivity.
    + reflexivity.
    + reflexivity.
Qed.

(** X3: [mkdir_p] can be repeated: after a call that returned, a second
    call with the same path returns as well and changes nothing. *)
Theorem mkdir_p_idempotent `{NumpyRandom} (path : string) (w w1 : world) :
  plain_path path = true ->
  mkdir_p path w = (Ok tt, w1) ->
  mkdir_p path w1 = (Ok tt, w1).
Proof.
  intros _. unfold mkdir_p, os_makedirs.
  destruct (String.eqb_spec path "") as [|Hp]; [discriminate|].
  pose proof (mkdirs_at_cases (path_components path) (w_fs w)) as Hc.
  destruct (mkdirs_at (w_fs w) (path_components path)) as [fs'|[]] eqn:Hmk.
  - destruct Hc as (_ & _ & Hdir). intros [= <-]. cbn [w_fs].
    pose proof (mkdirs_at_cases (path_components path) fs') as Hc'.
    destruct (mkdirs_at fs' (path_components path)) as [fs2|[]].
    + destruct Hc' as (Hc' & _). congruence.
    + unfold is_dir. rewrite (fs_lookup_resolve _ _ Hp), Hdir. reflexivity.
    + destruct Hc'.
    + destruct Hc' as (Hc' & _). congruence.
  - destruct (is_dir (w_fs w) path) eqn:Hd; [|discriminate].
    intros [= <-]. rewrite Hmk, Hd. reflexivity.
  - discriminate.
  - discriminate.
Qed.

(** X4: [mkdir_p] keeps what the tree held: after a call that returned,
    every path that named a file names a file of the same content, and
    every path that named a directory names a directory. *)
Theorem mkdir_p_keeps_entries `{NumpyRandom} (path : string) (w w1 : world) :
  plain_path path = true ->
  mkdir_p path w = (Ok tt, w1) ->
  (forall q c, fs_lookup (w_fs w) q = Some (File c) -> fs_lookup (w_fs w1) q = Some (File c))
  /\ (forall q, is_dir (w_fs w) q = true -> is_dir (w_fs w1) q = true).
Proof.
  intros _. unfold mkdir_p, os_makedirs.
  destruct (String.eqb path ""); [discriminate|].
  destruct (mkdirs_at (w_fs w) (path_components path)) as [fs'|[]] eqn:Hmk.
  - intros [= <-]. cbn [w_fs]. split.
    + intros q c Hq. apply fs_lookup_Some in Hq as [Hne Hq].
      destruct (mkdirs_at_keeps _ _ _ Hmk _ _ Hq) as ([c'|es'] & Hr & Hk);
        cbn in Hk; [|contradiction].
      rewrite (fs_lookup_resolve _ _ Hne), Hr, Hk. reflexivity.
    + intros q Hq. pose proof (is_dir_nonempty _ _ Hq) as Hne.
      apply (is_dir_resolve _ _ Hne) in Hq as [es Hq].
      destruct (mkdirs_at_keeps _ _ _ Hmk _ _ Hq) as ([c'|es'] & Hr & Hk);
        cbn in Hk; [contradiction|].
      apply (is_dir_resolve _ _ Hne). eauto.
  - destruct (is_dir (w_fs w) path); [|discriminate].
    intros [= <-]. split; auto.
  - discriminate.
  - discriminate.
Qed.

Lemma mkdir_p_outcome_witness :
  exists w', mkdir_p "runs/e/f" example_world = (Ok tt, w')
             /\ is_dir (w_fs w') "runs/e/f" = true
             /\ w_dicts w' = w_dicts example_world /\ w_rngs w' = w_rngs example_world
             /\ w_global_rng w' = w_global_rng example_world
             /\ w_out w' = w_out example_world.
Proof.
  apply (proj1 (mkdir_p_outcome (H := scripted_random) "runs/e/f" example_world eq_refl));
    [discriminate | reflexivity].
Defined.

Lemma mkdir_p_idempotent_witness :
  mkdir_p "runs/e/f" (snd (mkdir_p "runs/e/f" example_world))
  = (Ok tt, snd (mkdir_p "runs/e/f" example_world)).
Proof.
  apply (mkdir_p_idempotent (H := scripted_random) "runs/e/f" example_world);
    reflexivity.
Defined.

Lemma mkdir_p_keeps_entries_witness :
  fs_lookup (w_fs (snd (mkdir_p "runs/a/x" example_world))) "runs/a/model.ckpt-100.index"
  = Some (File COther)
  /\ is_dir (w_fs (snd (mkdir_p "runs/a/x" example_world))) "runs/b" = true.
Proof.
  destruct (mkdir_p_keeps_entries (H := scripted_random) "runs/a/x" example_world
              (snd (mkdir_p "runs/a/x" example_world)) eq_refl eq_refl) as [Hf Hd].
  split; [apply Hf | apply Hd]; reflexivity.
Defined.

(** ** Writing files *)

Lemma resolve_file_inv c cs m : resolve (File c) cs = Some m -> cs = [] /\ m = File c.
Proof. destruct cs; [intros [= <-]; auto | discriminate]. Qed.

(** A write keeps every other path: one that named a file names a file of
    the same content, one that named a directory names a directory. *)
Lemma write_at_keeps : forall cs n c n',
  write_at n cs c = Some n' ->
  forall cs' m, cs' <> cs -> resolve n cs' = Some m ->
                exists m', resolve n' cs' = Some m' /\ same_kind m m'.
Proof.
  induction cs as [|name cs IH]; intros n c n' Hw cs' m Hne Hr; [discriminate|].
  destruct n as [c0|es]; [destruct cs; discriminate|].
  destruct cs' as [|c' cs'].
  - inversion Hr; subst m.
    assert (Hd : exists es', n' = Dir es').
    { destruct cs as [|name' cs1].
      - simpl in Hw. destruct (lookup_entry name es) as [[?|?]|]; inversion Hw; eauto.
      - rewrite write_at_deeper in Hw.
        destruct (lookup_entry name es) as [ch|]; [|discriminate].
        destruct (write_at ch (name' :: cs1) c); inversion Hw; eauto. }
    destruct Hd as [es' ->]. eexists. split; [reflexivity | exact I].
  - cbn in Hr. destruct (lookup_entry c' es) as [ch'|] eqn:Hl'; [|discriminate].
    assert (Hsk : same_kind m m) by (destruct m; cbn; auto).
    destruct (String.eqb_spec c' name) as [->|Hn].
    + destruct cs as [|name' cs1].
      * simpl in Hw. rewrite Hl' in Hw. destruct ch' as [c1|es1]; [|discriminate].
        apply resolve_file_inv in Hr as [-> _]. congruence.
      * rewrite write_at_deeper, Hl' in Hw.
        destruct (write_at ch' (name' :: cs1) c) as [ch2|] eqn:Hch; [|discriminate].
        inversion Hw; subst. cbn. rewrite lookup_set_entry.
        apply (IH ch' c ch2 Hch cs' m); [congruence | exact Hr].
    + assert (Hsame : forall x, lookup_entry c' (set_entry name x es) = Some ch')
        by (intros x; rewrite lookup_set_entry_ne by exact Hn; exact Hl').
      exists m. split; [|exact Hsk].
      destruct cs as [|name' cs1].
      * simpl in Hw. destruct (lookup_entry name es) as [[?|?]|]; inversion Hw; subst;
          cbn; rewrite Hsame; exact Hr.
      * rewrite write_at_deeper in Hw.
        destruct (lookup_entry name es) as [ch|]; [|discriminate].
        destruct (write_at ch (name' :: cs1) c); inversion Hw; subst.
        cbn. rewrite Hsame. exact Hr.
Qed.

(** A file can be written in a directory under a name that is not the name
    of a directory in it. *)
Lemma write_at_in_dir : forall cs n es name c,
  resolve n cs = Some (Dir es) ->
  (forall es', lookup_entry name es <> Some (Dir es')) ->
  exists n', write_at n (cs ++ [name]) c = Some n'.
Proof.
  induction cs as [|c0 cs IH]; intros n es name c Hr Hnd.
  - inversion Hr; subst. cbn.
    destruct (lookup_entry name es) as [[?|es']|]; eauto.
    exfalso. apply (Hnd es'). reflexivity.
  - destruct n as [c1|es0]; [discriminate|]. cbn in Hr.
    destruct (lookup_entry c0 es0) as [ch|] eqn:Hl; [|discriminate].
    destruct (IH ch es name c Hr Hnd) as [ch' Hch].
    cbn [app]. destruct (cs ++ [name]) as [|x xs] eqn:E; [destruct cs; discriminate|].
    rewrite write_at_deeper, Hl, Hch. eauto.
Qed.

Lemma write_file_keeps `{NumpyRandom} (p : string) (c : content) (w : world)
      (q : string) (c0 : content) :
  path_components q <> path_components p ->
  fs_lookup (w_fs w) q = Some (File c0) ->
  fs_lookup (w_fs (snd (write_file p c w))) q = Some (File c0).
Proof.
  intros Hne Hq. unfold write_file, fs_write.
  destruct (write_at (w_fs w) (path_components p) c) as [fs'|] eqn:Hw; [|exact Hq].
  apply fs_lookup_Some in Hq as [Hq0 Hq].
  cbn. destruct (write_at_keeps _ _ _ _ Hw _ _ Hne Hq) as ([c'|es'] & Hr & Hk);
    cbn in Hk; [|contradiction].
  rewrite (fs_lookup_resolve _ _ Hq0), Hr, Hk. reflexivity.
Qed.

(** *** [save_log] and [load_log] *)

(** X5: a log of plain data that names its directory under ['train_dir']
    is read back as it was saved: when [log.pkl] can be written there,
    [save_log(log)] returns, changes no object of the store, and
    [load_log] of the directory then returns a new mapping with the fields of
    [log]. *)
Theorem save_log_load_log_roundtrip `{NumpyRandom} (log : loc) (w : world)
        (d : gmap string pyval) (dir : string) :
  w_dicts w !! log = Some d ->
  d !! "train_dir" = Some (VStr dir) ->
  is_Some (dict_to_json d) ->
  writable (w_fs w) (os_path_join dir "log.pkl") = true ->
  exists w1 l w2,
    save_log log w = (Ok tt, w1)
    /\ w_dicts w1 = w_dicts w /\ w_rngs w1 = w_rngs w
    /\ load_log dir w1 = (Ok (Some l), w2)
    /\ w_dicts w1 !! l = None
    /\ w_dicts w2 !! l = Some d
    /\ w_dicts w2 !! log = Some d.
Proof.
  intros Hd Hdir [o Ho] Hwr.
  unfold writable in Hwr.
  destruct (fs_write (w_fs w) (os_path_join dir "log.pkl") COther) as [fs1|] eqn:Hw1;
    [clear Hwr|discriminate].
  destruct (write_at_again _ _ _ _ (CPickleDict o) Hw1) as [fs2 Hw2].
  pose proof (resolve_write_at _ _ _ _ Hw2) as Hread.
  set (w1 := {| w_dicts := w_dicts w; w_rngs := w_rngs w;
                w_global_rng := w_global_rng w; w_fs := fs2; w_out := w_out w |}).
  assert (Hsave : save_log log w = (Ok tt, w1)).
  { unfold save_log, getitem, py_path_join, open_wb, pickle_dump, bind, read_dict,
      write_file, ret.
    rewrite Hd, Hdir. cbn. rewrite Hw1. cbn. rewrite Hd, Ho. cbn.
    unfold fs_write. rewrite Hw2. reflexivity. }
  exists w1, (fresh_loc w1). eexists.
  split; [exact Hsave|]. split; [reflexivity|]. split; [reflexivity|].
  assert (Hfresh : w_dicts w1 !! fresh_loc w1 = None) by apply fresh_loc_not_dict.
  rewrite <- fs_lookup_join in Hread by discriminate.
  split; [|split; [exact Hfresh|]].
  - unfold load_log, bind, os_path_isfile, is_file, read_file. cbv zeta.
    cbn [w_fs w1]. rewrite Hread. cbn. rewrite Hread. cbn.
    unfold new_dict, bind, ret. cbn. reflexivity.
  - cbn. rewrite (dict_to_json_Some _ _ Ho). split; [apply lookup_insert_eq|].
    rewrite lookup_insert_ne; [exact Hd|].
    intros E. cbn in Hfresh. rewrite E, Hd in Hfresh. discriminate.
Qed.

Lemma save_log_load_log_roundtrip_witness :
  exists w1 l w2,
    save_log 1%positive log_world = (Ok tt, w1)
    /\ w_dicts w1 = w_dicts log_world /\ w_rngs w1 = w_rngs log_world
    /\ load_log "runs/b" w1 = (Ok (Some l), w2)
    /\ w_dicts w1 !! l = None
    /\ w_dicts w2 !! l = Some example_log
    /\ w_dicts w2 !! 1%positive = Some example_log.
Proof.
  apply (save_log_load_log_roundtrip (H := scripted_random) 1%positive log_world
           example_log "runs/b").
  - reflexivity.
  - reflexivity.
  - eexists. vm_compute. reflexivity.
  - reflexivity.
Defined.

Lemma keeps_file_bind `{NumpyRandom} {A B} (q : string) (c : content)
      (m : M A) (f : A -> M B) :
  keeps_file q c m -> (forall a, keeps_file q c (f a)) -> keeps_file q c (bind m f).
Proof.
  intros Hm Hf w Hq. unfold bind. specialize (Hm w Hq).
  destruct (m w) as [[a|e] w1]; cbn in *; [|exact Hm].
  apply (Hf a w1 Hm).
Qed.

Lemma keeps_fs_file `{NumpyRandom} {A} (q : string) (c : content) (m : M A) :
  (forall w, w_fs (snd (m w)) = w_fs w) -> keeps_file q c m.
Proof. intros Hm w Hq. rewrite Hm. exact Hq. Qed.

Lemma dict_copy_fs `{NumpyRandom} (l : loc) (w : world) :
  w_fs (snd (dict_copy l w)) = w_fs w.
Proof. unfold dict_copy, bind, read_dict, new_dict. destruct (w_dicts w !! l); reflexivity. Qed.

Lemma dict_pop_fs `{NumpyRandom} (l : loc) (key : string) (w : world) :
  w_fs (snd (dict_pop l key w)) = w_fs w.
Proof.
  unfold dict_pop, bind, read_dict, write_dict, ret, raise.
  destruct (w_dicts w !! l) as [d|]; [|reflexivity].
  destruct (d !! key); reflexivity.
Qed.

Lemma keeps_file_open_wb `{NumpyRandom} (p q : string) (c : content) :
  path_components q <> path_components p -> keeps_file q c (open_wb p).
Proof.
  intros Hne. apply keeps_file_bind.
  - intros w Hq. apply write_file_keeps; assumption.
  - intros _. apply keeps_fs_file. reflexivity.
Qed.

Lemma keeps_file_json_dump `{NumpyRandom} (l : loc) (p q : string) (c : content) :
  path_components q <> path_components p -> keeps_file q c (json_dump l p).
Proof.
  intros Hne. apply keeps_file_bind.
  - apply keeps_fs_file. apply keeps_fs_read_dict.
  - intros d. destruct (dict_to_json d).
    + intros w Hq. apply write_file_keeps; assumption.
    + apply keeps_fs_file. reflexivity.
Qed.

Lemma keeps_file_pickle_dump `{NumpyRandom} (l : loc) (p q : string) (c : content) :
  path_components q <> path_components p -> keeps_file q c (pickle_dump l p).
Proof.
  intros Hne. apply keeps_file_bind.
  - apply keeps_fs_file. apply keeps_fs_read_dict.
  - intros d. destruct (dict_to_json d); intros w Hq; apply write_file_keeps; assumption.
Qed.

Lemma keeps_file_bind_val `{NumpyRandom} {A B} (q : string) (c : content)
      (Q : A -> Prop) (m : M A) (f : A -> M B) :
  (forall w a w1, m w = (Ok a, w1) -> Q a) ->
  keeps_file q c m -> (forall a, Q a -> keeps_file q c (f a)) ->
  keeps_file q c (bind m f).
Proof.
  intros HQ Hm Hf w Hq. unfold bind. specialize (Hm w Hq). specialize (HQ w).
  destruct (m w) as [[a|e] w1]; cbn in *; [|exact Hm].
  apply (Hf a (HQ a w1 eq_refl) w1 Hm).
Qed.

Lemma open_wb_value `{NumpyRandom} (p : string) (w w1 : world) (a : string) :
  open_wb p w = (Ok a, w1) -> a = p.
Proof.
  unfold open_wb, bind, write_file, ret.
  destruct (fs_write (w_fs w) p COther); [intros [= <- _]; reflexivity | discriminate].
Qed.

Lemma keeps_file_open_then `{NumpyRandom} {B} (p q : string) (c : content)
      (f : string -> M B) :
  path_components q <> path_components p ->
  keeps_file q c (f p) -> keeps_file q c (bind (open_wb p) f).
Proof.
  intros Hne Hf.
  apply (keeps_file_bind_val q c (fun a => a = p)).
  - intros w a w1. apply open_wb_value.
  - apply keeps_file_open_wb, Hne.
  - intros a ->. exact Hf.
Qed.

(** X6: the saves write one file each.  Whether they return or raise,
    [save_hparams(hparams, save_dir)] leaves every file but
    [save_dir/hparams.json] with its content, and [save_log(log)] every
    file but [log.pkl] of the directory [log['train_dir']]. *)
Theorem saves_keep_other_files `{NumpyRandom} (w : world) (q : string) (c : content) :
  fs_lookup (w_fs w) q = Some (File c) ->
  (forall hp dir,
      path_components q <> path_components (os_path_join dir "hparams.json") ->
      fs_lookup (w_fs (snd (save_hparams hp dir w))) q = Some (File c))
  /\ (forall log d dir,
         w_dicts w !! log = Some d ->
         d !! "train_dir" = Some (VStr dir) ->
         path_components q <> path_components (os_path_join dir "log.pkl") ->
         fs_lookup (w_fs (snd (save_log log w))) q = Some (File c)).
Proof.
  intros Hq. split.
  - intros hp dir Hne. revert w Hq. change (keeps_file q c (save_hparams hp dir)).
    unfold save_hparams.
    apply keeps_file_bind; [apply keeps_fs_file, dict_copy_fs|]. intros cp.
    apply keeps_file_bind; [apply keeps_fs_file, dict_pop_fs|]. intros _.
    apply keeps_file_open_then; [exact Hne | apply keeps_file_json_dump, Hne].
  - intros log d dir Hd Hdir Hne.
    assert (Hrun : save_log log w
                   = bind (open_wb (os_path_join dir "log.pkl")) (pickle_dump log) w).
    { unfold save_log. erewrite bind_ok; [|unfold getitem, bind, read_dict;
                                           rewrite Hd, Hdir; reflexivity].
      reflexivity. }
    rewrite Hrun.
    apply (keeps_file_open_then _ q c (pickle_dump log) Hne); [|exact Hq].
    apply keeps_file_pickle_dump, Hne.
Qed.

Lemma saves_keep_other_files_witness :
  fs_lookup (w_fs (snd (save_hparams 1%positive "runs/a" example_world)))
            "runs/c/hparams.json"
  = Some (File (CJsonObject {[ "seed" := JInt 4; "n_rnn" := JInt 256;
                               "target_perf" := JFloat 0.5 ]})).
Proof.
  refine (proj1 (saves_keep_other_files (H := scripted_random) example_world
                   "runs/c/hparams.json" _ _) 1%positive "runs/a" _).
  - reflexivity.
  - vm_compute. discriminate.
Defined.

(** *** [save_hparams]: how it fails *)

(** X7: [save_hparams] raises [KeyError] for a mapping without an ['rng']
    field and [IOError] when [hparams.json] cannot be opened for writing,
    with the files as they were; for a mapping with a value besides ['rng']
    that is not serializable it raises [TypeError] after the file was
    opened: what [hparams.json] held is lost, and a later [load_hparams] of
    the directory raises [ValueError]. *)
Theorem save_hparams_failures `{NumpyRandom} (hp : loc) (dir : string) (w : world)
        (d : gmap string pyval) :
  w_dicts w !! hp = Some d ->
  (d !! "rng" = None ->
   fst (save_hparams hp dir w) = Raise (KeyError "rng")
   /\ w_fs (snd (save_hparams hp dir w)) = w_fs w)
  /\ (is_Some (d !! "rng") ->
      writable (w_fs w) (os_path_join dir "hparams.json") = false ->
      fst (save_hparams hp dir w) = Raise IOError
      /\ w_fs (snd (save_hparams hp dir w)) = w_fs w)
  /\ (is_Some (d !! "rng") ->
      writable (w_fs w) (os_path_join dir "hparams.json") = true ->
      dict_to_json (delete "rng" d) = None ->
      fst (save_hparams hp dir w) = Raise TypeError
      /\ fs_lookup (w_fs (snd (save_hparams hp dir w))) (os_path_join dir "hparams.json")
         = Some (File COther)
      /\ fst (load_hparams dir (snd (save_hparams hp dir w))) = Raise ValueError).
Proof.
  intros Hd.
  assert (Hcopy : forall v, d !! "rng" = Some v ->
            save_hparams hp dir w
            = bind (open_wb (os_path_join dir "hparams.json")) (json_dump (fresh_loc w))
                {| w_dicts := <[fresh_loc w := delete "rng" d]>
                                (<[fresh_loc w := d]> (w_dicts w));
                   w_rngs := w_rngs w; w_global_rng := w_global_rng w;
                   w_fs := w_fs w; w_out := w_out w |}).
  { intros v Hv. unfold save_hparams, dict_copy, dict_pop.
    unfold bind at 1. unfold bind at 1. unfold bind at 1. unfold read_dict at 1.
    rewrite Hd. unfold new_dict. cbn.
    unfold bind at 1. unfold read_dict at 1. cbn. rewrite lookup_insert_eq, Hv. cbn.
    reflexivity. }
  split; [|split].
  - intros Hno. unfold save_hparams, dict_copy, dict_pop, bind, read_dict, new_dict, raise.
    rewrite Hd. cbn. rewrite lookup_insert_eq, Hno. cbn. split; reflexivity.
  - intros [v Hv] Hwr. rewrite (Hcopy v Hv).
    unfold writable in Hwr. unfold open_wb, bind, write_file. cbn.
    destruct (fs_write (w_fs w) (os_path_join dir "hparams.json") COther);
      [discriminate | split; reflexivity].
  - intros [v Hv] Hwr Hjs. rewrite (Hcopy v Hv).
    unfold writable in Hwr. unfold open_wb, json_dump, bind, write_file, read_dict, ret.
    cbn.
    destruct (fs_write (w_fs w) (os_path_join dir "hparams.json") COther) as [fs1|] eqn:Hw1;
      [|discriminate].
    cbn. rewrite lookup_insert_eq, Hjs. cbn.
    pose proof (resolve_write_at _ _ _ _ Hw1) as Hread.
    rewrite <- fs_lookup_join in Hread by discriminate.
    split; [reflexivity|]. split; [exact Hread|].
    unfold load_hparams, bind, os_path_isfile, is_file, read_file. cbv zeta.
    cbn. rewrite Hread. cbn. rewrite Hread. reflexivity.
Qed.

Lemma save_hparams_failures_witness :
  let w := scripted_world example_tree
             {[ 1%positive := {[ "rng" := VRng 2; "rng2" := VRng 2 ]} ]} ∅ in
  fst (save_hparams 1%positive "runs/a" w) = Raise TypeError
  /\ fs_lookup (w_fs (snd (save_hparams 1%positive "runs/a" w))) "runs/a/hparams.json"
     = Some (File COther)
  /\ fst (load_hparams "runs/a" (snd (save_hparams 1%positive "runs/a" w)))
     = Raise ValueError.
Proof.
  refine (proj2 (proj2 (save_hparams_failures (H := scripted_random) 1%positive "runs/a"
                          (scripted_world example_tree
                             {[ 1%positive := {[ "rng" := VRng 2; "rng2" := VRng 2 ]} ]} ∅)
                          {[ "rng" := VRng 2; "rng2" := VRng 2 ]} _)) _ _ _).
  - reflexivity.
  - eexists. reflexivity.
  - reflexivity.
  - vm_compute. reflexivity.
Defined.

(** ** Making a directory, then saving in it *)

Lemma mkdir_p_Ok `{NumpyRandom} (path : string) (w w1 : world) :
  mkdir_p path w = (Ok tt, w1) ->
  w_dicts w1 = w_dicts w /\ w_rngs w1 = w_rngs w
  /\ ((w1 = w /\ is_dir (w_fs w) path = true)
      \/ resolve (w_fs w1) (path_components path) = Some (Dir [])).
Proof.
  unfold mkdir_p, os_makedirs.
  destruct (String.eqb path ""); [discriminate|].
  pose proof (mkdirs_at_cases (path_components path) (w_fs w)) as Hc.
  destruct (mkdirs_at (w_fs w) (path_components path)) as [fs'|[]]; try discriminate.
  - destruct Hc as (_ & _ & Hdir). intros [= <-]. cbn. auto.
  - destruct (is_dir (w_fs w) path) eqn:Hd; [|discriminate].
    intros [= <-]. auto.
Qed.

(** A file can be opened for writing in a directory under a name no
    directory of it has. *)
Lemma writable_in_dir (fs : node) (dir name : string) :
  valid_name name = true ->
  is_dir fs dir = true ->
  is_dir fs (os_path_join dir name) = false ->
  writable fs (os_path_join dir name) = true.
Proof.
  intros Hv Hd Hnd.
  apply (is_dir_resolve _ _ (is_dir_nonempty _ _ Hd)) in Hd as [es Hes].
  unfold writable, fs_write. rewrite (path_components_join dir name Hv).
  destruct (write_at_in_dir (path_components dir) fs es name COther Hes) as [n' ->];
    [|reflexivity].
  intros es' Hl. unfold is_dir in Hnd.
  rewrite (fs_lookup_join _ _ _ (valid_name_nonempty _ Hv)) in Hnd.
  rewrite (path_components_join dir name Hv), resolve_app, Hes in Hnd.
  cbn in Hnd. rewrite Hl in Hnd. discriminate.
Qed.

(** What a successful [save_hparams] leaves in the directory *)
Lemma save_hparams_Ok `{NumpyRandom} (hp : loc) (dir : string) (w : world)
      (d : gmap string pyval) (v : pyval) (o : gmap string json) :
  w_dicts w !! hp = Some d ->
  d !! "rng" = Some v ->
  dict_to_json (delete "rng" d) = Some o ->
  writable (w_fs w) (os_path_join dir "hparams.json") = true ->
  exists w1, save_hparams hp dir w = (Ok tt, w1)
             /\ stored_hparams (w_fs w1) dir = Some o
             /\ w_rngs w1 = w_rngs w
             /\ w_dicts w1 !! hp = Some d.
Proof.
  intros Hd Hrng Ho Hwr. unfold writable in Hwr.
  destruct (fs_write (w_fs w) (os_path_join dir "hparams.json") COther) as [fs1|] eqn:Hw1;
    [clear Hwr|discriminate].
  destruct (write_at_again _ _ _ _ (CJsonObject o) Hw1) as [fs2 Hw2].
  pose proof (resolve_write_at _ _ _ _ Hw2) as Hread.
  assert (Hne : fresh_loc w <> hp).
  { intros E. pose proof (fresh_loc_not_dict w) as Hf. rewrite E, Hd in Hf. discriminate. }
  eexists. split; [|split; [|split]].
  - unfold save_hparams, dict_copy, dict_pop, open_wb, json_dump, bind, read_dict,
      new_dict, write_dict, write_file, ret, raise.
    rewrite Hd. cbn. rewrite lookup_insert_eq, Hrng. cbn. rewrite Hw1. cbn.
    rewrite lookup_insert_eq, Ho. cbn. unfold fs_write. rewrite Hw2. reflexivity.
  - unfold stored_hparams. rewrite fs_lookup_join by discriminate.
    cbn. rewrite Hread. reflexivity.
  - reflexivity.
  - cbn. rewrite !lookup_insert_ne by exact Hne. exact Hd.
Qed.

(** X8: after [mkdir_p(dir)] has returned, [save_hparams(hparams, dir)]
    returns for every mapping with an ['rng'] field whose other values are
    serializable, unless [dir/hparams.json] is a directory, and leaves in
    [hparams.json] the document of the mapping without ['rng']. *)
Theorem mkdir_p_then_save_hparams `{NumpyRandom} (hp : loc) (dir : string) (w w1 : world)
        (d : gmap string pyval) (v : pyval) (o : gmap string json) :
  plain_path dir = true ->
  mkdir_p dir w = (Ok tt, w1) ->
  is_dir (w_fs w) (os_path_join dir "hparams.json") = false ->
  w_dicts w !! hp = Some d ->
  d !! "rng" = Some v ->
  dict_to_json (delete "rng" d) = Some o ->
  exists w2, save_hparams hp dir w1 = (Ok tt, w2)
             /\ stored_hparams (w_fs w2) dir = Some o.
Proof.
  intros _ Hmk Hnd Hd Hrng Ho.
  destruct (mkdir_p_Ok dir w w1 Hmk) as (Hdicts & _ & Hcase).
  assert (Hwr : writable (w_fs w1) (os_path_join dir "hparams.json") = true).
  { destruct Hcase as [[-> Hdir]|Hnew].
    - apply writable_in_dir; [reflexivity | exact Hdir | exact Hnd].
    - unfold writable, fs_write.
      rewrite (path_components_join dir "hparams.json" eq_refl).
      destruct (write_at_in_dir (path_components dir) (w_fs w1) [] "hparams.json" COther
                  Hnew) as [n' ->]; [discriminate | reflexivity]. }
  rewrite <- Hdicts in Hd.
  destruct (save_hparams_Ok hp dir w1 d v o Hd Hrng Ho Hwr) as (w2 & Hs & Hst & _).
  eauto.
Qed.

Lemma mkdir_p_then_save_hparams_witness :
  exists w2, save_hparams 1%positive "runs/new/m" (snd (mkdir_p "runs/new/m" example_world))
             = (Ok tt, w2)
             /\ stored_hparams (w_fs w2) "runs/new/m"
                = Some {[ "seed" := JInt 5; "alpha" := JFloat 0.5;
                          "rule_trains" := JList [JStr "fdgo"; JStr "delaygo"] ]}.
Proof.
  apply (mkdir_p_then_save_hparams (H := scripted_random) 1%positive "runs/new/m"
           example_world (snd (mkdir_p "runs/new/m" example_world))
           example_hp (VRng 2)).
  - reflexivity.
  - reflexivity.
  - reflexivity.
  - reflexivity.
  - reflexivity.
  - vm_compute. reflexivity.
Defined.

(** ** Walking a well-formed tree *)








(** *** [valid_model_dirs] *)



(** ** Loading allocates, and changes nothing else *)

Lemma extends_refl `{NumpyRandom} (w : world) : extends w w.
Proof. repeat split; reflexivity. Qed.

Lemma extends_trans `{NumpyRandom} (w1 w2 w3 : world) :
  extends w1 w2 -> extends w2 w3 -> extends w1 w3.
Proof.
  intros (Ha & Hb & Hc & Hd & He) (Ha' & Hb' & Hc' & Hd' & He').
  repeat split; try congruence; etrans; eassumption.
Qed.

(** When [load_hparams] returns a mapping, [hparams.json] holds an object
    whose seed is an integer (or a boolean) with [seed + 1000] a valid
    numpy seed; the mapping is a new dict with the stored fields and a new
    generator under ['rng']. *)
Lemma load_hparams_inv `{NumpyRandom} (dir : string) (w w' : world) (l : loc) :
  load_hparams dir w = (Ok (Some l), w') ->
  exists o r s,
    stored_hparams (w_fs w) dir = Some o
    /\ (o !! "seed" = Some (JInt (s - 1000))
        \/ exists b, o !! "seed" = Some (JBool b) /\ s = Z.b2z b + 1000)
    /\ 0 <= s < 2 ^ 32
    /\ w_dicts w !! l = None
    /\ w_dicts w' = <[l := <["rng" := VRng r]> (dict_of_json o)]> (w_dicts w)
    /\ w_rngs w !! r = None
    /\ w_rngs w' = <[r := seed_state s]> (w_rngs w)
    /\ w_global_rng w' = w_global_rng w /\ w_fs w' = w_fs w /\ w_out w' = w_out w.
Proof.
  unfold load_hparams, stored_hparams. cbv zeta.
  unfold bind at 1. unfold os_path_isfile, is_file.
  destruct (fs_lookup (w_fs w) (os_path_join dir "hparams.json")) as [[c|es]|] eqn:Hl;
    cbn [negb]; try discriminate.
  unfold bind at 1. unfold read_file. rewrite Hl.
  destruct c as [o|j|p|]; cbn [json_load]; try discriminate.
  set (w1 := {| w_dicts := <[fresh_loc w := dict_of_json o]> (w_dicts w);
                w_rngs := w_rngs w; w_global_rng := w_global_rng w;
                w_fs := w_fs w; w_out := w_out w |}).
  unfold bind at 1. unfold bind at 1. unfold new_dict. fold w1. cbn [ret].
  unfold bind at 1. unfold getitem, bind at 1. unfold read_dict.
  assert (Hw1 : w_dicts w1 !! fresh_loc w = Some (dict_of_json o))
    by apply lookup_insert_eq.
  rewrite Hw1. unfold dict_of_json at 1. rewrite lookup_fmap.
  destruct (o !! "seed") as [js|] eqn:Hseed; [|discriminate].
  cbn [fmap option_fmap option_map ret].
  assert (Hcont : forall s : Z,
            (js = JInt (s - 1000) \/ exists b, js = JBool b /\ s = Z.b2z b + 1000) ->
            bind (RandomState (VInt s))
                 (fun rng => bind (dict_setitem (fresh_loc w) "rng" (VRng rng))
                                  (fun _ => ret (Some (fresh_loc w)))) w1
            = (Ok (Some l), w') ->
            exists o0 r s0,
              Some o = Some o0
              /\ (o0 !! "seed" = Some (JInt (s0 - 1000))
                  \/ exists b, o0 !! "seed" = Some (JBool b) /\ s0 = Z.b2z b + 1000)
              /\ 0 <= s0 < 2 ^ 32
              /\ w_dicts w !! l = None
              /\ w_dicts w' = <[l := <["rng" := VRng r]> (dict_of_json o0)]> (w_dicts w)
              /\ w_rngs w !! r = None
              /\ w_rngs w' = <[r := seed_state s0]> (w_rngs w)
              /\ w_global_rng w' = w_global_rng w /\ w_fs w' = w_fs w
              /\ w_out w' = w_out w).
  { intros s Hs. unfold RandomState.
    destruct ((0 <=? s) && (s <? 2 ^ 32)) eqn:Hrange; [|discriminate].
    apply andb_true_iff in Hrange as [H0 H1].
    apply Z.leb_le in H0. apply Z.ltb_lt in H1.
    unfold bind, dict_setitem, bind, read_dict, write_dict, ret. cbn.
    rewrite lookup_insert_eq. cbn. intros [= <- <-].
    exists o, (fresh_loc w1), s. cbn.
    repeat split; try lia.
    - destruct Hs as [->|(b & -> & ->)]; [left | right; exists b]; auto.
    - apply fresh_loc_not_dict.
    - apply insert_insert_eq.
    - apply (fresh_loc_not_rng w1). }
  destruct js as [ |b|z|f|s|js]; cbn [of_json py_add_1000]; try discriminate.
  - unfold bind at 1. cbn [ret]. apply Hcont. right. exists b. auto.
  - unfold bind at 1. cbn [ret]. apply Hcont. left. f_equal. lia.
Qed.

Lemma extends_new_dict `{NumpyRandom} (w : world) (d : gmap string pyval) :
  extends w {| w_dicts := <[fresh_loc w := d]> (w_dicts w); w_rngs := w_rngs w;
               w_global_rng := w_global_rng w; w_fs := w_fs w; w_out := w_out w |}.
Proof.
  repeat split; cbn; try reflexivity. apply insert_subseteq, fresh_loc_not_dict.
Qed.

(** [load_hparams] only allocates, whatever its outcome. *)
Lemma load_hparams_extends `{NumpyRandom} (dir : string) (w : world) :
  extends w (snd (load_hparams dir w)).
Proof.
  destruct (load_hparams dir w) as [[[l|]|e] w'] eqn:Hload.
  - destruct (load_hparams_inv dir w w' l Hload)
      as (o & r & s & _ & _ & _ & Hl & Hd & Hr & Hrs & Hg & Hfs & Hout).
    cbn. repeat split; try assumption.
    + rewrite Hd. apply insert_subseteq, Hl.
    + rewrite Hrs. apply insert_subseteq, Hr.
  - revert Hload. unfold load_hparams. cbv zeta.
    unfold bind at 1. unfold os_path_isfile.
    destruct (is_file (w_fs w) (os_path_join dir "hparams.json")); cbn [negb];
      [|intros [= <-]; apply extends_refl].
    unfold bind at 1. unfold read_file.
    destruct (fs_lookup (w_fs w) (os_path_join dir "hparams.json")) as [[c|es]|];
      try discriminate.
    destruct c as [o|j|p|]; cbn [json_load]; try discriminate.
    unfold bind at 1. unfold bind at 1. unfold new_dict. cbn [ret].
    unfold bind at 1. unfold getitem, bind at 1. unfold read_dict. cbn [w_dicts].
    rewrite lookup_insert_eq.
    destruct (dict_of_json o !! "seed") as [seed|]; [|discriminate]. cbn [ret].
    unfold bind at 1.
    destruct seed; cbn [py_add_1000 ret raise]; try discriminate;
      unfold bind at 1; unfold RandomState;
      try match goal with |- context [(0 <=? ?z) && _] =>
            destruct ((0 <=? z) && (z <? 2 ^ 32)) end;
      try discriminate;
      unfold bind, dict_setitem, bind, read_dict, write_dict, ret; cbn;
      rewrite ?lookup_insert_eq; cbn; discriminate.
  - revert Hload. unfold load_hparams. cbv zeta.
    unfold bind at 1. unfold os_path_isfile.
    destruct (is_file (w_fs w) (os_path_join dir "hparams.json")); cbn [negb];
      [|discriminate].
    unfold bind at 1. unfold read_file.
    destruct (fs_lookup (w_fs w) (os_path_join dir "hparams.json")) as [[c|es]|];
      try (intros [= <- <-]; apply extends_refl).
    destruct c as [o|j|p|]; cbn [json_load];
      try (intros [= <- <-]; apply extends_refl).
    unfold bind at 1. unfold bind at 1. unfold new_dict. cbn [ret].
    unfold bind at 1. unfold getitem, bind at 1. unfold read_dict. cbn [w_dicts].
    rewrite lookup_insert_eq.
    destruct (dict_of_json o !! "seed") as [seed|];
      [|intros [= <- <-]; apply extends_new_dict]. cbn [ret].
    unfold bind at 1.
    destruct seed; cbn [py_add_1000 ret raise];
      try (intros [= <- <-]; apply extends_new_dict);
      unfold bind at 1; unfold RandomState;
      try match goal with |- context [(0 <=? ?z) && _] =>
            destruct ((0 <=? z) && (z <? 2 ^ 32)) end;
      try (intros [= <- <-]; apply extends_new_dict);
      unfold bind, dict_setitem, bind, read_dict, write_dict, ret; cbn;
      rewrite ?lookup_insert_eq; cbn; discriminate.
Qed.

Lemma load_hparams_None_inv `{NumpyRandom} (dir : string) (w w' : world) :
  load_hparams dir w = (Ok None, w') ->
  is_file (w_fs w) (os_path_join dir "hparams.json") = false /\ w' = w.
Proof.
  intros Hload. destruct (is_file (w_fs w) (os_path_join dir "hparams.json")) eqn:Hf.
  - exfalso. revert Hload. unfold load_hparams. cbv zeta.
    unfold bind at 1. unfold os_path_isfile. rewrite Hf. cbn [negb].
    unfold bind at 1. unfold read_file.
    destruct (fs_lookup (w_fs w) (os_path_join dir "hparams.json")) as [[c|es]|];
      try discriminate.
    destruct c as [o|j|p|]; cbn [json_load]; try discriminate.
    unfold bind at 1. unfold bind at 1. unfold new_dict. cbn [ret].
    unfold bind at 1. unfold getitem, bind at 1. unfold read_dict. cbn [w_dicts].
    rewrite lookup_insert_eq.
    destruct (dict_of_json o !! "seed") as [seed|]; [|discriminate]. cbn [ret].
    unfold bind at 1.
    destruct seed; cbn [py_add_1000 ret raise]; try discriminate;
      unfold bind at 1; unfold RandomState;
      try match goal with |- context [(0 <=? ?z) && _] =>
            destruct ((0 <=? z) && (z <? 2 ^ 32)) end;
      try discriminate;
      unfold bind, dict_setitem, bind, read_dict, write_dict, ret; cbn;
      rewrite ?lookup_insert_eq; cbn; discriminate.
  - revert Hload. unfold load_hparams, bind, os_path_isfile. rewrite Hf. cbn.
    intros [= <-]. auto.
Qed.

Lemma load_log_extends `{NumpyRandom} (dir : string) (w : world) :
  extends w (snd (load_log dir w)).
Proof.
  unfold load_log, bind, os_path_isfile, read_file, pickle_load, bind, new_dict, ret,
    raise. cbv zeta.
  destruct (is_file (w_fs w) (os_path_join dir "log.pkl")); cbn; [|apply extends_refl].
  destruct (fs_lookup (w_fs w) (os_path_join dir "log.pkl")) as [[c|es]|]; cbn;
    try apply extends_refl.
  destruct c; cbn; first [apply extends_refl | apply extends_new_dict].
Qed.

Lemma find_all_models_loop_extends `{NumpyRandom} (hp_target : loc) :
  forall (dirs acc_d : list string) (acc_h : list (option loc)) (w : world),
    extends w (snd (find_all_models_loop hp_target dirs acc_d acc_h w)).
Proof.
  induction dirs as [|d rest IH]; intros acc_d acc_h w; [apply extends_refl|].
  cbn [find_all_models_loop]. unfold bind at 1.
  pose proof (load_hparams_extends d w) as Hext.
  destruct (load_hparams d w) as [[hp|e] w1]; cbn in Hext; [|exact Hext].
  unfold dict_items, bind, read_dict, ret.
  destruct (w_dicts w1 !! hp_target) as [t|]; cbn; [|exact Hext].
  pose proof (all_match_world hp (map_to_list t) w1) as Hw.
  destruct (all_match hp (map_to_list t) w1) as [[b|e] w2]; cbn in Hw; subst w2;
    [|exact Hext].
  destruct b; (eapply extends_trans; [exact Hext | apply IH]).
Qed.

Lemma find_all_models_extends `{NumpyRandom} (root : string) (hp_target : loc) (w : world) :
  extends w (snd (find_all_models root hp_target w)).
Proof.
  unfold find_all_models, bind.
  pose proof (valid_model_dirs_world root w) as Hw.
  destruct (valid_model_dirs root w) as [[dirs|e] w0]; cbn in Hw; subst w0;
    [apply find_all_models_loop_extends | apply extends_refl].
Qed.

(** *** The loads and the search touch nothing that was there *)

(** X10: [load_hparams], [load_log] and [find_all_models] only allocate:
    whether they return or raise, every mapping and every generator of the
    store is as it was, no file has changed, nothing was printed and the
    default generator was not used. *)
Theorem loads_only_allocate `{NumpyRandom} (dir root : string) (hp_target : loc)
        (w : world) :
  extends w (snd (load_hparams dir w))
  /\ extends w (snd (load_log dir w))
  /\ extends w (snd (find_all_models root hp_target w)).
Proof.
  split; [apply load_hparams_extends|].
  split; [apply load_log_extends | apply find_all_models_extends].
Qed.

(** ** What [find_all_models] returns *)

Lemma all_match_Some `{NumpyRandom} (hp : option loc) (kv : string * pyval)
      (items : list (string * pyval)) (w w' : world) (b : bool) :
  all_match hp (kv :: items) w = (Ok b, w') ->
  exists l hd, hp = Some l /\ w_dicts w !! l = Some hd.
Proof.
  destruct kv as [key val]. cbn [all_match]. unfold bind, getitem, bind, read_dict, raise.
  destruct hp as [l|]; [|discriminate].
  destruct (w_dicts w !! l) as [hd|] eqn:Hl; [|discriminate].
  intros _. exists l, hd. auto.
Qed.

Lemma all_match_true `{NumpyRandom} (l : loc) (hd : gmap string pyval) (w : world) :
  w_dicts w !! l = Some hd ->
  forall (items : list (string * pyval)) (w' : world),
    all_match (Some l) items w = (Ok true, w') ->
    forallb (fun kv => match hd !! fst kv with
                       | Some v => py_eq v (snd kv)
                       | None => false
                       end) items = true.
Proof.
  intros Hl. induction items as [|[key val] rest IH]; intros w' Hm; [reflexivity|].
  revert Hm. cbn [all_match forallb fst snd].
  unfold bind, getitem, bind, read_dict, ret, raise. rewrite Hl.
  destruct (hd !! key) as [v|]; [|discriminate]. cbn.
  destruct (py_eq v val); [|discriminate].
  intros Hm. cbn. apply (IH w' Hm).
Qed.

Lemma find_all_models_loop_sound `{NumpyRandom} (fs : node) (hp_target : loc)
      (t : gmap string pyval) :
  t <> ∅ ->
  forall (dirs acc_d : list string) (acc_h : list (option loc)) (w w' : world)
         (ds : list string) (hps : list (option loc)),
    w_fs w = fs ->
    w_dicts w !! hp_target = Some t ->
    find_all_models_loop hp_target dirs acc_d acc_h w = (Ok (ds, hps), w') ->
    exists ds' hps',
      ds = acc_d ++ ds' /\ hps = acc_h ++ hps' /\ sublist ds' dirs
      /\ Forall2 (loaded_agreeing fs (w_dicts w') t) ds' hps'.
Proof.
  intros Hne. induction dirs as [|d rest IH]; intros acc_d acc_h w w' ds hps Hfs Ht Hrun.
  - inversion Hrun; subst. exists [], []. rewrite !app_nil_r.
    repeat split; constructor.
  - revert Hrun. cbn [find_all_models_loop]. unfold bind at 1.
    pose proof (load_hparams_extends d w) as Hext.
    destruct (load_hparams d w) as [[hp|e] w1] eqn:Hload; [|discriminate].
    cbn in Hext. destruct Hext as (Hsub & _ & _ & Hfs1 & _).
    assert (Ht1 : w_dicts w1 !! hp_target = Some t)
      by (apply (lookup_weaken _ _ _ _ Ht Hsub)).
    unfold dict_items. unfold bind at 1. unfold bind at 1. unfold read_dict.
    rewrite Ht1. cbn [ret]. unfold bind at 1.
    destruct (map_to_list t) as [|kv items] eqn:Hitems;
      [apply map_to_list_empty_iff in Hitems; contradiction|].
    pose proof (all_match_world hp (kv :: items) w1) as Hw.
    destruct (all_match hp (kv :: items) w1) as [[b|e] w2] eqn:Hm; [|discriminate].
    cbn in Hw. subst w2.
    destruct b.
    + intros Hrun.
      destruct (all_match_Some _ _ _ _ _ _ Hm) as (l & hd & -> & Hl).
      pose proof (all_match_true l hd w1 Hl _ _ Hm) as Hagree.
      destruct (load_hparams_inv d w w1 l Hload)
        as (o & r & s & Hst & _ & _ & _ & Hd & _).
      assert (Hhd : hd = <["rng" := VRng r]> (dict_of_json o)).
      { rewrite Hd, lookup_insert_eq in Hl. congruence. }
      destruct (IH (acc_d ++ [d]) (acc_h ++ [Some l]) w1 w' ds hps) as
        (ds' & hps' & -> & -> & Hsl & Hall); [congruence | exact Ht1 | exact Hrun |].
      exists (d :: ds'), (Some l :: hps'). rewrite <- !app_assoc. cbn.
      repeat split; [apply sublist_skip, Hsl|].
      constructor; [|exact Hall].
      exists l, o, r. repeat split.
      * congruence.
      * pose proof (find_all_models_loop_extends hp_target rest (acc_d ++ [d])
                      (acc_h ++ [Some l]) w1) as Hext'.
        rewrite Hrun in Hext'. cbn [snd] in Hext'. destruct Hext' as (Hsub' & _).
        apply (lookup_weaken _ _ _ _ Hl) in Hsub'. rewrite Hsub', Hhd. reflexivity.
      * unfold agrees_on. rewrite Hitems, <- Hhd. exact Hagree.
    + intros Hrun.
      destruct (IH acc_d acc_h w1 w' ds hps) as (ds' & hps' & -> & -> & Hsl & Hall);
        [congruence | exact Ht1 | exact Hrun |].
      exists ds', hps'. repeat split; [apply sublist_cons, Hsl | exact Hall].
Qed.

(** X11: what [find_all_models] returns for a target with at least one
    key.  The directories are model directories of the root, in the order
    of the walk, and the two lists go together: each directory comes with a
    mapping of the store that holds the fields of its [hparams.json] and a
    generator, and that has every key of the target with an equal value. *)
Theorem find_all_models_sound `{NumpyRandom} (root : string) (hp_target : loc)
        (w w' : world) (t : gmap string pyval) (dirs ds : list string)
        (hps : list (option loc)) :
  w_dicts w !! hp_target = Some t ->
  t <> ∅ ->
  fst (valid_model_dirs root w) = Ok dirs ->
  find_all_models root hp_target w = (Ok (ds, hps), w') ->
  sublist ds dirs
  /\ Forall2 (loaded_agreeing (w_fs w) (w_dicts w') t) ds hps.
Proof.
  intros Ht Hne Hdirs. unfold find_all_models, bind.
  pose proof (valid_model_dirs_world root w) as Hw.
  destruct (valid_model_dirs root w) as [r w0]. cbn in Hdirs, Hw. subst r w0.
  intros Hrun.
  destruct (find_all_models_loop_sound (w_fs w) hp_target t Hne dirs [] [] w w' ds hps
              eq_refl Ht Hrun) as (ds' & hps' & -> & -> & Hsl & Hall).
  split; assumption.
Qed.

Lemma find_all_models_sound_witness :
  sublist ["runs/a"] ["runs/a"; "runs/c"; "runs/d"]
  /\ Forall2 (loaded_agreeing example_tree
                (w_dicts (snd (find_all_models "runs" 1%positive
                                 (target_world {[ "seed" := VInt 3 ]}))))
                {[ "seed" := VInt 3 ]})
             ["runs/a"] [Some 2%positive].
Proof.
  apply (find_all_models_sound (H := scripted_random) "runs" 1%positive
           (target_world {[ "seed" := VInt 3 ]})
           (snd (find_all_models "runs" 1%positive (target_world {[ "seed" := VInt 3 ]})))
           {[ "seed" := VInt 3 ]}).
  - reflexivity.
  - apply insert_non_empty.
  - reflexivity.
  - vm_compute. reflexivity.
Defined.

Lemma find_all_models_loop_empty `{NumpyRandom} (fs : node) (hp_target : loc) :
  forall (dirs acc_d : list string) (acc_h : list (option loc)) (w w' : world)
         (ds : list string) (hps : list (option loc)),
    w_fs w = fs ->
    w_dicts w !! hp_target = Some ∅ ->
    find_all_models_loop hp_target dirs acc_d acc_h w = (Ok (ds, hps), w') ->
    exists hps',
      ds = acc_d ++ dirs /\ hps = acc_h ++ hps'
      /\ Forall2 (loaded_or_None fs (w_dicts w')) dirs hps'.
Proof.
  induction dirs as [|d rest IH]; intros acc_d acc_h w w' ds hps Hfs Ht Hrun.
  - inversion Hrun; subst. exists []. rewrite !app_nil_r. repeat split. constructor.
  - revert Hrun. cbn [find_all_models_loop]. unfold bind at 1.
    pose proof (load_hparams_extends d w) as Hext.
    destruct (load_hparams d w) as [[hp|e] w1] eqn:Hload; [|discriminate].
    cbn in Hext. destruct Hext as (Hsub & _ & _ & Hfs1 & _).
    assert (Ht1 : w_dicts w1 !! hp_target = Some ∅)
      by (apply (lookup_weaken _ _ _ _ Ht Hsub)).
    unfold dict_items. unfold bind at 1. unfold bind at 1. unfold read_dict.
    rewrite Ht1. cbn [ret]. rewrite map_to_list_empty. unfold bind at 1.
    cbn [all_match ret].
    intros Hrun.
    destruct (IH (acc_d ++ [d]) (acc_h ++ [hp]) w1 w' ds hps) as (hps' & -> & -> & Hall);
      [congruence | exact Ht1 | exact Hrun |].
    exists (hp :: hps'). rewrite <- !app_assoc. cbn. repeat split.
    constructor; [|exact Hall].
    destruct hp as [l|]; cbn.
    + destruct (load_hparams_inv d w w1 l Hload)
        as (o & r & s & Hst & _ & _ & _ & Hd & _).
      exists o, r. split; [congruence|].
      pose proof (find_all_models_loop_extends hp_target rest (acc_d ++ [d])
                    (acc_h ++ [Some l]) w1) as Hext'.
      rewrite Hrun in Hext'. cbn [snd] in Hext'. destruct Hext' as (Hsub' & _).
      apply (lookup_weaken (w_dicts w1) _ _ _); [|exact Hsub'].
      rewrite Hd. apply lookup_insert_eq.
    + destruct (load_hparams_None_inv d w w1 Hload) as [Hno _]. congruence.
Qed.

(** X12: with an empty target [find_all_models] keeps every model
    directory: when it returns, the directories are those of
    [valid_model_dirs], and the mapping of a directory without
    [hparams.json] is [None]. *)
Theorem find_all_models_empty_target `{NumpyRandom} (root : string) (hp_target : loc)
        (w w' : world) (dirs ds : list string) (hps : list (option loc)) :
  w_dicts w !! hp_target = Some ∅ ->
  fst (valid_model_dirs root w) = Ok dirs ->
  find_all_models root hp_target w = (Ok (ds, hps), w') ->
  ds = dirs /\ Forall2 (loaded_or_None (w_fs w) (w_dicts w')) dirs hps.
Proof.
  intros Ht Hdirs. unfold find_all_models, bind.
  pose proof (valid_model_dirs_world root w) as Hw.
  destruct (valid_model_dirs root w) as [r w0]. cbn in Hdirs, Hw. subst r w0.
  intros Hrun.
  destruct (find_all_models_loop_empty (w_fs w) hp_target dirs [] [] w w' ds hps
              eq_refl Ht Hrun) as (hps' & -> & -> & Hall).
  split; [reflexivity | exact Hall].
Qed.

Lemma find_all_models_empty_target_witness :
  let fs := Dir [("m", Dir [("model.ckpt", File COther)])] in
  ["m"] = ["m"]
  /\ Forall2 (loaded_or_None fs
                (w_dicts (snd (find_all_models "m" 1%positive
                                 (scripted_world fs {[ 1%positive := ∅ ]} ∅)))))
             ["m"] [None].
Proof.
  apply (find_all_models_empty_target (H := scripted_random) "m" 1%positive
           (scripted_world (Dir [("m", Dir [("model.ckpt", File COther)])])
                           {[ 1%positive := ∅ ]} ∅)
           (snd (find_all_models "m" 1%positive
                   (scripted_world (Dir [("m", Dir [("model.ckpt", File COther)])])
                                   {[ 1%positive := ∅ ]} ∅)))).
  - reflexivity.
  - reflexivity.
  - vm_compute. reflexivity.
Defined.

Lemma find_all_models_loop_loads `{NumpyRandom} (fs : node) (hp_target : loc)
      (t : gmap string pyval) :
  t <> ∅ ->
  forall (dirs acc_d : list string) (acc_h : list (option loc)) (w w' : world)
         (r : list string * list (option loc)),
    w_fs w = fs ->
    w_dicts w !! hp_target = Some t ->
    find_all_models_loop hp_target dirs acc_d acc_h w = (Ok r, w') ->
    forall d, In d dirs ->
              exists o, stored_hparams fs d = Some o /\ is_Some (o !! "seed").
Proof.
  intros Hne. induction dirs as [|d0 rest IH]; intros acc_d acc_h w w' r Hfs Ht Hrun d Hin;
    [destruct Hin|].
  revert Hrun. cbn [find_all_models_loop]. unfold bind at 1.
  pose proof (load_hparams_extends d0 w) as Hext.
  destruct (load_hparams d0 w) as [[hp|e] w1] eqn:Hload; [|discriminate].
  cbn in Hext. destruct Hext as (Hsub & _ & _ & Hfs1 & _).
  assert (Ht1 : w_dicts w1 !! hp_target = Some t)
    by (apply (lookup_weaken _ _ _ _ Ht Hsub)).
  unfold dict_items. unfold bind at 1. unfold bind at 1. unfold read_dict.
  rewrite Ht1. cbn [ret]. unfold bind at 1.
  destruct (map_to_list t) as [|kv items] eqn:Hitems;
    [apply map_to_list_empty_iff in Hitems; contradiction|].
  pose proof (all_match_world hp (kv :: items) w1) as Hw.
  destruct (all_match hp (kv :: items) w1) as [[b|e] w2] eqn:Hm; [|discriminate].
  cbn in Hw. subst w2.
  destruct (all_match_Some _ _ _ _ _ _ Hm) as (l & hd & -> & Hl).
  destruct (load_hparams_inv d0 w w1 l Hload) as (o & r0 & s & Hst & Hseed & _).
  intros Hrun. destruct Hin as [<-|Hin].
  - exists o. split; [congruence|].
    destruct Hseed as [Hs|(b0 & Hs & _)]; rewrite Hs; eauto.
  - destruct b; eapply IH; try exact Hrun; try exact Hin; congruence.
Qed.

(** X13: for a target with at least one key, [find_all_models] needs the
    hyperparameters of every model directory of the root, not only of the
    ones it keeps: when it returns, each holds an [hparams.json] with a
    JSON object that has a ['seed'], and when one has no file
    [hparams.json] the call raises. *)
Theorem find_all_models_needs_hparams `{NumpyRandom} (root : string) (hp_target : loc)
        (w : world) (t : gmap string pyval) (dirs : list string) (d : string) :
  w_dicts w !! hp_target = Some t ->
  t <> ∅ ->
  fst (valid_model_dirs root w) = Ok dirs ->
  In d dirs ->
  (forall r, fst (find_all_models root hp_target w) = Ok r ->
             exists o, stored_hparams (w_fs w) d = Some o /\ is_Some (o !! "seed"))
  /\ (is_file (w_fs w) (os_path_join d "hparams.json") = false ->
      exists e, fst (find_all_models root hp_target w) = Raise e).
Proof.
  intros Ht Hne Hdirs Hin.
  assert (Hok : forall r, fst (find_all_models root hp_target w) = Ok r ->
                  exists o, stored_hparams (w_fs w) d = Some o /\ is_Some (o !! "seed")).
  { intros r. unfold find_all_models, bind.
    pose proof (valid_model_dirs_world root w) as Hw.
    destruct (valid_model_dirs root w) as [r0 w0]. cbn in Hdirs, Hw. subst r0 w0.
    destruct (find_all_models_loop hp_target dirs [] [] w) as [r1 w'] eqn:Hrun.
    cbn. intros ->.
    apply (find_all_models_loop_loads (w_fs w) hp_target t Hne dirs [] [] w w' r
             eq_refl Ht Hrun d Hin). }
  split; [exact Hok|].
  intros Hno. destruct (fst (find_all_models root hp_target w)) as [r|e] eqn:Hres;
    [|eauto].
  destruct (Hok r eq_refl) as (o & Hst & _).
  unfold stored_hparams in Hst. unfold is_file in Hno.
  destruct (fs_lookup (w_fs w) (os_path_join d "hparams.json")) as [[c|es]|];
    discriminate.
Qed.

Lemma find_all_models_needs_hparams_witness :
  exists e,
    fst (find_all_models "m" 1%positive
           (scripted_world (Dir [("m", Dir [("model.ckpt", File COther)])])
                           {[ 1%positive := {[ "seed" := VInt 3 ]} ]} ∅))
    = Raise e.
Proof.
  refine (proj2 (find_all_models_needs_hparams (H := scripted_random) "m" 1%positive
                   (scripted_world (Dir [("m", Dir [("model.ckpt", File COther)])])
                                   {[ 1%positive := {[ "seed" := VInt 3 ]} ]} ∅)
                   {[ "seed" := VInt 3 ]} ["m"] "m" _ _ _ _) _).
  - reflexivity.
  - apply insert_non_empty.
  - reflexivity.
  - left. reflexivity.
  - reflexivity.
Defined.

(** ** What [find_model] returns *)

Lemma load_log_stored `{NumpyRandom} (d : string) (w : world) (p : gmap string json) :
  stored_log (w_fs w) d = Some p ->
  load_log d w
  = (Ok (Some (fresh_loc w)),
     {| w_dicts := <[fresh_loc w := dict_of_json p]> (w_dicts w); w_rngs := w_rngs w;
        w_global_rng := w_global_rng w; w_fs := w_fs w; w_out := w_out w |}).
Proof.
  unfold stored_log, load_log, bind, os_path_isfile, is_file, read_file. cbv zeta.
  destruct (fs_lookup (w_fs w) (os_path_join d "log.pkl")) as [[c|es]|] eqn:Hl;
    try discriminate.
  destruct c; try discriminate. intros [= ->]. cbn. rewrite Hl. reflexivity.
Qed.

Lemma last_map {A B} (f : A -> B) (l : list A) : last (map f l) = option_map f (last l).
Proof.
  induction l as [|a l IH]; [reflexivity|].
  destruct l as [|b l]; [reflexivity | exact IH].
Qed.

(** X14: the two ways [find_model] returns.  When [find_all_models] finds
    no directory, it prints ['Model not found'] and returns [(None, None)].
    When the first directory found has a log whose ['perf_min'] is a
    non-empty list and the first mapping a ['target_perf'], it returns that
    directory and that mapping, and prints the warning exactly when the
    last entry of ['perf_min'] is below ['target_perf']; nothing else is
    printed and no file changes. *)
Theorem find_model_outcome `{NumpyRandom} (root : string) (hp_target : loc) (w w1 : world)
        (ds : list string) (hps : list (option loc)) :
  find_all_models root hp_target w = (Ok (ds, hps), w1) ->
  (ds = [] ->
   exists w2, find_model root hp_target w = (Ok (None, None), w2)
              /\ w_out w2 = w_out w ++ ["Model not found"]
              /\ w_fs w2 = w_fs w)
  /\ (forall d ds' l hps' p js j hd tp,
         ds = d :: ds' -> hps = Some l :: hps' ->
         stored_log (w_fs w) d = Some p ->
         p !! "perf_min" = Some (JList js) ->
         last js = Some j ->
         w_dicts w1 !! l = Some hd ->
         hd !! "target_perf" = Some tp ->
         exists w2,
           find_model root hp_target w = (Ok (Some d, Some l), w2)
           /\ w_out w2
              = w_out w
                ++ (if py_lt (of_json j) tp
                    then ["Warning: the network found did not reach target performance."]
                    else [])
           /\ w_fs w2 = w_fs w).
Proof.
  intros Hfam.
  pose proof (find_all_models_extends root hp_target w) as Hext.
  rewrite Hfam in Hext. cbn [snd] in Hext. destruct Hext as (_ & _ & _ & Hfs & Hout).
  split.
  - intros ->. eexists. unfold find_model. rewrite (bind_ok _ _ _ _ _ Hfam).
    cbv beta iota. split; [reflexivity|]. cbn. rewrite Hout, Hfs. auto.
  - intros d ds' l hps' p js j hd tp -> -> Hlog Hperf Hlast Hl Htp.
    rewrite <- Hfs in Hlog.
    assert (Hne : l <> fresh_loc w1).
    { intros E. pose proof (fresh_loc_not_dict w1) as Hf. rewrite <- E, Hl in Hf.
      discriminate. }
    unfold find_model. rewrite (bind_ok _ _ _ _ _ Hfam). cbv beta iota.
    rewrite (bind_ok _ _ _ _ _ (load_log_stored d w1 p Hlog)).
    erewrite bind_ok;
      [|unfold getitem, bind, read_dict; cbn [w_dicts];
        rewrite lookup_insert_eq; unfold dict_of_json; rewrite lookup_fmap, Hperf;
        reflexivity].
    erewrite bind_ok;
      [|cbn [of_json py_last]; rewrite last_map, Hlast; reflexivity].
    erewrite bind_ok;
      [|unfold getitem, bind, read_dict; cbn [w_dicts];
        rewrite lookup_insert_ne by congruence; rewrite Hl, Htp; reflexivity].
    destruct (py_lt (of_json j) tp); eexists; (split; [reflexivity|]); cbn;
      rewrite Hout, Hfs, ?app_nil_r; auto.
Qed.

Lemma find_model_outcome_witness :
  exists w2,
    find_model "runs" 1%positive (target_world {[ "seed" := VInt 6 ]})
    = (Ok (Some "runs/d", Some 6%positive), w2)
    /\ w_out w2
       = w_out (target_world {[ "seed" := VInt 6 ]})
         ++ (if py_lt (of_json (JFloat 0.25)) (VFloat 0.5)
             then ["Warning: the network found did not reach target performance."]
             else [])
    /\ w_fs w2 = w_fs (target_world {[ "seed" := VInt 6 ]}).
Proof.
  refine (proj2 (find_model_outcome (H := scripted_random) "runs" 1%positive
                   (target_world {[ "seed" := VInt 6 ]})
                   (snd (find_all_models "runs" 1%positive
                           (target_world {[ "seed" := VInt 6 ]})))
                   ["runs/d"] [Some 6%positive] _)
                "runs/d" [] 6%positive [] {[ "perf_min" := JList [JFloat 0.25] ]}
                [JFloat 0.25] (JFloat 0.25)
                (<["rng" := VRng 7]> (dict_of_json {[ "seed" := JInt 6;
                                                      "target_perf" := JFloat 0.5 ]}))
                (VFloat 0.5) _ _ _ _ _ _ _).
  - vm_compute. reflexivity.
  - reflexivity.
  - reflexivity.
  - reflexivity.
  - reflexivity.
  - reflexivity.
  - vm_compute. reflexivity.
  - reflexivity.
Defined.

(** ** Loading twice, and saving what was loaded *)

(** X15: two loads of one directory do not share what they return: the
    mappings are two objects of the store with the same fields, and their
    generators are two objects in the same state, that of the seed
    [seed + 1000]. *)
Theorem load_hparams_twice `{NumpyRandom} (dir : string) (w : world)
        (o : gmap string json) (s : Z) :
  stored_hparams (w_fs w) dir = Some o ->
  o !! "seed" = Some (JInt s) ->
  0 <= s + 1000 < 2 ^ 32 ->
  exists l1 r1 w1 l2 r2 w2,
    load_hparams dir w = (Ok (Some l1), w1)
    /\ load_hparams dir w1 = (Ok (Some l2), w2)
    /\ l1 <> l2 /\ r1 <> r2
    /\ w_dicts w2 !! l1 = Some (<["rng" := VRng r1]> (dict_of_json o))
    /\ w_dicts w2 !! l2 = Some (<["rng" := VRng r2]> (dict_of_json o))
    /\ w_rngs w2 !! r1 = Some (seed_state (s + 1000))
    /\ w_rngs w2 !! r2 = Some (seed_state (s + 1000)).
Proof.
  intros Hst Hseed Hrange.
  destruct (load_hparams_stored dir w o s Hst Hseed Hrange)
    as (l1 & r1 & w1 & Hload1 & _ & _ & Hd1 & Hr1 & _ & Hfs1 & _).
  rewrite <- Hfs1 in Hst.
  destruct (load_hparams_stored dir w1 o s Hst Hseed Hrange)
    as (l2 & r2 & w2 & Hload2 & Hl2 & Hn2 & Hd2 & Hr2 & _).
  assert (Hne : l1 <> l2).
  { intros ->. rewrite Hd1, lookup_insert_eq in Hl2. discriminate. }
  assert (Hnr : r1 <> r2).
  { intros ->. rewrite Hr1, lookup_insert_eq in Hn2. discriminate. }
  exists l1, r1, w1, l2, r2, w2. repeat split; try assumption.
  - rewrite Hd2, lookup_insert_ne by congruence. rewrite Hd1. apply lookup_insert_eq.
  - rewrite Hd2. apply lookup_insert_eq.
  - rewrite Hr2, lookup_insert_ne by congruence. rewrite Hr1. apply lookup_insert_eq.
  - rewrite Hr2. apply lookup_insert_eq.
Qed.

Lemma load_hparams_twice_witness :
  exists l1 r1 w1 l2 r2 w2,
    load_hparams "runs/a" example_world = (Ok (Some l1), w1)
    /\ load_hparams "runs/a" w1 = (Ok (Some l2), w2)
    /\ l1 <> l2 /\ r1 <> r2
    /\ w_dicts w2 !! l1
       = Some (<["rng" := VRng r1]> (dict_of_json {[ "seed" := JInt 3; "n_rnn" := JInt 256 ]}))
    /\ w_dicts w2 !! l2
       = Some (<["rng" := VRng r2]> (dict_of_json {[ "seed" := JInt 3; "n_rnn" := JInt 256 ]}))
    /\ w_rngs w2 !! r1 = Some (seed_state (3 + 1000))
    /\ w_rngs w2 !! r2 = Some (seed_state (3 + 1000)).
Proof.
  apply (load_hparams_twice (H := scripted_random) "runs/a" example_world
           {[ "seed" := JInt 3; "n_rnn" := JInt 256 ]} 3).
  - reflexivity.
  - reflexivity.
  - lia.
Defined.

Lemma to_json_of_json : forall j, to_json (of_json j) = Some j.
Proof.
  fix IH 1. intros [ |b|z|f|s|l]; try reflexivity.
  cbn [of_json to_json].
  assert (Hl : (fix go (l0 : list pyval) : option (list json) :=
                  match l0 with
                  | [] => Some []
                  | v :: l' =>
                      match to_json v, go l' with
                      | Some j, Some js => Some (j :: js)
                      | _, _ => None
                      end
                  end) (map of_json l) = Some l).
  { induction l as [|j l IHl]; [reflexivity|].
    cbn [map]. rewrite (IH j), IHl. reflexivity. }
  rewrite Hl. reflexivity.
Qed.

Lemma dict_to_json_of_json (o : gmap string json) : dict_to_json (dict_of_json o) = Some o.
Proof.
  unfold dict_to_json, dict_of_json. case_bool_decide as Hall.
  - f_equal. apply map_eq. intros k. rewrite lookup_omap, lookup_fmap.
    destruct (o !! k) as [j|]; cbn; [apply to_json_of_json | reflexivity].
  - exfalso. apply Hall. intros k v Hk. rewrite lookup_fmap in Hk.
    destruct (o !! k) as [j|]; cbn in Hk; [|discriminate].
    inversion Hk; subst. rewrite to_json_of_json. eauto.
Qed.

(** X16: what was loaded can be saved: for a directory whose
    [hparams.json] holds an object with an integer seed in range,
    [load_hparams] and then [save_hparams] of the mapping into a directory
    where the file can be written both return, and the file written holds
    the fields of the first one, but for a field ['rng']. *)
Theorem load_save_roundtrip `{NumpyRandom} (dir dir2 : string) (w : world)
        (o : gmap string json) (s : Z) :
  stored_hparams (w_fs w) dir = Some o ->
  o !! "seed" = Some (JInt s) ->
  0 <= s + 1000 < 2 ^ 32 ->
  writable (w_fs w) (os_path_join dir2 "hparams.json") = true ->
  exists l w1 w2,
    load_hparams dir w = (Ok (Some l), w1)
    /\ save_hparams l dir2 w1 = (Ok tt, w2)
    /\ stored_hparams (w_fs w2) dir2 = Some (delete "rng" o).
Proof.
  intros Hst Hseed Hrange Hwr.
  destruct (load_hparams_stored dir w o s Hst Hseed Hrange)
    as (l & r & w1 & Hload & _ & _ & Hd1 & _ & _ & Hfs1 & _).
  assert (Hl : w_dicts w1 !! l = Some (<["rng" := VRng r]> (dict_of_json o)))
    by (rewrite Hd1; apply lookup_insert_eq).
  assert (Hjs : dict_to_json (delete "rng" (<["rng" := VRng r]> (dict_of_json o)))
                = Some (delete "rng" o)).
  { rewrite delete_insert_eq. unfold dict_of_json. rewrite <- fmap_delete.
    apply dict_to_json_of_json. }
  rewrite <- Hfs1 in Hwr.
  destruct (save_hparams_Ok l dir2 w1 _ (VRng r) _ Hl (lookup_insert_eq _ _ _) Hjs Hwr)
    as (w2 & Hsave & Hst2 & _).
  eauto 6.
Qed.

Lemma load_save_roundtrip_witness :
  exists l w1 w2,
    load_hparams "runs/a" example_world = (Ok (Some l), w1)
    /\ save_hparams l "runs/b" w1 = (Ok tt, w2)
    /\ stored_hparams (w_fs w2) "runs/b"
       = Some (delete "rng" {[ "seed" := JInt 3; "n_rnn" := JInt 256 ]}).
Proof.
  apply (load_save_roundtrip (H := scripted_random) "runs/a" "runs/b" example_world
           {[ "seed" := JInt 3; "n_rnn" := JInt 256 ]} 3).
  - reflexivity.
  - reflexivity.
  - lia.
  - reflexivity.
Defined.

(** ** [gen_feed_dict]: inputs of the width the encoding expects *)

Lemma argmax_from_bound : forall (l : list float) (mp : float) (best i : nat),
  (best < i)%nat -> (argmax_from mp best i l < i + length l)%nat.
Proof.
  induction l as [|v l IH]; intros mp best i Hb; cbn [argmax_from length]; [lia|].
  destruct (negb (v <=? mp)%float).
  - destruct (PrimFloat.is_nan v); [lia|].
    specialize (IH v i (S i) ltac:(lia)). lia.
  - specialize (IH mp best (S i) ltac:(lia)). lia.
Qed.

Lemma np_argmax_bound (l : list float) :
  l <> [] -> exists k, np_argmax l = Ok k /\ (k < length l)%nat.
Proof.
  destruct l as [|v l]; [congruence|]. intros _. cbn [np_argmax length].
  destruct (PrimFloat.is_nan v); eexists; (split; [reflexivity|]); [lia|].
  pose proof (argmax_from_bound l v 0 1 ltac:(lia)). lia.
Qed.

(** A trial of width [R + Cn] has a rule below [Cn] for every sample. *)
Lemma active_rule_total (x : ndarray3) (R Cn i : nat) :
  shape2 x = (R + Cn)%nat -> (1 <= Cn)%nat ->
  exists k, active_rule x (Z.of_nat R) i = Ok k /\ (k < Cn)%nat.
Proof.
  intros Hw HC. unfold active_rule. rewrite slice_bound_nat, Hw.
  replace (R + Cn - Nat.min R (R + Cn))%nat with Cn by lia.
  destruct (np_argmax_bound
              (map (fun j => item x 0 i (Nat.min R (R + Cn) + j)%nat) (seq 0 Cn)))
    as (k & Hk & Hlt).
  - destruct Cn; [lia | discriminate].
  - rewrite length_map, length_seq in Hlt. eauto.
Qed.

(** X17: [gen_feed_dict] returns for every 'multi' trial of the expected
    width.  With block size [R] and [Cn >= 1] rules, at least one time
    step and an input of width [R + Cn], every sample has a rule [a i]
    below [Cn] (the argmax of its indicator at time 0), no slice is out of
    range, and the result has shape [T, B, R*Cn] with the sample's input in
    the block of its rule and zeros elsewhere. *)
Theorem gen_feed_dict_multi_total {Y C : Type} (trial : Trial Y C)
        (hparams : gmap string pyval) (R Cn : nat) :
  hparams !! "in_type" = Some (VStr "multi") ->
  hparams !! "rule_start" = Some (VInt (Z.of_nat R)) ->
  hparams !! "n_rule" = Some (VInt (Z.of_nat Cn)) ->
  (1 <= shape0 (trial_x trial))%nat ->
  (1 <= Cn)%nat ->
  shape2 (trial_x trial) = (R + Cn)%nat ->
  exists fd a,
    gen_feed_dict trial hparams = Ok fd
    /\ (forall i, active_rule (trial_x trial) (Z.of_nat R) i = Ok (a i) /\ (a i < Cn)%nat)
    /\ shape0 (feed_x fd) = shape0 (trial_x trial)
    /\ shape1 (feed_x fd) = shape1 (trial_x trial)
    /\ shape2 (feed_x fd) = (R * Cn)%nat
    /\ (forall t i j, (i < shape1 (trial_x trial))%nat ->
                      item (feed_x fd) t i j = multi_item (trial_x trial) R a t i j).
Proof.
  intros Hin HR HC HT HCn Hw.
  set (a := fun i => match active_rule (trial_x trial) (Z.of_nat R) i with
                     | Ok k => k
                     | Raise _ => 0%nat
                     end).
  assert (Hrule : forall i, active_rule (trial_x trial) (Z.of_nat R) i = Ok (a i)
                            /\ (a i < Cn)%nat).
  { intros i. destruct (active_rule_total (trial_x trial) R Cn i Hw HCn) as (k & Hk & Hlt).
    unfold a. rewrite Hk. auto. }
  unfold gen_feed_dict, dict_get. rewrite Hin. cbn [result_bind].
  replace (py_eq (VStr "multi") (VStr "normal")) with false by reflexivity.
  replace (py_eq (VStr "multi") (VStr "multi")) with true by reflexivity.
  rewrite HR, HC. cbn [result_bind as_int].
  destruct (Z.of_nat R * Z.of_nat Cn <? 0) eqn:E; [apply Z.ltb_lt in E; lia|].
  replace (Z.to_nat (Z.of_nat R * Z.of_nat Cn)) with (R * Cn)%nat by lia.
  destruct (multi_loop_encodes (trial_x trial) R Cn a HT (fun i _ => Hrule i)
              (shape1 (trial_x trial)) 0
              (np_zeros3 (shape0 (trial_x trial)) (shape1 (trial_x trial)) (R * Cn)))
    as (x' & Hloop & H0 & H1 & H2 & Hitem).
  - lia.
  - repeat split.
  - rewrite Hloop. cbn [result_bind]. eexists. exists a. split; [reflexivity|]. cbn.
    repeat split; try assumption; try apply Hrule.
    intros t i j Hi. rewrite Hitem.
    replace (Nat.ltb i (0 + shape1 (trial_x trial))) with true
      by (symmetry; apply Nat.ltb_lt; lia).
    reflexivity.
Qed.

Lemma gen_feed_dict_multi_total_witness :
  exists fd a,
    gen_feed_dict example_trial example_multi_hp = Ok fd
    /\ (forall i, active_rule (trial_x example_trial) (Z.of_nat 2) i = Ok (a i)
                  /\ (a i < 2)%nat)
    /\ shape0 (feed_x fd) = shape0 (trial_x example_trial)
    /\ shape1 (feed_x fd) = shape1 (trial_x example_trial)
    /\ shape2 (feed_x fd) = (2 * 2)%nat
    /\ (forall t i j, (i < shape1 (trial_x example_trial))%nat ->
                      item (feed_x fd) t i j = multi_item (trial_x example_trial) 2 a t i j).
Proof.
  apply (gen_feed_dict_multi_total example_trial example_multi_hp 2 2).
  - reflexivity.
  - reflexivity.
  - reflexivity.
  - simpl. lia.
  - lia.
  - reflexivity.
Defined.

(** ** [gen_ortho_matrix]: shape, samples and what it leaves alone *)

Lemma normal_length `{NumpyRandom} : forall (k : nat) (s : rng_state),
  length (fst (normal k s)) = k.
Proof.
  induction k as [|k IH]; intros s; [reflexivity|].
  cbn [normal]. destruct (gauss s) as [x s1]. specialize (IH s1).
  destruct (normal k s1) as [xs s2]. cbn in *. lia.
Qed.

Lemma normal_add `{NumpyRandom} : forall (a b : nat) (s : rng_state),
  snd (normal (a + b) s) = snd (normal b (snd (normal a s))).
Proof.
  induction a as [|a IH]; intros b s; [reflexivity|].
  cbn [Nat.add normal]. destruct (gauss s) as [x s1]. specialize (IH b s1).
  destruct (normal (a + b) s1) as [xs s2]. destruct (normal a s1) as [ys s3].
  cbn in *. exact IH.
Qed.

Lemma draw_seq_sized `{NumpyRandom} (dim : nat) : forall (k n : nat) (s : rng_state),
  (1 <= n)%nat -> draws_sized dim n (fst (draw_seq dim (seq n k) s)).
Proof.
  induction k as [|k IH]; intros n s Hn; [exact I|].
  cbn [seq draw_seq]. pose proof (normal_length (dim - n + 1) s) as Hlen.
  destruct (normal (dim - n + 1) s) as [x s1]. specialize (IH (S n) s1 ltac:(lia)).
  destruct (draw_seq dim (seq (S n) k) s1) as [xs s2]. cbn in *. auto.
Qed.

Lemma draw_seq_samples `{NumpyRandom} (dim : nat) : forall (k n : nat) (s : rng_state),
  snd (draw_seq dim (seq n k) s) = snd (normal (samples_of dim n k) s).
Proof.
  induction k as [|k IH]; intros n s; [reflexivity|].
  cbn [seq draw_seq samples_of]. rewrite normal_add.
  destruct (normal (dim - n + 1) s) as [x s1]. specialize (IH (S n) s1).
  destruct (draw_seq dim (seq (S n) k) s1) as [xs s2]. cbn in *. exact IH.
Qed.

Lemma samples_of_sum (dim : nat) : forall (k n : nat),
  (n + k <= dim + 1)%nat ->
  (2 * samples_of dim n k + k * (k - 1) = 2 * k * (dim - n + 1))%nat.
Proof.
  induction k as [|k IH]; intros n Hn; [reflexivity|].
  cbn [samples_of]. specialize (IH (S n) ltac:(lia)).
  replace (S k - 1)%nat with k by lia.
  destruct k as [|k']; [cbn in *; lia|].
  replace (S k' - 1)%nat with k' in IH by lia.
  replace (dim - S n + 1)%nat with (dim - n)%nat in IH by lia.
  assert (Hd : (dim - n + 1 = S (dim - n))%nat) by lia. rewrite Hd. nia.
Qed.

Lemma np_dot_shape (A B : matrix float) :
  length (np_dot A B) = length A
  /\ List.Forall (fun row => length row = length (hd [] B)) (np_dot A B).
Proof.
  unfold np_dot. split; [apply length_map|].
  apply List.Forall_forall. intros row Hin. apply in_map_iff in Hin as (r0 & <- & _).
  rewrite length_map, length_seq. reflexivity.
Qed.

Lemma np_eye_shape (n : nat) :
  length (np_eye n : matrix float) = n
  /\ List.Forall (fun row => length row = n) (np_eye n : matrix float).
Proof.
  unfold np_eye. split; [rewrite length_map, length_seq; reflexivity|].
  apply List.Forall_forall. intros row Hin. apply in_map_iff in Hin as (i & <- & _).
  rewrite length_map, length_seq. reflexivity.
Qed.

Lemma np_eye_cons (d : nat) :
  exists row0 rest, (np_eye (S d) : matrix float) = row0 :: rest /\ length row0 = S d.
Proof.
  destruct (np_eye_shape (S d)) as [Hlen Hrows].
  destruct (np_eye (S d) : matrix float) as [|row0 rest]; [discriminate|].
  inversion Hrows; subst. eauto.
Qed.

(** The first row of the matrix of a step has [dim] entries. *)
Lemma step_matrix_first_row (dim n : nat) (c s : float) (x : vector float) :
  (1 <= n)%nat -> (1 <= dim)%nat -> length x = (dim - n + 1)%nat ->
  length (hd [] (set_block (np_eye dim) (n - 1)
                   (mscale c (msub (np_eye (dim - n + 1))
                                   (mdiv (mscale s_two (np_outer x x)) s)))))
  = dim.
Proof.
  intros Hn Hd Hx. destruct dim as [|d]; [lia|].
  destruct (np_eye_cons d) as (row0 & rest & Heye & Hrow0).
  unfold set_block. rewrite Heye. cbn [imap hd].
  destruct (Nat.ltb 0 (n - 1)) eqn:E; [exact Hrow0|].
  apply Nat.ltb_ge in E. assert (n = 1%nat) by lia. subst n.
  replace (S d - 1 + 1)%nat with (S d) in * by lia. rewrite Heye.
  destruct x as [|x0 xs]; [discriminate|].
  cbn [Nat.sub take app]. unfold np_outer, mscale, mdiv, msub.
  cbn [map zip_with nth].
  rewrite length_app, length_take, length_map, length_zip_with.
  cbn [length] in Hx |- *. rewrite !length_map. lia.
Qed.

Lemma iadd_first_length (x : vector float) (c : float) :
  length (iadd_first x c) = length x.
Proof. destruct x; reflexivity. Qed.

Lemma householder_step_shape (dim n : nat) (Hm : matrix float) (x : vector float) :
  (1 <= n)%nat -> length x = (dim - n + 1)%nat ->
  length Hm = dim ->
  length (householder_step dim n Hm x) = dim
  /\ List.Forall (fun row => length row = dim) (householder_step dim n Hm x).
Proof.
  intros Hn Hx HH. unfold householder_step. cbv zeta.
  match goal with |- context [np_dot Hm ?mat] =>
    destruct (np_dot_shape Hm mat) as [Hlen Hrows] end.
  split; [congruence|].
  destruct dim as [|d].
  - destruct Hm; [constructor | discriminate].
  - eapply List.Forall_impl; [|exact Hrows].
    intros row ->. apply step_matrix_first_row; try lia.
    rewrite iadd_first_length. exact Hx.
Qed.

Lemma householder_fold_shape (dim : nat) : forall (draws : list (vector float)) (n : nat)
    (Hm : matrix float),
  draws_sized dim n draws ->
  length Hm = dim -> List.Forall (fun row => length row = dim) Hm ->
  length (householder_fold dim n Hm draws) = dim
  /\ List.Forall (fun row => length row = dim) (householder_fold dim n Hm draws).
Proof.
  induction draws as [|x rest IH]; intros n Hm Hs HH Hrows; [auto|].
  destruct Hs as (Hn & Hx & Hrest). cbn [householder_fold].
  destruct (householder_step_shape dim n Hm x Hn Hx HH) as [H1 H2].
  apply IH; assumption.
Qed.

(** X18: [gen_ortho_matrix(dim, rng)] returns a [dim] by [dim] array for
    every [dim >= 0] and every state of the generator it draws from (the
    default one, or a generator of the store). *)
Theorem gen_ortho_matrix_shape `{NumpyRandom} (dim : Z) (rng : option loc) (w : world) :
  0 <= dim ->
  is_Some (gen_state rng w) ->
  exists M, fst (gen_ortho_matrix dim rng w) = Ok M
            /\ length M = Z.to_nat dim
            /\ List.Forall (fun row => length row = Z.to_nat dim) M.
Proof.
  intros Hd [s Hs]. unfold gen_ortho_matrix.
  destruct (dim <? 0) eqn:E; [apply Z.ltb_lt in E; lia|].
  destruct (gen_ortho_loop_draws (Z.to_nat dim) rng (Z.to_nat dim - 1) 1
              (np_eye (Z.to_nat dim)) w s Hs) as [Hres _].
  eexists. split; [exact Hres|].
  destruct (np_eye_shape (Z.to_nat dim)) as [He1 He2].
  apply householder_fold_shape; try assumption.
  apply draw_seq_sized. lia.
Qed.

Lemma gen_ortho_matrix_shape_witness :
  exists M,
    fst (gen_ortho_matrix 3 (Some 1%positive)
           (scripted_world (Dir []) ∅ {[ 1%positive := [1; 2; 2; -3; 4]%float ]}))
    = Ok M
    /\ length M = Z.to_nat 3
    /\ List.Forall (fun row => length row = Z.to_nat 3) M.
Proof.
  apply (gen_ortho_matrix_shape (H := scripted_random) 3 (Some 1%positive)
           (scripted_world (Dir []) ∅ {[ 1%positive := [1; 2; 2; -3; 4]%float ]})).
  - lia.
  - eexists. reflexivity.
Defined.

(** X19: the samples [gen_ortho_matrix] takes.  For [dim >= 1] the
    generator it draws from is left in the state it has after
    [(dim - 1)(dim + 2)/2] samples (the steps take
    [dim, dim - 1, ..., 2] samples). *)
Theorem gen_ortho_matrix_samples `{NumpyRandom} (dim : Z) (rng : option loc) (w : world)
        (s : rng_state) :
  1 <= dim ->
  gen_state rng w = Some s ->
  gen_state rng (snd (gen_ortho_matrix dim rng w))
  = Some (snd (normal ((Z.to_nat dim - 1) * (Z.to_nat dim + 2) / 2) s)).
Proof.
  intros Hd Hs. unfold gen_ortho_matrix.
  destruct (dim <? 0) eqn:E; [apply Z.ltb_lt in E; lia|].
  destruct (gen_ortho_loop_draws (Z.to_nat dim) rng (Z.to_nat dim - 1) 1
              (np_eye (Z.to_nat dim)) w s Hs) as [_ Hst].
  rewrite Hst, draw_seq_samples. do 3 f_equal.
  pose proof (samples_of_sum (Z.to_nat dim) (Z.to_nat dim - 1) 1 ltac:(lia)) as Hsum.
  set (d := Z.to_nat dim) in *. set (S := samples_of d 1 (d - 1)) in *.
  assert (Hd1 : (1 <= d)%nat) by (subst d; lia).
  assert (H2 : (2 * S = (d - 1) * (d + 2))%nat) by nia.
  rewrite <- H2. rewrite Nat.mul_comm, Nat.div_mul by lia. reflexivity.
Qed.

Lemma gen_ortho_matrix_samples_witness :
  gen_state (Some 1%positive)
    (snd (gen_ortho_matrix 3 (Some 1%positive)
            (scripted_world (Dir []) ∅ {[ 1%positive := [1; 2; 2; -3; 4; 7]%float ]})))
  = Some (snd (@normal scripted_random ((Z.to_nat 3 - 1) * (Z.to_nat 3 + 2) / 2)
                       [1; 2; 2; -3; 4; 7]%float)).
Proof.
  apply (gen_ortho_matrix_samples (H := scripted_random) 3 (Some 1%positive)
           (scripted_world (Dir []) ∅ {[ 1%positive := [1; 2; 2; -3; 4; 7]%float ]})
           [1; 2; 2; -3; 4; 7]%float).
  - lia.
  - reflexivity.
Defined.

Lemma only_draws_refl `{NumpyRandom} (rng : option loc) (w : world) : only_draws rng w w.
Proof. repeat split. destruct rng; auto. Qed.

Lemma only_draws_trans `{NumpyRandom} (rng : option loc) (w1 w2 w3 : world) :
  only_draws rng w1 w2 -> only_draws rng w2 w3 -> only_draws rng w1 w3.
Proof.
  intros (Ha & Hb & Hc & Hd) (Ha' & Hb' & Hc' & Hd').
  repeat split; try congruence.
  destruct rng as [r|]; [|congruence].
  destruct Hd as [Hg Hr]. destruct Hd' as [Hg' Hr'].
  split; [congruence|]. intros r' Hne. rewrite (Hr' r' Hne). apply Hr, Hne.
Qed.

Lemma only_draws_step `{NumpyRandom} (rng : option loc) (k : nat) (w : world) :
  only_draws rng w (snd (match rng with
                         | None => np_random_normal k
                         | Some r => rng_normal r k
                         end w)).
Proof.
  destruct rng as [r|].
  - unfold rng_normal. destruct (w_rngs w !! r) as [s0|]; [|apply only_draws_refl].
    destruct (normal k s0) as [x s]. cbn. repeat split.
    intros r' Hne. apply lookup_insert_ne. congruence.
  - unfold np_random_normal. destruct (normal k (w_global_rng w)) as [x s].
    repeat split.
Qed.

Lemma gen_ortho_loop_only_draws `{NumpyRandom} (dim : nat) (rng : option loc) :
  forall (ns : list nat) (Hm : matrix float) (w : world),
    only_draws rng w (snd (gen_ortho_loop dim rng ns Hm w)).
Proof.
  induction ns as [|n rest IH]; intros Hm w; [apply only_draws_refl|].
  cbn [gen_ortho_loop]. unfold bind.
  pose proof (only_draws_step rng (dim - n + 1) w) as Hstep.
  destruct (match rng with
            | Some r => rng_normal r (dim - n + 1)
            | None => np_random_normal (dim - n + 1)
            end w) as [[x|e] w1]; cbn in Hstep; [|exact Hstep].
  eapply only_draws_trans; [exact Hstep | apply IH].
Qed.

(** X20: [gen_ortho_matrix] does nothing but draw: whether it returns or
    raises, the mappings, the files and the output are as they were; with
    a generator [rng] the default generator and every other generator of
    the store keep their state, and without one every generator of the
    store does. *)
Theorem gen_ortho_matrix_only_draws `{NumpyRandom} (dim : Z) (rng : option loc)
        (w : world) :
  only_draws rng w (snd (gen_ortho_matrix dim rng w)).
Proof.
  unfold gen_ortho_matrix. destruct (dim <? 0); [apply only_draws_refl|].
  apply gen_ortho_loop_only_draws.
Qed.
